(** * AI-Multiagent orchestration core: Planner, Executor, Reporter and the
      run coordinator of [backend/app/api/runs.py]

    The development embeds the Python sources in Gallina:

    - [backend/app/core/prompt_guard.py]   : [sanitize]
    - [backend/app/agents/reporter.py]     : [ReporterAgent_run]
    - [backend/app/agents/planner.py]      : [PlannerAgent_plan]
    - [backend/app/agents/executor.py]     : [ExecutorAgent_run]
    - [backend/app/api/runs.py]            : [create_and_plan_run],
                                             [execute_run], [summarize_run],
                                             [get_run], [list_runs],
                                             [list_run_tasks], [list_run_logs],
                                             [delete_run]
    - [backend/app/api/projects.py]        : [delete_project]
    - [backend/app/core/llm_client.py]     : [LlmClient.generate_completion]
    - [backend/app/models/project.py]      : the records [Project], [Run],
                                             [Task], [Log]

    Conventions.  A Python [str] is a Rocq [string]; one [ascii] stands for
    one character (code points 0..255).  The tables of the store are finite
    maps from the primary key to the row.  A SQLAlchemy session is a pair of
    stores, the committed one and the working copy the ORM objects live in.
    The completion service ([generate_completion]) is the environment: a
    stream of outcomes, one per call.  Python built-ins whose code is not in
    the repository ([json.loads], [str] of a value that is not a string,
    [int] on a string) are the fields of the record [Builtins], a parameter
    of the Planner.  Statements of the store may fail where [Site] says; the
    store calls of the [except] and [finally] blocks are taken to succeed. *)

From Stdlib Require Import ZArith QArith String Ascii List DecimalString.
From stdpp Require Import gmap list sorting.

Local Open Scope Z_scope.
Local Open Scope string_scope.

(** ** Python strings *)

Module PyStr.

Definition nl : string := String "010"%char EmptyString.
Definition dq : string := String "034"%char EmptyString.

(** [f"{z}"] for an [int]. *)
Definition string_of_Z (z : Z) : string := NilZero.string_of_int (Z.to_int z).

(** [str.isspace] on the code points below 256. *)
Definition is_space (c : ascii) : bool :=
  let n := nat_of_ascii c in
  ((9 <=? n)%nat && (n <=? 13)%nat) || ((28 <=? n)%nat && (n <=? 32)%nat)
  || (n =? 133)%nat || (n =? 160)%nat.

Fixpoint lstrip (s : string) : string :=
  match s with
  | EmptyString => EmptyString
  | String c s' => if is_space c then lstrip s' else s
  end.

Fixpoint rstrip (s : string) : string :=
  match s with
  | EmptyString => EmptyString
  | String c s' =>
      match rstrip s' with
      | EmptyString => if is_space c then EmptyString else String c EmptyString
      | r => String c r
      end
  end.

(** [s.strip()] *)
Definition strip (s : string) : string := rstrip (lstrip s).

(** [s[:n]] *)
Definition take (n : nat) (s : string) : string := substring 0 n s.

(** [sep.join(parts)] *)
Definition join (sep : string) (parts : list string) : string :=
  String.concat sep parts.

(** [not s] for a [str]. *)
Definition is_empty (s : string) : bool :=
  match s with EmptyString => true | _ => false end.

Definition lower (c : ascii) : ascii :=
  let n := nat_of_ascii c in
  if ((65 <=? n)%nat && (n <=? 90)%nat) then ascii_of_nat (n + 32) else c.

(** Does [pat] (lower case) match a prefix of [s], ignoring case?  On a match
    the rest of [s] is returned. *)
Fixpoint match_prefix_ci (pat s : string) : option string :=
  match pat, s with
  | EmptyString, _ => Some s
  | String p pat', String c s' =>
      if Ascii.eqb p (lower c) then match_prefix_ci pat' s' else None
  | String _ _, EmptyString => None
  end.

Fixpoint first_match (alts : list string) (s : string) : option string :=
  match alts with
  | [] => None
  | p :: alts' =>
      match match_prefix_ci p s with
      | Some rest => Some rest
      | None => first_match alts' s
      end
  end.

(** [re.sub(pattern, repl, s, flags=re.I)] for a pattern given as the list of
    the literal strings it matches; the scan is leftmost and non-overlapping.
    [fuel] bounds the number of characters still to be scanned. *)
Fixpoint re_sub_ci (fuel : nat) (alts : list string) (repl s : string) : string :=
  match fuel with
  | O => s
  | S fuel' =>
      match s with
      | EmptyString => EmptyString
      | String c s' =>
          match first_match alts s with
          | Some rest => repl ++ re_sub_ci fuel' alts repl rest
          | None => String c (re_sub_ci fuel' alts repl s')
          end
      end
  end.

End PyStr.

(** ** [core/prompt_guard.py] *)

(** [BLOCK_PATTERNS]; the one pattern that is not a literal,
    [api[_-]?key], is listed by the three strings it matches. *)
Definition BLOCK_PATTERNS : list (list string) :=
  [ ["ignore previous"]; ["system:"]; ["developer:"]; ["you are chatgpt"];
    ["jailbreak"]; ["override"]; ["sudo"]; ["password"];
    ["api_key"; "api-key"; "apikey"]; ["token"] ].

Definition sanitize (text : string) : string :=
  if PyStr.is_empty text then ""
  else
    let text := PyStr.take 3000 text in
    let text :=
      fold_left
        (fun text pattern =>
           PyStr.re_sub_ci (S (String.length text)) pattern "[filtered]" text)
        BLOCK_PATTERNS text in
    PyStr.strip text.

(** ** [agents/reporter.py] *)

(** A value read with [dict.get]: the key may be absent, or bound to [None]. *)
Inductive field (A : Type) : Type :=
| Missing
| PyNone
| Val (a : A).
Arguments Missing {A}.
Arguments PyNone {A}.
Arguments Val {A} a.

(** The dictionaries [summarize_run] hands to the Reporter. *)
Record TaskDict : Type := mkTaskDict {
  td_order_index : field Z;
  td_agent_type : field string;
  td_input : field string;
  td_output : field string
}.

(** [t.get(key) or default] *)
Definition get_or (f : field string) (default : string) : string :=
  match f with
  | Val s => if PyStr.is_empty s then default else s
  | _ => default
  end.

(** [f"{t.get('order_index', '?')}"] *)
Definition idx_text (f : field Z) : string :=
  match f with
  | Missing => "?"
  | PyNone => "None"
  | Val z => PyStr.string_of_Z z
  end.

Definition input_text (t : TaskDict) : string := PyStr.strip (get_or (td_input t) "").
Definition output_text (t : TaskDict) : string := PyStr.strip (get_or (td_output t) "").

Definition no_output_line : string := "- Result: (no output recorded)".

Definition closing_statement : string :=
  "Overall, the project has been broken down into clear steps and "
  ++ "each step has been processed. This summary can be used as a high-level "
  ++ "report of what the orchestrator completed.".

Definition step_line (t : TaskDict) : string :=
  "Step " ++ idx_text (td_order_index t) ++ " ("
  ++ get_or (td_agent_type t) "executor" ++ "):".
Definition instruction_line (t : TaskDict) : string := "- Instruction: " ++ input_text t.
Definition result_line (t : TaskDict) : string := "- Result: " ++ output_text t.
Definition title_line (project_title : string) : string :=
  "Summary for project: " ++ project_title.

(** The body of the [for t in tasks] loop: the lines it appends. *)
Definition reporter_step (lines : list string) (t : TaskDict) : list string :=
  let lines := (lines ++ [EmptyString])%list in
  let lines := (lines ++ [step_line t])%list in
  let lines :=
    if PyStr.is_empty (input_text t) then lines
    else (lines ++ [instruction_line t])%list in
  if PyStr.is_empty (output_text t)
  then (lines ++ [no_output_line])%list
  else (lines ++ [result_line t])%list.

Definition reporter_lines (project_title : string) (tasks : list TaskDict) : list string :=
  let lines := [] in
  let lines := (lines ++ [title_line project_title])%list in
  let lines := (lines ++ [EmptyString])%list in
  let lines := (lines ++ ["This run executed the following steps:"%string])%list in
  let lines := fold_left reporter_step tasks lines in
  let lines := (lines ++ [EmptyString])%list in
  (lines ++ [closing_statement])%list.

Definition ReporterAgent_run (project_title : string) (tasks : list TaskDict) : string :=
  PyStr.join PyStr.nl (reporter_lines project_title tasks).

(** The lines one task contributes. *)
Definition step_block (t : TaskDict) : list string := reporter_step [] t.

(** ** [models/project.py]: the rows of the store

    The columns the orchestration core reads or writes; the timestamps, the
    status of a project and the branching columns of a task ([parent_task_id],
    [depth], [branch]) are left out: the core never reads them and only gives
    them their defaults.  The status columns are [String(50)] in the source;
    the constructors stand for the strings the core stores there.  The input
    and the order index of a task are nullable columns; the Planner, which is
    the one writer, always stores a [str] and an [int]. *)

(** ["created"], ["planned"], ["running"], ["completed"], ["summarized"] *)
Inductive RunStatus : Type := RCreated | RPlanned | RRunning | RCompleted | RSummarized.

(** ["pending"], ["running"], ["done"] *)
Inductive TaskStatus : Type := TPending | TRunning | TDone.

(** ["info"], ["cost"], ["error"] *)
Inductive LogLevel : Type := LInfo | LCost | LError.

Record Project : Type := mkProject {
  p_title : string;
  p_description : option string;
  p_owner_id : nat;
  p_is_locked : bool
}.

Record Run : Type := mkRun {
  r_project_id : nat;
  r_status : RunStatus;
  r_final_summary : option string;
  r_is_archived : bool;
  r_is_locked : bool
}.

Record Task : Type := mkTask {
  t_run_id : nat;
  t_agent_type : string;
  t_status : TaskStatus;
  t_input : string;
  t_output : option string;
  t_order_index : Z
}.

Record Log : Type := mkLog {
  l_run_id : nat;
  l_agent_type : string;
  l_level : LogLevel;
  l_message : string
}.

#[global] Instance RunStatus_eq_dec : EqDecision RunStatus.
Proof. solve_decision. Defined.
#[global] Instance TaskStatus_eq_dec : EqDecision TaskStatus.
Proof. solve_decision. Defined.

(** The position of a status in [created -> planned -> running -> completed
    -> summarized]. *)
Definition status_rank (s : RunStatus) : nat :=
  match s with
  | RCreated => 0 | RPlanned => 1 | RRunning => 2 | RCompleted => 3 | RSummarized => 4
  end.

(** Attribute assignments on the ORM objects. *)
Definition set_p_is_locked (b : bool) (p : Project) : Project :=
  mkProject (p_title p) (p_description p) (p_owner_id p) b.
Definition set_r_status (s : RunStatus) (r : Run) : Run :=
  mkRun (r_project_id r) s (r_final_summary r) (r_is_archived r) (r_is_locked r).
Definition set_r_final_summary (x : option string) (r : Run) : Run :=
  mkRun (r_project_id r) (r_status r) x (r_is_archived r) (r_is_locked r).
Definition set_r_is_archived (b : bool) (r : Run) : Run :=
  mkRun (r_project_id r) (r_status r) (r_final_summary r) b (r_is_locked r).
Definition set_r_is_locked (b : bool) (r : Run) : Run :=
  mkRun (r_project_id r) (r_status r) (r_final_summary r) (r_is_archived r) b.
Definition set_t_status (s : TaskStatus) (t : Task) : Task :=
  mkTask (t_run_id t) (t_agent_type t) s (t_input t) (t_output t) (t_order_index t).
Definition set_t_output (x : option string) (t : Task) : Task :=
  mkTask (t_run_id t) (t_agent_type t) (t_status t) (t_input t) x (t_order_index t).

(** The persistent store: one finite map per table, keyed by [id]; [logs] is
    append-only and kept in insertion order. *)
Record Store : Type := mkStore {
  projects : gmap nat Project;
  runs : gmap nat Run;
  tasks : gmap nat Task;
  logs : list Log
}.

Definition upd_projects (f : gmap nat Project -> gmap nat Project) (s : Store) : Store :=
  mkStore (f (projects s)) (runs s) (tasks s) (logs s).
Definition upd_runs (f : gmap nat Run -> gmap nat Run) (s : Store) : Store :=
  mkStore (projects s) (f (runs s)) (tasks s) (logs s).
Definition upd_tasks (f : gmap nat Task -> gmap nat Task) (s : Store) : Store :=
  mkStore (projects s) (runs s) (f (tasks s)) (logs s).
Definition upd_logs (f : list Log -> list Log) (s : Store) : Store :=
  mkStore (projects s) (runs s) (tasks s) (f (logs s)).

(** ** Exceptions, the completion service, store failures *)

Inductive ErrClass : Type :=
| RuntimeError | AttributeError | TypeError | ValueError | OverflowError | KeyError
| OperationalError.

Inductive exn : Type :=
| HTTPException (status_code : nat) (detail : string)
| PyError (cls : ErrClass) (msg : string).

(** [str(e)] *)
Definition exn_str (e : exn) : string :=
  match e with
  | HTTPException code detail =>
      PyStr.string_of_Z (Z.of_nat code) ++ ": " ++ detail
  | PyError _ msg => msg
  end.

(** One call of [generate_completion]: the pair [(content, usage)] it returns,
    [usage] reduced to its [total_tokens] entry when present, or the exception
    it raises. *)
Inductive Completion : Type :=
| Reply (content : string) (total_tokens : option Z)
| Failure (e : exn).

(** The statements of the store that may fail in the model: the bulk update
    of [create_and_plan_run] that archives the prior runs (with its commit),
    which no [try] block covers, and the three commits of the Executor's
    [try] block, named by the task they belong to.  Every other statement of
    the store succeeds. *)
Inductive Site : Type :=
| ArchivePriorRuns
| MarkRunning (task_id : nat)
| SaveOutput (task_id : nat)
| LogCost (task_id : nat).

(** What the program cannot control: the k-th answer of the completion
    service (k counted from 0 over the operation) and the statements of the
    store that fail. *)
Record Env : Type := mkEnv {
  completion : nat -> Completion;
  store_fault : Site -> option exn
}.

(** ** Sessions and the monad of the handlers *)

(** A session: the committed store and the working copy; and, for the
    statements, what an observer of the request sees: the number of completion
    calls made, the prompts sent, and the stores committed so far, oldest
    first. *)
Record World : Type := mkWorld {
  committed : Store;
  working : Store;
  calls : nat;
  prompts : list string;
  history : list Store
}.

Inductive Result (A : Type) : Type :=
| Ok (a : A)
| Raise (e : exn).
Arguments Ok {A} a.
Arguments Raise {A} e.

Definition M (A : Type) : Type := World -> Result A * World.

Definition ret {A} (a : A) : M A := fun w => (Ok a, w).
Definition raise {A} (e : exn) : M A := fun w => (Raise e, w).
Definition bind {A B} (m : M A) (k : A -> M B) : M B :=
  fun w =>
    match m w with
    | (Ok a, w') => k a w'
    | (Raise e, w') => (Raise e, w')
    end.

Declare Scope py_scope.
Delimit Scope py_scope with py.
Notation "x <- c1 ;; c2" := (bind c1 (fun x => c2))
  (at level 100, c1 at next level, right associativity) : py_scope.
Notation "c1 ;; c2" := (bind c1 (fun _ => c2))
  (at level 100, right associativity) : py_scope.
Local Open Scope py_scope.

(** [try: body except Exception as e: handler(e)] *)
Definition try_except {A} (body : M A) (handler : exn -> M A) : M A :=
  fun w =>
    match body w with
    | (Ok a, w') => (Ok a, w')
    | (Raise e, w') => handler e w'
    end.

(** [try: body finally: cleanup] *)
Definition try_finally {A} (body : M A) (cleanup : M unit) : M A :=
  fun w =>
    match body w with
    | (r, w') =>
        match cleanup w' with
        | (Ok _, w'') => (r, w'')
        | (Raise e, w'') => (Raise e, w'')
        end
    end.

(** Attribute writes and [db.add] act on the working copy. *)
Definition modify (f : Store -> Store) : M unit :=
  fun w => (Ok tt, mkWorld (committed w) (f (working w)) (calls w) (prompts w) (history w)).

Definition read {A} (f : Store -> A) : M A := fun w => (Ok (f (working w)), w).

(** [db.commit()] *)
Definition commit : M unit :=
  fun w =>
    (Ok tt, mkWorld (working w) (working w) (calls w) (prompts w)
              (history w ++ [working w])).

(** [db.rollback()] *)
Definition rollback : M unit :=
  fun w => (Ok tt, mkWorld (committed w) (committed w) (calls w) (prompts w) (history w)).

(** A statement of the store that fails when the environment says so. *)
Definition guard_site (env : Env) (site : Site) : M unit :=
  match store_fault env site with
  | Some e => raise e
  | None => ret tt
  end.

(** [generate_completion(prompt)] *)
Definition generate_completion (env : Env) (prompt : string) : M (string * option Z) :=
  fun w =>
    let w' := mkWorld (committed w) (working w) (S (calls w)) (prompts w ++ [prompt])
                (history w) in
    match completion env (calls w) with
    | Reply content usage => (Ok (content, usage), w')
    | Failure e => (Raise e, w')
    end.

Definition lift {A} (r : Result A) : M A := fun w => (r, w).

(** ** Values decoded from JSON, and the built-ins applied to them *)

(** A Python [float]: a finite one by its value, or an infinity, or a NaN
    ([json.loads] accepts [Infinity] and [NaN]). *)
Inductive pyfloat : Type :=
| FFinite (q : Q)
| FInf (negative : bool)
| FNan.

(** What [json.loads] returns.  An object keeps its members in source order;
    reading a key takes its last binding, as a Python [dict] built by
    successive insertion does. *)
#[warnings="-register-all"]
Inductive json : Type :=
| JNull
| JBool (b : bool)
| JInt (n : Z)
| JFloat (f : pyfloat)
| JStr (s : string)
| JList (xs : list json)
| JDict (items : list (string * json)).

(** Library code the Planner calls and the repository does not contain. *)
Record Builtins : Type := mkBuiltins {
  (** [json.loads(s)]; [None] when it raises *)
  json_loads : string -> option json;
  (** [str(v)] for a value [v] that is not a [str] *)
  py_repr : json -> string;
  (** [int(s)] for a [str]; [None] when it raises [ValueError] *)
  int_of_str : string -> option Z
}.

Fixpoint dict_get (key : string) (items : list (string * json)) : option json :=
  match items with
  | [] => None
  | (k, v) :: items' =>
      match dict_get key items' with
      | Some v' => Some v'
      | None => if String.eqb k key then Some v else None
      end
  end.

(** [sub in s] for two strings. *)
Fixpoint str_contains (sub s : string) : bool :=
  if String.prefix sub s then true
  else match s with
       | EmptyString => false
       | String _ s' => str_contains sub s'
       end.

Definition is_str (key : string) (v : json) : bool :=
  match v with
  | JStr s => String.eqb s key
  | _ => false
  end.

(** [key in t] *)
Definition py_in (key : string) (t : json) : Result bool :=
  match t with
  | JDict items => Ok (match dict_get key items with Some _ => true | None => false end)
  | JList xs => Ok (existsb (is_str key) xs)
  | JStr s => Ok (str_contains key s)
  | _ => Raise (PyError TypeError "argument is not iterable")
  end.

(** [t[key]] for a string [key] *)
Definition py_getitem (key : string) (t : json) : Result json :=
  match t with
  | JDict items =>
      match dict_get key items with
      | Some v => Ok v
      | None => Raise (PyError KeyError key)
      end
  | JList _ => Raise (PyError TypeError "list indices must be integers or slices, not str")
  | JStr _ => Raise (PyError TypeError "string indices must be integers")
  | _ => Raise (PyError TypeError "object is not subscriptable")
  end.

(** [str(v)] *)
Definition py_str (lib : Builtins) (v : json) : string :=
  match v with
  | JStr s => s
  | _ => py_repr lib v
  end.

(** [int(v)]: truncation toward zero on a float. *)
Definition py_int (lib : Builtins) (v : json) : Result Z :=
  match v with
  | JInt n => Ok n
  | JBool b => Ok (if b then 1 else 0)
  | JFloat (FFinite q) => Ok (Z.quot (Qnum q) (Zpos (Qden q)))
  | JFloat (FInf _) => Raise (PyError OverflowError "cannot convert float infinity to integer")
  | JFloat FNan => Raise (PyError ValueError "cannot convert float NaN to integer")
  | JStr s =>
      match int_of_str lib s with
      | Some n => Ok n
      | None => Raise (PyError ValueError "invalid literal for int() with base 10")
      end
  | _ => Raise (PyError TypeError "int() argument must be a string, a bytes-like object or a real number")
  end.

(** [data.get("tasks")]; only a [dict] has [get]. *)
Definition py_get_tasks (data : json) : Result (option json) :=
  match data with
  | JDict items => Ok (dict_get "tasks" items)
  | _ => Raise (PyError AttributeError "object has no attribute 'get'")
  end.

(** ** [agents/planner.py] *)

Definition MAX_REFINES : nat := 3.

Definition or_default (x : option string) (default : string) : string :=
  match x with
  | Some s => if PyStr.is_empty s then default else s
  | None => default
  end.

Definition base_prompt (project_title : string) (project_description : option string) : string :=
  PyStr.join PyStr.nl
    [ "";
      "You are a planning agent.";
      "";
      "Break the project into clear, ordered execution tasks.";
      "";
      "Return ONLY valid JSON. No markdown. No explanations.";
      "";
      "JSON Schema:";
      "{";
      "  " ++ PyStr.dq ++ "tasks" ++ PyStr.dq ++ ": [";
      "    {";
      "      " ++ PyStr.dq ++ "order_index" ++ PyStr.dq ++ ": number,";
      "      " ++ PyStr.dq ++ "input" ++ PyStr.dq ++ ": string";
      "    }";
      "  ]";
      "}";
      "";
      "Project Title:";
      sanitize project_title;
      "";
      "Project Description:";
      sanitize (or_default project_description "N/A");
      "" ].

Definition fix_prompt (current : string) : string :=
  "Fix this and return ONLY valid JSON with same schema:" ++ PyStr.nl ++ current.

(** [for _ in range(n): try: json.loads(current); break
                        except Exception: current, _ = generate_completion(...)] *)
Fixpoint refine (env : Env) (lib : Builtins) (n : nat) (current : string) : M string :=
  match n with
  | O => ret current
  | S n' =>
      match json_loads lib current with
      | Some _ => ret current
      | None =>
          r <- generate_completion env (fix_prompt current) ;;
          refine env lib n' (fst r)
      end
  end.

(** [self.db.add(task)]: the new row gets an unused primary key. *)
Definition db_add_task (t : Task) : M nat :=
  fun w =>
    let id := fresh (dom (tasks (working w))) in
    (Ok id,
     mkWorld (committed w) (upd_tasks (insert id t) (working w)) (calls w) (prompts w)
       (history w)).

(** [for t in tasks: ...], returning [created_tasks]. *)
Fixpoint create_tasks (lib : Builtins) (run_id : nat) (ts : list json)
    (created_tasks : list nat) : M (list nat) :=
  match ts with
  | [] => ret created_tasks
  | t :: ts' =>
      has_index <- lift (py_in "order_index" t) ;;
      if negb has_index then create_tasks lib run_id ts' created_tasks
      else
        has_input <- lift (py_in "input" t) ;;
        if negb has_input then create_tasks lib run_id ts' created_tasks
        else
          v_input <- lift (py_getitem "input" t) ;;
          v_index <- lift (py_getitem "order_index" t) ;;
          order_index <- lift (py_int lib v_index) ;;
          id <- db_add_task
                  (mkTask run_id "executor" TPending
                     (PyStr.take 4000 (py_str lib v_input)) None order_index) ;;
          create_tasks lib run_id ts' (created_tasks ++ [id])%list
  end.

(** The second half of [plan], from [tasks = data.get("tasks")] on. *)
Definition store_plan (lib : Builtins) (run_id : nat) (data : json) : M (list nat) :=
  tasks_value <- lift (py_get_tasks data) ;;
  match tasks_value with
  | Some (JList (t :: ts)) =>
      created_tasks <- create_tasks lib run_id (t :: ts) [] ;;
      modify (upd_runs (alter (set_r_status RPlanned) run_id)) ;;
      commit ;;
      ret created_tasks
  | _ => raise (HTTPException 400 "Planner returned invalid tasks")
  end.

Definition PlannerAgent_plan (env : Env) (lib : Builtins) (run_id : nat)
    (project_title : string) (project_description : option string) : M (list nat) :=
  r <- generate_completion env (base_prompt project_title project_description) ;;
  current <- refine env lib MAX_REFINES (fst r) ;;
  match json_loads lib current with
  | Some data => store_plan lib run_id data
  | None => raise (HTTPException 400 "Planner failed to produce valid JSON")
  end.

(** ** [agents/executor.py] *)

Definition executor_prompt (project_title previous_context task_input : string) : string :=
  PyStr.join PyStr.nl
    [ "";
      "You are an expert AI agent working on a project.";
      "";
      "PROJECT:";
      project_title;
      "";
      "PREVIOUS WORK:";
      previous_context;
      "";
      "CURRENT TASK:";
      task_input;
      "";
      "";
      "Continue the work carefully and clearly.";
      "" ].

(** What a completed task adds to [previous_context]. *)
Definition context_entry (order_index : Z) (result : string) : string :=
  PyStr.nl ++ "---" ++ PyStr.nl ++ "Task " ++ PyStr.string_of_Z order_index
  ++ " Output:" ++ PyStr.nl ++ result.

Definition cost_message (total_tokens : option Z) : string :=
  "Tokens used: " ++ PyStr.string_of_Z (default 0 total_tokens).

Definition db_add_log (l : Log) : M unit :=
  modify (upd_logs (fun ls => ls ++ [l])%list).

(** The [try] block of one iteration; its value is the new
    [previous_context].  [task] is the loaded ORM object: [id] is its primary
    key, [t] the columns the loop reads ([input], [order_index],
    [agent_type]), none of which the core ever writes. *)
Definition executor_try (env : Env) (project_title : string) (run_id : nat)
    (id : nat) (t : Task) (previous_context : string) : M string :=
  modify (upd_tasks (alter (set_t_status TRunning) id)) ;;
  guard_site env (MarkRunning id) ;;
  commit ;;
  r <- generate_completion env
         (executor_prompt project_title previous_context (sanitize (t_input t))) ;;
  modify (upd_tasks (alter (set_t_output (Some (fst r))) id)) ;;
  modify (upd_tasks (alter (set_t_status TDone) id)) ;;
  guard_site env (SaveOutput id) ;;
  commit ;;
  db_add_log (mkLog run_id "llm" LCost (cost_message (snd r))) ;;
  guard_site env (LogCost id) ;;
  commit ;;
  ret (previous_context ++ context_entry (t_order_index t) (fst r)).

(** The [except Exception as e] block. *)
Definition executor_except (run_id : nat) (id : nat) (t : Task)
    (previous_context : string) (e : exn) : M string :=
  rollback ;;
  modify (upd_tasks (alter (set_t_status TPending) id)) ;;
  commit ;;
  db_add_log (mkLog run_id (t_agent_type t) LError (exn_str e)) ;;
  commit ;;
  ret previous_context.

Definition executor_step (env : Env) (project_title : string) (run_id : nat)
    (task : nat * Task) (previous_context : string) : M string :=
  try_except
    (executor_try env project_title run_id (fst task) (snd task) previous_context)
    (executor_except run_id (fst task) (snd task) previous_context).

Fixpoint executor_loop (env : Env) (project_title : string) (run_id : nat)
    (tasks : list (nat * Task)) (previous_context : string) : M unit :=
  match tasks with
  | [] => ret tt
  | task :: tasks' =>
      previous_context' <- executor_step env project_title run_id task previous_context ;;
      executor_loop env project_title run_id tasks' previous_context'
  end.

Definition ExecutorAgent_run (env : Env) (project_title : string)
    (tasks : list (nat * Task)) (run_id : nat) : M unit :=
  executor_loop env project_title run_id tasks "".

(** ** [api/runs.py] *)

(** [db.query(Project).filter(Project.id == project_id,
                              Project.owner_id == current_user.id).first()] *)
Definition find_project (s : Store) (project_id user_id : nat) : option Project :=
  match projects s !! project_id with
  | Some p => if (p_owner_id p =? user_id)%nat then Some p else None
  | None => None
  end.

(** [db.query(Run).join(Project).filter(Run.id == run_id,
                                        Project.owner_id == current_user.id).first()],
    with the project the run belongs to. *)
Definition find_run (s : Store) (run_id user_id : nat) : option (Run * Project) :=
  match runs s !! run_id with
  | Some r =>
      match find_project s (r_project_id r) user_id with
      | Some p => Some (r, p)
      | None => None
      end
  | None => None
  end.

(** [db.query(Run).filter(Run.project_id == project.id,
                          Run.is_archived == False).update({"is_archived": True})] *)
Definition archive_run (project_id : nat) (r : Run) : Run :=
  if (r_project_id r =? project_id)%nat && negb (r_is_archived r)
  then set_r_is_archived true r else r.

Definition archive_prior_runs (env : Env) (project_id : nat) : M unit :=
  guard_site env ArchivePriorRuns ;;
  modify (upd_runs (fmap (archive_run project_id))).

(** [db.add(run)]: the new row gets an unused primary key. *)
Definition db_add_run (r : Run) : M nat :=
  fun w =>
    let id := fresh (dom (runs (working w))) in
    (Ok id,
     mkWorld (committed w) (upd_runs (insert id r) (working w)) (calls w) (prompts w)
       (history w)).

(** [run_to_dict(run)], reduced to the key and the row. *)
Definition run_to_dict (run_id : nat) : M (nat * option Run) :=
  r <- read (fun s => runs s !! run_id) ;;
  ret (run_id, r).

Definition create_and_plan_run (env : Env) (lib : Builtins) (project_id user_id : nat)
    : M (nat * option Run) :=
  project <- read (fun s => find_project s project_id user_id) ;;
  match project with
  | None => raise (HTTPException 404 "Project not found")
  | Some project =>
      if p_is_locked project
      then raise (HTTPException 409 "Project already has a running job")
      else
        modify (upd_projects (alter (set_p_is_locked true) project_id)) ;;
        commit ;;
        archive_prior_runs env project_id ;;
        commit ;;
        try_finally
          (run_id <- db_add_run (mkRun project_id RCreated None false false) ;;
           commit ;;
           PlannerAgent_plan env lib run_id (p_title project) (p_description project) ;;
           run_to_dict run_id)
          (modify (upd_projects (alter (set_p_is_locked false) project_id)) ;;
           commit)
  end.

(** [ORDER BY order_index]; rows with the same order index come in the order
    of [map_to_list] (SQL leaves their order open). *)
Definition by_order_index (a b : nat * Task) : Prop :=
  (t_order_index (snd a) <= t_order_index (snd b))%Z.

#[global] Instance by_order_index_dec : RelDecision by_order_index.
Proof. intros a b. unfold by_order_index. apply _. Defined.

(** [db.query(Task).filter(Task.run_id == run_id, Task.status == "pending")
      .order_by(Task.order_index).all()] *)
Definition is_pending_of (run_id : nat) (task : nat * Task) : Prop :=
  t_run_id (snd task) = run_id /\ t_status (snd task) = TPending.

#[global] Instance is_pending_of_dec run_id task : Decision (is_pending_of run_id task).
Proof. unfold is_pending_of. apply _. Defined.

Definition pending_tasks (s : Store) (run_id : nat) : list (nat * Task) :=
  merge_sort by_order_index (filter (is_pending_of run_id) (map_to_list (tasks s))).

(** [db.query(Task).filter(Task.run_id == run_id)
      .order_by(Task.order_index.asc()).all()] *)
Definition is_task_of (run_id : nat) (task : nat * Task) : Prop :=
  t_run_id (snd task) = run_id.

#[global] Instance is_task_of_dec run_id task : Decision (is_task_of run_id task).
Proof. unfold is_task_of. apply _. Defined.

Definition run_tasks (s : Store) (run_id : nat) : list (nat * Task) :=
  merge_sort by_order_index (filter (is_task_of run_id) (map_to_list (tasks s))).

Definition execute_run (env : Env) (run_id user_id : nat) : M (nat * option RunStatus) :=
  found <- read (fun s => find_run s run_id user_id) ;;
  match found with
  | None => raise (HTTPException 404 "Run not found")
  | Some (run, project) =>
      if r_is_locked run
      then raise (HTTPException 409 "Run already executing")
      else
        modify (upd_runs (alter (set_r_is_locked true) run_id)) ;;
        commit ;;
        try_finally
          (tasks <- read (fun s => pending_tasks s run_id) ;;
           match tasks with
           | [] => raise (HTTPException 400 "No pending tasks")
           | _ :: _ =>
               modify (upd_runs (alter (set_r_status RRunning) run_id)) ;;
               commit ;;
               ExecutorAgent_run env (p_title project) tasks run_id ;;
               modify (upd_runs (alter (set_r_status RCompleted) run_id)) ;;
               commit ;;
               status <- read (fun s => r_status <$> runs s !! run_id) ;;
               ret (run_id, status)
           end)
          (modify (upd_runs (alter (set_r_is_locked false) run_id)) ;;
           commit)
  end.

Definition task_dict (t : Task) : TaskDict :=
  mkTaskDict (Val (t_order_index t)) (Val (t_agent_type t)) (Val (t_input t))
    (match t_output t with Some o => Val o | None => PyNone end).

Definition summarize_run (run_id user_id : nat) : M (nat * RunStatus * string) :=
  found <- read (fun s => find_run s run_id user_id) ;;
  match found with
  | None => raise (HTTPException 404 "Run not found")
  | Some (run, project) =>
      tasks <- read (fun s => run_tasks s run_id) ;;
      match tasks with
      | [] => raise (HTTPException 400 "No tasks to summarize")
      | _ :: _ =>
          let task_dicts := map (fun it => task_dict (snd it)) tasks in
          let summary := ReporterAgent_run (p_title project) task_dicts in
          modify (upd_runs (alter (set_r_final_summary (Some summary)) run_id)) ;;
          modify (upd_runs (alter (set_r_status RSummarized) run_id)) ;;
          commit ;;
          ret (run_id, RSummarized, summary)
      end
  end.

(** ** Requests

    A request opens a session on the store, runs its handler and closes the
    session; what the handler did not commit is lost. *)

Inductive Request : Type :=
| CreateAndPlan (project_id user_id : nat)
| Execute (run_id user_id : nat)
| Summarize (run_id user_id : nat).

Definition open_session (s : Store) : World := mkWorld s s 0 [] [].

Definition outcome {A} (r : Result A) : option exn :=
  match r with
  | Ok _ => None
  | Raise e => Some e
  end.

(** The exception the request ends with, if any, and the store it leaves. *)
Definition serve (lib : Builtins) (env : Env) (req : Request) (s : Store)
    : option exn * Store :=
  match req with
  | CreateAndPlan project_id user_id =>
      let (r, w) := create_and_plan_run env lib project_id user_id (open_session s) in
      (outcome r, committed w)
  | Execute run_id user_id =>
      let (r, w) := execute_run env run_id user_id (open_session s) in
      (outcome r, committed w)
  | Summarize run_id user_id =>
      let (r, w) := summarize_run run_id user_id (open_session s) in
      (outcome r, committed w)
  end.

(** The stores the request commits, oldest first. *)
Definition commits (lib : Builtins) (env : Env) (req : Request) (s : Store) : list Store :=
  match req with
  | CreateAndPlan project_id user_id =>
      history (snd (create_and_plan_run env lib project_id user_id (open_session s)))
  | Execute run_id user_id =>
      history (snd (execute_run env run_id user_id (open_session s)))
  | Summarize run_id user_id =>
      history (snd (summarize_run run_id user_id (open_session s)))
  end.

(** A sequence of requests, each with the environment it meets. *)
Fixpoint serve_all (lib : Builtins) (reqs : list (Request * Env)) (s : Store) : Store :=
  match reqs with
  | [] => s
  | (req, env) :: reqs' => serve_all lib reqs' (snd (serve lib env req s))
  end.

(** Every store committed while the requests are served, oldest first. *)
Fixpoint timeline (lib : Builtins) (reqs : list (Request * Env)) (s : Store) : list Store :=
  match reqs with
  | [] => []
  | (req, env) :: reqs' =>
      (commits lib env req s ++ timeline lib reqs' (snd (serve lib env req s)))%list
  end.

(** ** Concrete built-ins and data for the examples

    [Fixture.loads] decodes the JSON texts without escapes and without
    fractions or exponents (it rejects the others), [Fixture.repr] prints the
    values [loads] produces and [Fixture.int_of_str] reads a plain decimal
    literal.  On these inputs they agree with [json.loads], [str] and [int]. *)

Module Fixture.

Definition is_ws (c : ascii) : bool :=
  let n := nat_of_ascii c in
  (n =? 32)%nat || (n =? 9)%nat || (n =? 10)%nat || (n =? 13)%nat.

Fixpoint skip_ws (s : string) : string :=
  match s with
  | String c s' => if is_ws c then skip_ws s' else s
  | EmptyString => EmptyString
  end.

Definition digit_of (c : ascii) : option Z :=
  let n := nat_of_ascii c in
  if ((48 <=? n)%nat && (n <=? 57)%nat) then Some (Z.of_nat (n - 48)) else None.

(** The digits at the head of [s], read after the value [acc]. *)
Fixpoint read_digits (acc : Z) (s : string) : Z * string :=
  match s with
  | String c s' =>
      match digit_of c with
      | Some d => read_digits (10 * acc + d) s'
      | None => (acc, s)
      end
  | EmptyString => (acc, s)
  end.

Definition starts_fraction (s : string) : bool :=
  match s with
  | String c _ => Ascii.eqb c "."%char || Ascii.eqb c "e"%char || Ascii.eqb c "E"%char
  | EmptyString => false
  end.

(** An integer literal: [0], or a non-zero digit followed by digits. *)
Definition read_nat (s : string) : option (Z * string) :=
  match s with
  | String c s' =>
      match digit_of c with
      | Some 0 => if starts_fraction s' then None else Some (0, s')
      | Some d =>
          let (n, rest) := read_digits d s' in
          if starts_fraction rest then None else Some (n, rest)
      | None => None
      end
  | EmptyString => None
  end.

(** The characters up to the closing quote. *)
Fixpoint read_string (s : string) : option (string * string) :=
  match s with
  | EmptyString => None
  | String c s' =>
      if Ascii.eqb c "034"%char then Some (EmptyString, s')
      else if Ascii.eqb c "\"%char then None
      else if (nat_of_ascii c <? 32)%nat then None
      else match read_string s' with
           | Some (body, rest) => Some (String c body, rest)
           | None => None
           end
  end.

Definition strip_prefix (p s : string) : option string :=
  if String.prefix p s
  then Some (substring (String.length p) (String.length s - String.length p) s)
  else None.

Fixpoint parse_value (fuel : nat) (s : string) {struct fuel} : option (json * string) :=
  match fuel with
  | O => None
  | S fuel' =>
      match skip_ws s with
      | EmptyString => None
      | String c rest =>
          if Ascii.eqb c "{"%char then
            match skip_ws rest with
            | String c' rest' =>
                if Ascii.eqb c' "}"%char then Some (JDict [], rest')
                else match parse_members fuel' rest with
                     | Some (items, r) => Some (JDict items, r)
                     | None => None
                     end
            | EmptyString => None
            end
          else if Ascii.eqb c "["%char then
            match skip_ws rest with
            | String c' rest' =>
                if Ascii.eqb c' "]"%char then Some (JList [], rest')
                else match parse_elements fuel' rest with
                     | Some (xs, r) => Some (JList xs, r)
                     | None => None
                     end
            | EmptyString => None
            end
          else if Ascii.eqb c "034"%char then
            match read_string rest with
            | Some (body, r) => Some (JStr body, r)
            | None => None
            end
          else if Ascii.eqb c "-"%char then
            match read_nat rest with
            | Some (n, r) => Some (JInt (- n), r)
            | None => None
            end
          else
            match strip_prefix "null" (String c rest),
                  strip_prefix "true" (String c rest),
                  strip_prefix "false" (String c rest) with
            | Some r, _, _ => Some (JNull, r)
            | _, Some r, _ => Some (JBool true, r)
            | _, _, Some r => Some (JBool false, r)
            | _, _, _ =>
                match read_nat (String c rest) with
                | Some (n, r) => Some (JInt n, r)
                | None => None
                end
            end
      end
  end
with parse_elements (fuel : nat) (s : string) {struct fuel} : option (list json * string) :=
  match fuel with
  | O => None
  | S fuel' =>
      match parse_value fuel' s with
      | Some (v, r) =>
          match skip_ws r with
          | String c r' =>
              if Ascii.eqb c ","%char then
                match parse_elements fuel' r' with
                | Some (vs, r'') => Some (v :: vs, r'')
                | None => None
                end
              else if Ascii.eqb c "]"%char then Some ([v], r')
              else None
          | EmptyString => None
          end
      | None => None
      end
  end
with parse_members (fuel : nat) (s : string) {struct fuel}
    : option (list (string * json) * string) :=
  match fuel with
  | O => None
  | S fuel' =>
      match skip_ws s with
      | String q s1 =>
          if Ascii.eqb q "034"%char then
            match read_string s1 with
            | Some (key, s2) =>
                match skip_ws s2 with
                | String colon s3 =>
                    if Ascii.eqb colon ":"%char then
                      match parse_value fuel' s3 with
                      | Some (v, r) =>
                          match skip_ws r with
                          | String c r' =>
                              if Ascii.eqb c ","%char then
                                match parse_members fuel' r' with
                                | Some (items, r'') => Some ((key, v) :: items, r'')
                                | None => None
                                end
                              else if Ascii.eqb c "}"%char then Some ([(key, v)], r')
                              else None
                          | EmptyString => None
                          end
                      | None => None
                      end
                    else None
                | EmptyString => None
                end
            | None => None
            end
          else None
      | EmptyString => None
      end
  end.

Definition loads (s : string) : option json :=
  match parse_value (2 * String.length s + 2) s with
  | Some (v, rest) =>
      match skip_ws rest with
      | EmptyString => Some v
      | String _ _ => None
      end
  | None => None
  end.

Definition quoted (s : string) : string := "'" ++ s ++ "'".

Fixpoint repr (v : json) : string :=
  match v with
  | JNull => "None"
  | JBool true => "True"
  | JBool false => "False"
  | JInt n => PyStr.string_of_Z n
  | JFloat _ => ""
  | JStr s => quoted s
  | JList xs => "[" ++ PyStr.join ", " (map repr xs) ++ "]"
  | JDict items =>
      "{" ++ PyStr.join ", "
               (map (fun kv : string * json =>
                     let (k, x) := kv in quoted k ++ ": " ++ repr x) items)
      ++ "}"
  end.

Definition int_of_str (s : string) : option Z :=
  match PyStr.strip s with
  | EmptyString => None
  | String c rest =>
      let digits := if Ascii.eqb c "-"%char || Ascii.eqb c "+"%char
                    then rest else String c rest in
      match digits with
      | EmptyString => None
      | String _ _ =>
          match read_digits 0 digits with
          | (n, EmptyString) => Some (if Ascii.eqb c "-"%char then - n else n)
          | (_, String _ _) => None
          end
      end
  end.

Definition lib : Builtins := mkBuiltins loads repr int_of_str.

(** A JSON text written with apostrophes for the double quotes. *)
Fixpoint json_text (s : string) : string :=
  match s with
  | EmptyString => EmptyString
  | String c s' =>
      String (if Ascii.eqb c "'"%char then "034"%char else c) (json_text s')
  end.

End Fixture.

(** A project of user 7, two answers of the completion service, and
    environments built from a list of answers. *)
Module Demo.

Definition store0 : Store :=
  mkStore {[ 1%nat := mkProject "Site" (Some "Build a site") 7 false ]} ∅ ∅ [].

Definition plan_text : string :=
  Fixture.json_text
    "{'tasks': [{'order_index': 1, 'input': 'Design schema'}, {'order_index': 2, 'input': 'Write API'}]}".

Definition malformed : string := "Sure! Here is the plan you asked for".

Definition unavailable : exn := PyError RuntimeError "OpenRouter Error: unavailable".

(** The service gives the listed answers in turn and is unavailable after. *)
Definition script (answers : list Completion) : nat -> Completion :=
  fun k => nth k answers (Failure unavailable).

Definition no_fault : Site -> option exn := fun _ => None.

Definition env_of (answers : list Completion) : Env := mkEnv (script answers) no_fault.

Definition says (content : string) : Completion := Reply content (Some 120).

Definition task0 : Task := mkTask 0 "executor" TPending "Design schema" None 1.
Definition task1 : Task := mkTask 0 "executor" TPending "Write API" None 2.

(** [store0] after a run of project 1 was created and planned. *)
Definition store1 : Store :=
  mkStore (projects store0)
    {[ 0%nat := mkRun 1 RPlanned None false false ]}
    (<[ 1%nat := task1 ]> {[ 0%nat := task0 ]}) [].

(** [store1] after an Execute request in which the first task completed and
    the completion call of the second failed. *)
Definition store2 : Store :=
  snd (serve Fixture.lib (env_of [says "schema.sql"; Failure unavailable])
         (Execute 0 7) store1).

Definition task0_done : Task :=
  mkTask 0 "executor" TDone "Design schema" (Some "schema.sql") 1.

(** [store0] with a run of project 1 just created. *)
Definition store_created : Store :=
  mkStore (projects store0) {[ 0%nat := mkRun 1 RCreated None false false ]} ∅ [].

Definition plan_elements : list json :=
  [ JDict [("order_index", JInt 1); ("input", JStr "Design schema")];
    JDict [("order_index", JInt 2); ("input", JStr "Write API")] ].

(** A plan whose only element has [null] for order index, and a plan whose
    only element is a number. *)
Definition plan_null_index : string :=
  Fixture.json_text "{'tasks': [{'order_index': null, 'input': 'Design schema'}]}".

Definition plan_number : string := Fixture.json_text "{'tasks': [7]}".

(** The store refuses the statement that archives the prior runs. *)
Definition database_locked : exn := PyError OperationalError "database is locked".

Definition env_archive_fails : Env :=
  mkEnv (script [says plan_text])
    (fun site => match site with
                 | ArchivePriorRuns => Some database_locked
                 | _ => None
                 end).

End Demo.

(** ** One iteration of the Executor, read off the environment

    How the iteration for the task with key [id] ends when [k] completion
    calls were made before it: the reply it stored, or the exception caught,
    with the prompt sent (if the call was reached) and the reply committed
    (if the failure came after that commit). *)

Inductive StepResult : Type :=
| StepDone (content : string) (total_tokens : option Z)
| StepFailed (e : exn) (called : bool) (saved : option string).

Definition step_result (env : Env) (id k : nat) : StepResult :=
  match store_fault env (MarkRunning id) with
  | Some e => StepFailed e false None
  | None =>
      match completion env k with
      | Failure e => StepFailed e true None
      | Reply content usage =>
          match store_fault env (SaveOutput id) with
          | Some e => StepFailed e true None
          | None =>
              match store_fault env (LogCost id) with
              | Some e => StepFailed e true (Some content)
              | None => StepDone content usage
              end
          end
      end
  end.

(** The row of the task after the iteration. *)
Definition row_after (res : StepResult) (row : Task) : Task :=
  match res with
  | StepDone content _ => set_t_status TDone (set_t_output (Some content) row)
  | StepFailed _ _ (Some content) => set_t_status TPending (set_t_output (Some content) row)
  | StepFailed _ _ None => set_t_status TPending row
  end.

(** The [Log] row the iteration leaves. *)
Definition log_after (run_id : nat) (t : Task) (res : StepResult) : Log :=
  match res with
  | StepDone _ usage => mkLog run_id "llm" LCost (cost_message usage)
  | StepFailed e _ _ => mkLog run_id (t_agent_type t) LError (exn_str e)
  end.

(** [previous_context] after the iteration. *)
Definition context_after (previous_context : string) (t : Task) (res : StepResult) : string :=
  match res with
  | StepDone content _ => previous_context ++ context_entry (t_order_index t) content
  | StepFailed _ _ _ => previous_context
  end.

Definition was_called (res : StepResult) : bool :=
  match res with
  | StepDone _ _ => true
  | StepFailed _ called _ => called
  end.

(** The store after the iteration. *)
Definition store_after (run_id id : nat) (t : Task) (res : StepResult) (s : Store) : Store :=
  upd_logs (fun ls => ls ++ [log_after run_id t res])%list
    (upd_tasks (alter (row_after res) id) s).

(** The stores the iteration commits: the row marked ["running"], then
    ["done"] with its output, then the [Log] row; or, from the point of the
    failure on, the row reset to ["pending"], then the ["error"] [Log] row. *)
Definition commits_after (run_id id : nat) (t : Task) (res : StepResult) (s : Store)
    : list Store :=
  let running := upd_tasks (alter (set_t_status TRunning) id) s in
  let reset := upd_tasks (alter (row_after res) id) s in
  let final := store_after run_id id t res s in
  match res with
  | StepDone content _ => [running; reset; final]
  | StepFailed _ false _ => [reset; final]
  | StepFailed _ true None => [running; reset; final]
  | StepFailed _ true (Some content) =>
      [running;
       upd_tasks (alter (row_after (StepDone content None)) id) s;
       reset; final]
  end.

(** The session after the iteration. *)
Definition world_after (project_title : string) (run_id id : nat) (t : Task)
    (previous_context : string) (res : StepResult) (w : World) : World :=
  let s := store_after run_id id t res (working w) in
  let h := (history w ++ commits_after run_id id t res (working w))%list in
  if was_called res
  then mkWorld s s (S (calls w))
         (prompts w ++ [executor_prompt project_title previous_context (sanitize (t_input t))])
         h
  else mkWorld s s (calls w) (prompts w) h.

(** The session after the loop over [tasks], started with [previous_context]. *)
Fixpoint loop_world (env : Env) (project_title : string) (run_id : nat)
    (tasks : list (nat * Task)) (previous_context : string) (w : World) : World :=
  match tasks with
  | [] => w
  | (id, t) :: tasks' =>
      let res := step_result env id (calls w) in
      loop_world env project_title run_id tasks'
        (context_after previous_context t res)
        (world_after project_title run_id id t previous_context res w)
  end.

(** A task is settled when it is not left in flight: its row, if any, is
    ["pending"], or ["done"] with an output. *)
Definition settled (s : Store) (id : nat) : Prop :=
  forall row, tasks s !! id = Some row ->
    t_status row = TPending \/ (t_status row = TDone /\ is_Some (t_output row)).

(** The failures of steps 2 to 4 of the specification: the completion call of
    the task raises [e], or it answers and the commit of the output raises [e];
    [k] is the number of completion calls made before the iteration. *)
Inductive task_fails (env : Env) (id k : nat) : exn -> Prop :=
| completion_fails e :
    store_fault env (MarkRunning id) = None ->
    completion env k = Failure e ->
    task_fails env id k e
| persistence_fails content usage e :
    store_fault env (MarkRunning id) = None ->
    completion env k = Reply content usage ->
    store_fault env (SaveOutput id) = Some e ->
    task_fails env id k e.

(** ** The rolling context, as the specification words it

    What a task contributes to the context of the tasks after it, read off
    the store [s]: if its row is ["done"], a line break, the separator line
    [---], the line [Task i Output:] with its order index, and its output;
    nothing otherwise. *)
Definition done_entry (s : Store) (task : nat * Task) : string :=
  match tasks s !! fst task with
  | Some row =>
      match t_status row, t_output row with
      | TDone, Some output =>
          let nl := String "010"%char EmptyString in
          (nl ++ "---" ++ nl
           ++ "Task " ++ PyStr.string_of_Z (t_order_index row) ++ " Output:" ++ nl
           ++ output)%string
      | _, _ => EmptyString
      end
  | None => EmptyString
  end.

(** The contributions of the tasks of [earlier], concatenated in list order. *)
Definition rolling_context (s : Store) (earlier : list (nat * Task)) : string :=
  fold_right (fun task rest => done_entry s task ++ rest) EmptyString earlier.

(** The text of a prompt: the project title under [PROJECT:], the rolling
    context under [PREVIOUS WORK:], the input of the task under
    [CURRENT TASK:]. *)
Definition prompt_text (project_title previous_work current_task : string) : string :=
  let nl := String "010"%char EmptyString in
  (nl ++ "You are an expert AI agent working on a project." ++ nl
   ++ nl
   ++ "PROJECT:" ++ nl
   ++ project_title ++ nl
   ++ nl
   ++ "PREVIOUS WORK:" ++ nl
   ++ previous_work ++ nl
   ++ nl
   ++ "CURRENT TASK:" ++ nl
   ++ current_task ++ nl
   ++ nl
   ++ nl
   ++ "Continue the work carefully and clearly." ++ nl)%string.

(** The prompts of the tasks of [later], in list order, each with the rolling
    context of the tasks before it and the sanitized input of the task; a
    task whose first commit fails never reaches the completion service. *)
Fixpoint expected_prompts (env : Env) (project_title : string) (s : Store)
    (earlier later : list (nat * Task)) : list string :=
  match later with
  | [] => []
  | task :: later' =>
      let rest :=
        expected_prompts env project_title s (earlier ++ [task])%list later' in
      match store_fault env (MarkRunning (fst task)) with
      | Some _ => rest
      | None =>
          prompt_text project_title (rolling_context s earlier)
            (sanitize (t_input (snd task))) :: rest
      end
  end.

(** The level of the [Log] row a task leaves, read off the store. *)
Definition expected_level (s : Store) (task : nat * Task) : LogLevel :=
  match tasks s !! fst task with
  | Some row => match t_status row with TDone => LCost | _ => LError end
  | None => LError
  end.

(** ** The tasks of a plan, as the specification words them *)

(** The values under ["input"] and ["order_index"] of an element that is an
    object and carries both keys. *)
Definition element_fields (t : json) : option (json * json) :=
  match t with
  | JDict items =>
      match dict_get "order_index" items, dict_get "input" items with
      | Some v_index, Some v_input => Some (v_input, v_index)
      | _, _ => None
      end
  | _ => None
  end.

(** The row planned for an element: status ["pending"], agent type
    ["executor"], the input cut at 4000 characters, the order index as an
    integer.  No row for an element without both keys. *)
Definition planned_task (lib : Builtins) (run_id : nat) (t : json) : option Task :=
  match element_fields t with
  | Some (v_input, v_index) =>
      match py_int lib v_index with
      | Ok n =>
          Some (mkTask run_id "executor" TPending
                  (PyStr.take 4000 (py_str lib v_input)) None n)
      | Raise _ => None
      end
  | None => None
  end.

Definition planned_tasks (lib : Builtins) (run_id : nat) (ts : list json) : list Task :=
  omap (planned_task lib run_id) ts.

(** An element the loop of the Planner accepts: an object whose
    ["order_index"], when both keys are there, is a value [int] converts. *)
Definition accepted (lib : Builtins) (t : json) : Prop :=
  exists items,
    t = JDict items
    /\ forall v_index,
         dict_get "order_index" items = Some v_index ->
         is_Some (dict_get "input" items) ->
         exists n, py_int lib v_index = Ok n.

(** [db.add] of the rows, one after the other: the keys they get and the
    table they leave. *)
Fixpoint add_rows (rows : list Task) (m : gmap nat Task) : list nat * gmap nat Task :=
  match rows with
  | [] => ([], m)
  | row :: rows' =>
      let id := fresh (dom m) in
      let (ids, m') := add_rows rows' (<[id := row]> m) in
      (id :: ids, m')
  end.

(** ** The invariants of the [runs] table *)

(** At most one run that is not archived per project. *)
Definition one_active_run (m : gmap nat Run) : Prop :=
  forall i j ri rj,
    m !! i = Some ri -> m !! j = Some rj ->
    r_project_id ri = r_project_id rj ->
    r_is_archived ri = false -> r_is_archived rj = false ->
    i = j.

Definition at_most_one_active (s : Store) : Prop := one_active_run (runs s).

(** Every run of the project is archived. *)
Definition all_archived (project_id : nat) (s : Store) : Prop :=
  forall j r, runs s !! j = Some r -> r_project_id r = project_id -> r_is_archived r = true.

(** Among the runs of the project, the one with key [run_id] is there and is
    the only one that is not archived. *)
Definition only_active (project_id run_id : nat) (s : Store) : Prop :=
  (exists r, runs s !! run_id = Some r /\ r_project_id r = project_id
             /\ r_is_archived r = false)
  /\ forall j r, runs s !! j = Some r -> r_project_id r = project_id ->
                 r_is_archived r = false -> j = run_id.

(** The rank of the status of a run in a [runs] table; a run that does not
    exist yet counts as ["created"]. *)
Definition rank_of (m : gmap nat Run) (run_id : nat) : nat :=
  match m !! run_id with
  | Some r => status_rank (r_status r)
  | None => 0
  end.

(** No run has an earlier status in [m'] than in [m]. *)
Definition forward (m m' : gmap nat Run) : Prop :=
  forall run_id, (rank_of m run_id <= rank_of m' run_id)%nat.

(** An Execute request is a first execution when the run it names is not yet
    ["completed"] or ["summarized"]. *)
Definition first_execution (s : Store) (req : Request) : Prop :=
  match req with
  | Execute run_id _ => (rank_of (runs s) run_id <= status_rank RRunning)%nat
  | _ => True
  end.

Fixpoint first_executions (lib : Builtins) (reqs : list (Request * Env)) (s : Store) : Prop :=
  match reqs with
  | [] => True
  | (req, env) :: reqs' =>
      first_execution s req /\ first_executions lib reqs' (snd (serve lib env req s))
  end.

(** The session after one more call of the completion service. *)
Definition after_call (prompt : string) (w : World) : World :=
  mkWorld (committed w) (working w) (S (calls w)) (prompts w ++ [prompt]) (history w).

(** The session after the rows of a plan were added, the run marked
    ["planned"] and the whole committed. *)
Definition planned_world (run_id : nat) (rows : list Task) (w : World) : World :=
  let s := upd_runs (alter (set_r_status RPlanned) run_id)
             (upd_tasks (fun m => snd (add_rows rows m)) (working w)) in
  mkWorld s s (calls w) (prompts w) (history w ++ [s]).

(** The answers number [first], ..., [first + count - 1] of the completion
    service are texts that [json.loads] rejects. *)
Definition malformed_answers (env : Env) (lib : Builtins) (first count : nat) : Prop :=
  forall k, (k < count)%nat ->
    exists content usage,
      completion env (first + k) = Reply content usage
      /\ json_loads lib content = None.

(** Two sessions that differ by the completion calls made. *)
Definition same_stores (w w' : World) : Prop :=
  working w' = working w /\ committed w' = committed w /\ history w' = history w.

Definition StructuralError : exn :=
  HTTPException 400 "Planner failed to produce valid JSON".

(** ** The range of the [Integer] columns

    [Task.order_index] is an [Integer] column: the store holds a signed
    integer of 64 bits there (SQLite, the default store) and refuses an
    [int] outside that range when the row is flushed.  The model keeps the
    order index as an unbounded integer; the statements about the rows the
    Planner adds ask for indexes the column holds. *)
Definition fits_integer_column (n : Z) : Prop := - 2 ^ 63 <= n < 2 ^ 63.

#[global] Instance fits_integer_column_dec n : Decision (fits_integer_column n).
Proof. unfold fits_integer_column. apply _. Defined.

(** ** The statements that no [except] covers

    The [except] block of [ExecutorAgent.run] issues statements of the store
    itself ([db.rollback()] and two [db.commit()]), and so does [execute_run]
    around the call of the Executor; an exception they raise is caught by
    nothing.  The definitions above take these statements to succeed.  The
    ones below give each of them a site at which it may fail, so that
    [executor_except] is [executor_except_with] when none fails. *)
Inductive ExecSite : Type :=
| Rollback (task_id : nat)
| ResetPending (task_id : nat)
| LogError (task_id : nat)
| LockRun
| StartRun
| CompleteRun
| UnlockRun.

Definition guard_exec (hf : ExecSite -> option exn) (site : ExecSite) : M unit :=
  match hf site with
  | Some e => raise e
  | None => ret tt
  end.

(** The [except Exception as e] block, executor.py lines 62 to 73. *)
Definition executor_except_with (hf : ExecSite -> option exn) (run_id : nat) (id : nat)
    (t : Task) (previous_context : string) (e : exn) : M string :=
  guard_exec hf (Rollback id) ;;
  rollback ;;
  modify (upd_tasks (alter (set_t_status TPending) id)) ;;
  guard_exec hf (ResetPending id) ;;
  commit ;;
  db_add_log (mkLog run_id (t_agent_type t) LError (exn_str e)) ;;
  guard_exec hf (LogError id) ;;
  commit ;;
  ret previous_context.

Definition executor_step_with (env : Env) (hf : ExecSite -> option exn)
    (project_title : string) (run_id : nat) (task : nat * Task)
    (previous_context : string) : M string :=
  try_except
    (executor_try env project_title run_id (fst task) (snd task) previous_context)
    (executor_except_with hf run_id (fst task) (snd task) previous_context).

Fixpoint executor_loop_with (env : Env) (hf : ExecSite -> option exn)
    (project_title : string) (run_id : nat) (tasks : list (nat * Task))
    (previous_context : string) : M unit :=
  match tasks with
  | [] => ret tt
  | task :: tasks' =>
      previous_context' <-
        executor_step_with env hf project_title run_id task previous_context ;;
      executor_loop_with env hf project_title run_id tasks' previous_context'
  end.

Definition ExecutorAgent_run_with (env : Env) (hf : ExecSite -> option exn)
    (project_title : string) (tasks : list (nat * Task)) (run_id : nat) : M unit :=
  executor_loop_with env hf project_title run_id tasks "".

(** [execute_run], runs.py lines 228 to 273, with the sites of its own
    commits. *)
Definition execute_run_with (env : Env) (hf : ExecSite -> option exn)
    (run_id user_id : nat) : M (nat * option RunStatus) :=
  found <- read (fun s => find_run s run_id user_id) ;;
  match found with
  | None => raise (HTTPException 404 "Run not found")
  | Some (run, project) =>
      if r_is_locked run
      then raise (HTTPException 409 "Run already executing")
      else
        modify (upd_runs (alter (set_r_is_locked true) run_id)) ;;
        guard_exec hf LockRun ;;
        commit ;;
        try_finally
          (tasks <- read (fun s => pending_tasks s run_id) ;;
           match tasks with
           | [] => raise (HTTPException 400 "No pending tasks")
           | _ :: _ =>
               modify (upd_runs (alter (set_r_status RRunning) run_id)) ;;
               guard_exec hf StartRun ;;
               commit ;;
               ExecutorAgent_run_with env hf (p_title project) tasks run_id ;;
               modify (upd_runs (alter (set_r_status RCompleted) run_id)) ;;
               guard_exec hf CompleteRun ;;
               commit ;;
               status <- read (fun s => r_status <$> runs s !! run_id) ;;
               ret (run_id, status)
           end)
          (modify (upd_runs (alter (set_r_is_locked false) run_id)) ;;
           guard_exec hf UnlockRun ;;
           commit)
  end.

(** The tasks of a run carry distinct order indexes: what the Planner is
    asked for, and what makes [ORDER BY order_index] fix the order of the
    rows. *)
Definition distinct_order_index (s : Store) (run_id : nat) : Prop :=
  forall i j ti tj,
    tasks s !! i = Some ti -> tasks s !! j = Some tj ->
    t_run_id ti = run_id -> t_run_id tj = run_id ->
    t_order_index ti = t_order_index tj -> i = j.

(** ** What a request names *)

Definition request_user (req : Request) : nat :=
  match req with
  | CreateAndPlan _ user_id => user_id
  | Execute _ user_id => user_id
  | Summarize _ user_id => user_id
  end.

(** The project a request is about: the one it names, or the one of the run
    it names. *)
Definition request_project (s : Store) (req : Request) : option Project :=
  match req with
  | CreateAndPlan project_id _ => projects s !! project_id
  | Execute run_id _ | Summarize run_id _ =>
      match runs s !! run_id with
      | Some r => projects s !! r_project_id r
      | None => None
      end
  end.

(** The flag a handler tests before it starts: [Project.is_locked] for
    create-and-plan, [Run.is_locked] for execute; summarize tests none. *)
Definition request_locked (s : Store) (req : Request) : bool :=
  match req with
  | CreateAndPlan project_id user_id =>
      match find_project s project_id user_id with
      | Some p => p_is_locked p
      | None => false
      end
  | Execute run_id user_id =>
      match find_run s run_id user_id with
      | Some (r, _) => r_is_locked r
      | None => false
      end
  | Summarize _ _ => false
  end.

(** The number of calls of the completion service a request makes. *)
Definition completion_calls (lib : Builtins) (env : Env) (req : Request) (s : Store) : nat :=
  match req with
  | CreateAndPlan project_id user_id =>
      calls (snd (create_and_plan_run env lib project_id user_id (open_session s)))
  | Execute run_id user_id =>
      calls (snd (execute_run env run_id user_id (open_session s)))
  | Summarize run_id user_id =>
      calls (snd (summarize_run run_id user_id (open_session s)))
  end.

(** A row as the Planner adds it for the run [run_id]. *)
Definition planner_row (run_id : nat) (row : Task) : Prop :=
  t_run_id row = run_id /\ t_agent_type row = "executor" /\ t_status row = TPending
  /\ t_output row = None /\ (String.length (t_input row) <= 4000)%nat.

(** The [tasks] table [m'] has the rows of [m], unchanged, and rows of the
    Planner for [run_id] besides. *)
Definition extends_with_plan (run_id : nat) (m m' : gmap nat Task) : Prop :=
  (forall id row, m !! id = Some row -> m' !! id = Some row)
  /\ (forall id row, m' !! id = Some row -> m !! id = Some row \/ planner_row run_id row).

(** ** What the requests keep

    The columns of a row the core never writes, and the order "the store
    [s'] keeps what [s] holds": the log of [s] is a prefix of the log of
    [s']; every task of [s] is in [s'] with the same run, agent type, input
    and order index; every run of [s] is in [s'] with the same project, and
    archived if it was; every project of [s] is in [s'] with the same title,
    description and owner. *)

Definition same_task (row row' : Task) : Prop :=
  t_run_id row' = t_run_id row /\ t_agent_type row' = t_agent_type row
  /\ t_input row' = t_input row /\ t_order_index row' = t_order_index row.

Definition same_run (r r' : Run) : Prop :=
  r_project_id r' = r_project_id r
  /\ (r_is_archived r = true -> r_is_archived r' = true).

Definition same_project (p p' : Project) : Prop :=
  p_title p' = p_title p /\ p_description p' = p_description p
  /\ p_owner_id p' = p_owner_id p.

Definition keeps (s s' : Store) : Prop :=
  (exists new, logs s' = (logs s ++ new)%list)
  /\ (forall id row, tasks s !! id = Some row ->
        exists row', tasks s' !! id = Some row' /\ same_task row row')
  /\ (forall id r, runs s !! id = Some r ->
        exists r', runs s' !! id = Some r' /\ same_run r r')
  /\ (forall id p, projects s !! id = Some p ->
        exists p', projects s' !! id = Some p' /\ same_project p p').

(** ** Occurrences of a phrase

    [re.search(pat, s, flags=re.I)] for a literal [pat] in lower case: does
    [pat] match at some position of [s]? *)
Fixpoint occurs_ci (pat s : string) : bool :=
  match PyStr.match_prefix_ci pat s with
  | Some _ => true
  | None =>
      match s with
      | EmptyString => false
      | String _ s' => occurs_ci pat s'
      end
  end.

(** The phrases [BLOCK_PATTERNS] matches, one list for all patterns. *)
Definition blocked_phrases : list string := List.concat BLOCK_PATTERNS.

(** Matching [pat] against [r] fails on a character of [r]: neither string
    ends before the two differ. *)
Fixpoint clashes (pat r : string) : bool :=
  match pat, r with
  | String a pat', String b r' =>
      if Ascii.eqb a (PyStr.lower b) then clashes pat' r' else true
  | _, _ => false
  end.

(** No match of [pat] can begin inside [repl] ... *)
Fixpoint clashes_inside (pat repl : string) : bool :=
  match repl with
  | EmptyString => true
  | String _ repl' => clashes pat repl && clashes_inside pat repl'
  end.

(** ... and none can run into the head of [repl]. *)
Fixpoint clashes_across (pat repl : string) : bool :=
  match pat with
  | EmptyString => true
  | String _ pat' => clashes pat repl && clashes_across pat' repl
  end.

Definition avoids (repl pat : string) : bool :=
  clashes_inside pat repl && clashes_across pat repl.

(** ** [core/llm_client.py]

    The client of the completion service itself.  The network is its
    environment: [httpx.post] is a function from the request to the response
    it gets, or to the exception it raises.  A Python exception is given by
    the name of its class and its message. *)

Module LlmClient.

Inductive Outcome (A : Type) : Type :=
| Returns (a : A)
| Raises (cls msg : string).
Arguments Returns {A} a.
Arguments Raises {A} cls msg.

Definition bind {A B} (m : Outcome A) (k : A -> Outcome B) : Outcome B :=
  match m with
  | Returns a => k a
  | Raises cls msg => Raises cls msg
  end.

(** The module constants read from the environment variables. *)
Record Settings : Type := mkSettings {
  OPENROUTER_API_KEY : option string;
  DEFAULT_MODEL : string
}.

(** The [payload] and the [Authorization] header of the request. *)
Record Payload : Type := mkPayload {
  pl_model : string;
  pl_system : string;
  pl_user : string;
  pl_temperature : Q;
  pl_max_tokens : Z;
  pl_bearer : string
}.

(** The response: [status_code], [text], and what [response.json()] gives,
    [None] when it raises. *)
Record Response : Type := mkResponse {
  status_code : nat;
  text : string;
  body : option json
}.

(** [bool(v)] *)
Definition truthy (v : json) : bool :=
  match v with
  | JNull => false
  | JBool b => b
  | JInt n => negb (n =? 0)%Z
  | JFloat (FFinite q) => negb (Qeq_bool q 0)
  | JFloat _ => true
  | JStr s => negb (PyStr.is_empty s)
  | JList xs => match xs with [] => false | _ :: _ => true end
  | JDict items => match items with [] => false | _ :: _ => true end
  end.

(** [v.get(key, default)] *)
Definition get (key : string) (default : json) (v : json) : Outcome json :=
  match v with
  | JDict items =>
      Returns (match dict_get key items with Some x => x | None => default end)
  | _ => Raises "AttributeError" "object has no attribute 'get'"
  end.

(** [v[key]] for a string [key] *)
Definition getitem (key : string) (v : json) : Outcome json :=
  match v with
  | JDict items =>
      match dict_get key items with
      | Some x => Returns x
      | None => Raises "KeyError" key
      end
  | JList _ => Raises "TypeError" "list indices must be integers or slices, not str"
  | JStr _ => Raises "TypeError" "string indices must be integers"
  | _ => Raises "TypeError" "object is not subscriptable"
  end.

(** [v[0]]; the keys of a decoded object are strings, never [0]. *)
Definition first (v : json) : Outcome json :=
  match v with
  | JList (x :: _) => Returns x
  | JList [] => Raises "IndexError" "list index out of range"
  | JStr (String c _) => Returns (JStr (String c EmptyString))
  | JStr EmptyString => Raises "IndexError" "string index out of range"
  | JDict _ => Raises "KeyError" "0"
  | _ => Raises "TypeError" "object is not subscriptable"
  end.

(** [v > n] for an [int] [n] *)
Definition gt (v : json) (n : Z) : Outcome bool :=
  match v with
  | JInt m => Returns (n <? m)%Z
  | JBool b => Returns (n <? (if b then 1 else 0))%Z
  | JFloat (FFinite q) => Returns (negb (Qle_bool q (inject_Z n)))
  | JFloat (FInf negative) => Returns (negb negative)
  | JFloat FNan => Returns false
  | _ => Raises "TypeError" "'>' not supported between instances"
  end.

(** [v.strip()] *)
Definition strip (v : json) : Outcome string :=
  match v with
  | JStr s => Returns (PyStr.strip s)
  | _ => Raises "AttributeError" "object has no attribute 'strip'"
  end.

Definition payload (cfg : Settings) (api_key prompt : string) (model : option string)
    (temperature : Q) : Payload :=
  mkPayload (or_default model (DEFAULT_MODEL cfg)) "You are a helpful AI agent." prompt
    temperature 2048 ("Bearer " ++ api_key).

Notation "x <~ c1 ;; c2" := (bind c1 (fun x => c2))
  (at level 100, c1 at next level, right associativity).

(** [generate_completion(prompt, model, temperature)]; it returns the pair
    [(content, usage)]. *)
Definition generate_completion (cfg : Settings) (post : Payload -> Outcome Response)
    (prompt : string) (model : option string) (temperature : Q)
    : Outcome (string * json) :=
  match OPENROUTER_API_KEY cfg with
  | None | Some EmptyString => Raises "RuntimeError" "OPENROUTER_API_KEY is not set"
  | Some api_key =>
      response <~ post (payload cfg api_key prompt model temperature) ;;
      if negb (status_code response =? 200)%nat
      then Raises "RuntimeError" ("OpenRouter Error: " ++ text response)
      else
        data <~ match body response with
                | Some data => Returns data
                | None => Raises "JSONDecodeError" "Expecting value"
                end ;;
        choices <~ get "choices" JNull data ;;
        if negb (truthy choices)
        then Raises "RuntimeError" "Empty response from OpenRouter"
        else
          usage <~ get "usage" (JDict []) data ;;
          input_tokens <~ get "prompt_tokens" (JInt 0) usage ;;
          output_tokens <~ get "completion_tokens" (JInt 0) usage ;;
          total_tokens <~ get "total_tokens" (JInt 0) usage ;;
          over <~ gt total_tokens 8000 ;;
          if over
          then Raises "RuntimeError" "Token limit exceeded for safety"
          else
            choices <~ getitem "choices" data ;;
            choice <~ first choices ;;
            message <~ getitem "message" choice ;;
            content <~ getitem "content" message ;;
            content <~ strip content ;;
            Returns (content, usage)
  end.

(** The value under [data["choices"][0]["message"]["content"]]. *)
Definition content_of (data : json) : Outcome json :=
  choices <~ getitem "choices" data ;;
  choice <~ first choices ;;
  message <~ getitem "message" choice ;;
  getitem "content" message.

End LlmClient.

(** ** [api/runs.py]: the handlers that read, and [delete_run] *)

(** [get_run] *)
Definition get_run (run_id user_id : nat) : M (nat * option Run) :=
  found <- read (fun s => find_run s run_id user_id) ;;
  match found with
  | None => raise (HTTPException 404 "Run not found")
  | Some _ => run_to_dict run_id
  end.

(** The rows [list_runs] returns, as a table:
    [db.query(Run).join(Project).filter(Project.owner_id == current_user.id,
                                        Run.is_archived == True)].
    The rows come ordered by [created_at], a column the model leaves out. *)
Definition is_listed_run (s : Store) (user_id : nat) (run : nat * Run) : Prop :=
  is_Some (find_project s (r_project_id (snd run)) user_id)
  /\ r_is_archived (snd run) = true.

#[global] Instance is_listed_run_dec s user_id run : Decision (is_listed_run s user_id run).
Proof. unfold is_listed_run. apply _. Defined.

Definition list_runs (user_id : nat) : M (gmap nat Run) :=
  read (fun s => filter (is_listed_run s user_id) (runs s)).

(** [db.query(Task).join(Run).join(Project)
      .filter(Task.run_id == run_id, Project.owner_id == current_user.id)
      .order_by(Task.order_index).all()] *)
Definition is_owned_task_of (s : Store) (run_id user_id : nat) (task : nat * Task) : Prop :=
  t_run_id (snd task) = run_id
  /\ is_Some (find_run s (t_run_id (snd task)) user_id).

#[global] Instance is_owned_task_of_dec s run_id user_id task :
  Decision (is_owned_task_of s run_id user_id task).
Proof. unfold is_owned_task_of. apply _. Defined.

(** [list_run_tasks]; [task_to_dict] keeps every column of the row. *)
Definition list_run_tasks (run_id user_id : nat) : M (list (nat * Task)) :=
  found <- read (fun s => find_run s run_id user_id) ;;
  match found with
  | None => raise (HTTPException 404 "Run not found")
  | Some _ =>
      read (fun s =>
              merge_sort by_order_index
                (filter (is_owned_task_of s run_id user_id) (map_to_list (tasks s))))
  end.

(** [db.query(Log).join(Run).join(Project)
      .filter(Log.run_id == run_id, Project.owner_id == current_user.id)
      .order_by(Log.created_at).all()]; the rows of [logs] are in the order
    of their insertion, which is the order of [created_at]. *)
Definition is_owned_log_of (s : Store) (run_id user_id : nat) (l : Log) : Prop :=
  l_run_id l = run_id /\ is_Some (find_run s (l_run_id l) user_id).

#[global] Instance is_owned_log_of_dec s run_id user_id l :
  Decision (is_owned_log_of s run_id user_id l).
Proof. unfold is_owned_log_of. apply _. Defined.

(** [list_run_logs]; [log_to_dict] keeps every column of the row. *)
Definition list_run_logs (run_id user_id : nat) : M (list Log) :=
  found <- read (fun s => find_run s run_id user_id) ;;
  match found with
  | None => raise (HTTPException 404 "Run not found")
  | Some _ => read (fun s => filter (is_owned_log_of s run_id user_id) (logs s))
  end.

(** [db.delete(run)]: the relationships [Run.tasks] and [Run.logs] are
    declared with [cascade="all, delete-orphan"], so the tasks and the logs
    of the run go with it. *)
Definition db_delete_run (run_id : nat) (s : Store) : Store :=
  mkStore (projects s) (delete run_id (runs s))
    (filter (fun task : nat * Task => t_run_id (snd task) <> run_id) (tasks s))
    (filter (fun l => l_run_id l <> run_id) (logs s)).

(** [delete_run] *)
Definition delete_run (run_id user_id : nat) : M unit :=
  found <- read (fun s => find_run s run_id user_id) ;;
  match found with
  | None => raise (HTTPException 404 "Run not found")
  | Some _ =>
      modify (db_delete_run run_id) ;;
      commit
  end.

(** A handler run as one request on the store [s]: what it returns or
    raises, and the store it leaves. *)
Definition run_request {A} (handler : M A) (s : Store) : Result A * Store :=
  let (r, w) := handler (open_session s) in (r, committed w).

(** Every task and every log belongs to a run of the store, and every run to
    a project of the store. *)
Definition referential (s : Store) : Prop :=
  map_Forall (fun _ row => is_Some (runs s !! t_run_id row)) (tasks s)
  /\ Forall (fun l => is_Some (runs s !! l_run_id l)) (logs s)
  /\ map_Forall (fun _ r => is_Some (projects s !! r_project_id r)) (runs s).

#[global] Instance referential_dec s : Decision (referential s).
Proof. unfold referential. apply _. Defined.

(** The rows of [s'] that [s] did not hold point to rows of [s']: a task or
    a run of [s'] either stands for a row of [s] with the same parent, or
    has its parent in [s']; the log of [s'] is the log of [s] followed by
    rows whose run is in [s']. *)
Definition new_rows_point (s s' : Store) : Prop :=
  (forall id row', tasks s' !! id = Some row' ->
     (exists row, tasks s !! id = Some row /\ t_run_id row' = t_run_id row)
     \/ is_Some (runs s' !! t_run_id row'))
  /\ (exists new, logs s' = (logs s ++ new)%list
                  /\ Forall (fun l => is_Some (runs s' !! l_run_id l)) new)
  /\ (forall id r', runs s' !! id = Some r' ->
        (exists r, runs s !! id = Some r /\ r_project_id r' = r_project_id r)
        \/ is_Some (projects s' !! r_project_id r')).

(** ** The exceptions of the Planner

    What [PlannerAgent.plan] raises of its own: the two [HTTPException]s of
    its code, [AttributeError] when the decoded text is not an object, and
    the errors of [in], of the subscripts and of [int] on an element of the
    list. *)
Definition plan_error (e : exn) : Prop :=
  e = StructuralError
  \/ e = HTTPException 400 "Planner returned invalid tasks"
  \/ exists cls msg,
       e = PyError cls msg
       /\ (cls = AttributeError \/ cls = TypeError \/ cls = ValueError
           \/ cls = OverflowError).

(** The service answers its first [n] calls and the store takes every
    statement. *)
Definition all_goes_well (env : Env) (n : nat) : Prop :=
  (forall site, store_fault env site = None)
  /\ forall k, (k < n)%nat -> exists content usage, completion env k = Reply content usage.

(** The text of the [k]-th answer of the service. *)
Definition answer (env : Env) (k : nat) : option string :=
  match completion env k with
  | Reply content _ => Some content
  | Failure _ => None
  end.

(** Does the character [c] occur in [s]? *)
Fixpoint has_char (c : ascii) (s : string) : bool :=
  match s with
  | EmptyString => false
  | String d s' => Ascii.eqb c d || has_char c s'
  end.

(** ** [api/projects.py]

    [delete_project], on the columns of the model. *)

(** The run [run_id] is a run of the project. *)
Definition run_of_project (s : Store) (project_id run_id : nat) : Prop :=
  match runs s !! run_id with
  | Some r => r_project_id r = project_id
  | None => False
  end.

#[global] Instance run_of_project_dec s project_id run_id :
  Decision (run_of_project s project_id run_id).
Proof. unfold run_of_project. destruct (runs s !! run_id); apply _. Defined.

(** [db.delete(project)]: [Project.runs] is declared with
    [cascade="all, delete-orphan"], as [Run.tasks] and [Run.logs] are, so
    the runs of the project go with it, and their tasks and logs with them. *)
Definition db_delete_project (project_id : nat) (s : Store) : Store :=
  mkStore (delete project_id (projects s))
    (filter (fun run : nat * Run => r_project_id (snd run) <> project_id) (runs s))
    (filter (fun task : nat * Task => ~ run_of_project s project_id (t_run_id (snd task)))
       (tasks s))
    (filter (fun l => ~ run_of_project s project_id (l_run_id l)) (logs s)).

Definition delete_project (project_id user_id : nat) : M unit :=
  project <- read (fun s => find_project s project_id user_id) ;;
  match project with
  | None => raise (HTTPException 404 "Project not found")
  | Some _ =>
      modify (db_delete_project project_id) ;;
      commit
  end.

(** * Theorems *)

(** ** Reporter *)

Lemma reporter_step_app (lines : list string) (t : TaskDict) :
  reporter_step lines t = (lines ++ step_block t)%list.
Proof.
  unfold step_block, reporter_step.
  destruct (PyStr.is_empty (input_text t)), (PyStr.is_empty (output_text t));
    cbn [app]; rewrite <- ?app_assoc; reflexivity.
Qed.

Lemma reporter_fold (tasks : list TaskDict) (lines : list string) :
  fold_left reporter_step tasks lines = (lines ++ concat (map step_block tasks))%list.
Proof.
  revert lines. induction tasks as [|t tasks IH]; intros lines; cbn [fold_left map concat].
  - now rewrite app_nil_r.
  - rewrite IH, reporter_step_app, <- app_assoc. reflexivity.
Qed.

Lemma is_empty_true (s : string) : PyStr.is_empty s = true <-> s = EmptyString.
Proof. destruct s; cbn; split; congruence. Qed.

(** C9.  The Reporter is a function of its two arguments alone.  On the empty
    list it returns the line [Summary for project: ] with the title, a blank
    line, the line announcing the steps, a blank line and the closing
    statement, and nothing else; on any list its lines are that header, one
    block per task in input order, and that closing.  The block of a task is
    a blank line, the line [Step i (agent):], the line [- Instruction: ]
    with the stripped input unless that is empty, and the line [- Result: ]
    with the stripped output, or, when the output is empty (missing, [None],
    or blank), the line [- Result: (no output recorded)]. *)
Theorem reporter_run_spec (project_title : string) (tasks : list TaskDict) :
  let nl := String "010"%char EmptyString in
  let header :=
    [("Summary for project: " ++ project_title)%string; EmptyString;
     "This run executed the following steps:"%string] in
  let closing :=
    ("Overall, the project has been broken down into clear steps and "
     ++ "each step has been processed. This summary can be used as a high-level "
     ++ "report of what the orchestrator completed.")%string in
  let text (f : field string) := match f with Val s => s | _ => EmptyString end in
  ReporterAgent_run project_title [] =
    ("Summary for project: " ++ project_title ++ nl ++ nl
     ++ "This run executed the following steps:" ++ nl ++ nl ++ closing)%string
  /\ ReporterAgent_run project_title tasks =
       String.concat nl
         (header ++ concat (map step_block tasks) ++ [EmptyString; closing])%list
  /\ (forall t, In t tasks ->
        let idx :=
          match td_order_index t with
          | Missing => "?"%string
          | PyNone => "None"%string
          | Val z => PyStr.string_of_Z z
          end in
        let agent :=
          match td_agent_type t with
          | Val (String c s) => String c s
          | _ => "executor"%string
          end in
        let input := PyStr.strip (text (td_input t)) in
        let output := PyStr.strip (text (td_output t)) in
        step_block t =
          ([EmptyString; ("Step " ++ idx ++ " (" ++ agent ++ "):")%string]
           ++ match input with
              | EmptyString => []
              | String _ _ => [("- Instruction: " ++ input)%string]
              end
           ++ [match output with
               | EmptyString => "- Result: (no output recorded)"%string
               | String _ _ => ("- Result: " ++ output)%string
               end])%list).
Proof.
  cbn zeta. split; [reflexivity|]. split.
  - unfold ReporterAgent_run, reporter_lines. f_equal.
    rewrite reporter_fold. cbn [app]. rewrite <- !app_assoc. reflexivity.
  - intros t _. unfold step_block, reporter_step.
    assert (Hin : input_text t
                  = PyStr.strip match td_input t with Val s => s | _ => EmptyString end).
    { unfold input_text, get_or. destruct (td_input t) as [| |[|c s]]; reflexivity. }
    assert (Hout : output_text t
                   = PyStr.strip match td_output t with Val s => s | _ => EmptyString end).
    { unfold output_text, get_or. destruct (td_output t) as [| |[|c s]]; reflexivity. }
    assert (Hstep : step_line t
                    = ("Step "
                       ++ match td_order_index t with
                          | Missing => "?"
                          | PyNone => "None"
                          | Val z => PyStr.string_of_Z z
                          end
                       ++ " ("
                       ++ match td_agent_type t with
                          | Val (String c s) => String c s
                          | _ => "executor"
                          end ++ "):")%string).
    { unfold step_line, idx_text, get_or.
      destruct (td_order_index t), (td_agent_type t) as [| |[|c s]]; reflexivity. }
    unfold instruction_line, result_line, no_output_line. rewrite Hstep, Hin, Hout.
    destruct (PyStr.strip match td_input t with Val s => s | _ => EmptyString end),
      (PyStr.strip match td_output t with Val s => s | _ => EmptyString end);
      reflexivity.
Qed.

Lemma reporter_run_spec_witness :
  let nl := String "010"%char EmptyString in
  ReporterAgent_run "Site"
    [mkTaskDict (Val 1) (Val "executor") (Val "Design schema") PyNone]
  = ("Summary for project: Site" ++ nl ++ nl
     ++ "This run executed the following steps:" ++ nl ++ nl
     ++ "Step 1 (executor):" ++ nl
     ++ "- Instruction: Design schema" ++ nl
     ++ "- Result: (no output recorded)" ++ nl ++ nl
     ++ "Overall, the project has been broken down into clear steps and "
     ++ "each step has been processed. This summary can be used as a high-level "
     ++ "report of what the orchestrator completed.")%string.
Proof.
  destruct (reporter_run_spec "Site"
              [mkTaskDict (Val 1) (Val "executor") (Val "Design schema") PyNone])
    as (_ & Hrun & Hblock).
  cbn zeta in *. rewrite Hrun. cbn [map concat].
  rewrite (Hblock _ (or_introl eq_refl)). vm_compute. reflexivity.
Defined.

(** ** The Executor: one iteration *)

Lemma alter_alter {A} (f g : A -> A) (m : gmap nat A) (i : nat) :
  alter f i (alter g i m) = alter (fun x => f (g x)) i m.
Proof.
  apply map_eq. intros j. destruct (decide (i = j)) as [->|Hne].
  - rewrite !lookup_alter_eq. now destruct (m !! j).
  - now rewrite !lookup_alter_ne.
Qed.

(** Started on a session without uncommitted changes, the iteration returns
    normally and leaves the session [world_after] describes. *)
Lemma executor_step_eq env project_title run_id id t previous_context w :
  committed w = working w ->
  executor_step env project_title run_id (id, t) previous_context w =
    (Ok (context_after previous_context t (step_result env id (calls w))),
     world_after project_title run_id id t previous_context
       (step_result env id (calls w)) w).
Proof.
  intros Hclean. destruct w as [cm wk k ps hs]. cbn in Hclean. subst cm.
  unfold executor_step, executor_try, executor_except, try_except, bind, modify,
    guard_site, generate_completion, commit, rollback, db_add_log, ret, raise,
    step_result, world_after, store_after, commits_after.
  cbn [fst snd working committed calls prompts history].
  destruct (store_fault env (MarkRunning id)) as [e|]; cbn.
  { rewrite <- ?app_assoc. reflexivity. }
  destruct (completion env k) as [content usage|e]; cbn.
  2:{ unfold upd_logs, upd_tasks; cbn. rewrite ?alter_alter, <- ?app_assoc. reflexivity. }
  destruct (store_fault env (SaveOutput id)) as [e|]; cbn.
  { unfold upd_logs, upd_tasks; cbn. rewrite ?alter_alter, <- ?app_assoc. reflexivity. }
  destruct (store_fault env (LogCost id)) as [e|]; cbn;
    unfold upd_logs, upd_tasks; cbn; rewrite ?alter_alter, <- ?app_assoc; reflexivity.
Qed.

Lemma world_after_clean project_title run_id id t ctx res w :
  committed (world_after project_title run_id id t ctx res w) =
  working (world_after project_title run_id id t ctx res w).
Proof. unfold world_after. now destruct (was_called res). Qed.

Lemma working_world_after project_title run_id id t ctx res w :
  working (world_after project_title run_id id t ctx res w) =
  store_after run_id id t res (working w).
Proof. unfold world_after. now destruct (was_called res). Qed.

Lemma tasks_store_after run_id id t res s :
  tasks (store_after run_id id t res s) = alter (row_after res) id (tasks s).
Proof. reflexivity. Qed.

Lemma runs_store_after run_id id t res s : runs (store_after run_id id t res s) = runs s.
Proof. reflexivity. Qed.

Lemma projects_store_after run_id id t res s :
  projects (store_after run_id id t res s) = projects s.
Proof. reflexivity. Qed.

Lemma row_after_settled res row :
  t_status (row_after res row) = TPending
  \/ (t_status (row_after res row) = TDone /\ is_Some (t_output (row_after res row))).
Proof.
  destruct res as [content usage|e called [content|]]; cbn; eauto.
Qed.

Lemma store_after_settled run_id id t res s j :
  settled s j \/ j = id -> settled (store_after run_id id t res s) j.
Proof.
  intros Hj row. rewrite tasks_store_after.
  destruct (decide (id = j)) as [->|Hne].
  - rewrite lookup_alter_eq. destruct (tasks s !! j); cbn; [|discriminate].
    intros [= <-]. apply row_after_settled.
  - rewrite lookup_alter_ne by done. destruct Hj as [Hj| ->]; [apply Hj | done].
Qed.

(** The loop in closed form. *)
Lemma executor_loop_eq env project_title run_id tasks ctx w :
  committed w = working w ->
  executor_loop env project_title run_id tasks ctx w =
    (Ok tt, loop_world env project_title run_id tasks ctx w).
Proof.
  revert ctx w. induction tasks as [|[id t] tasks IH]; intros ctx w Hclean.
  - reflexivity.
  - cbn [executor_loop loop_world]. unfold bind.
    rewrite executor_step_eq by exact Hclean.
    apply IH, world_after_clean.
Qed.

Lemma loop_world_clean env project_title run_id tasks ctx w :
  committed w = working w ->
  committed (loop_world env project_title run_id tasks ctx w) =
  working (loop_world env project_title run_id tasks ctx w).
Proof.
  revert ctx w. induction tasks as [|[id t] tasks IH]; intros ctx w Hclean; cbn.
  - exact Hclean.
  - apply IH, world_after_clean.
Qed.

Lemma loop_world_settled env project_title run_id tasks ctx w j :
  settled (working w) j \/ j ∈ tasks.*1 ->
  settled (working (loop_world env project_title run_id tasks ctx w)) j.
Proof.
  revert ctx w. induction tasks as [|[id t] tasks IH]; intros ctx w Hj; cbn.
  - destruct Hj as [Hj|Hj]; [exact Hj | inversion Hj].
  - apply IH. rewrite working_world_after.
    destruct Hj as [Hj|Hj].
    + left. apply store_after_settled. now left.
    + cbn in Hj. apply elem_of_cons in Hj as [->|Hj].
      * left. apply store_after_settled. now right.
      * now right.
Qed.

(** The first iteration needs no assumption on the session: whatever was
    pending in it is committed or rolled back by the iteration itself. *)
Lemma executor_step_total env project_title run_id id t ctx w :
  exists ctx' w',
    executor_step env project_title run_id (id, t) ctx w = (Ok ctx', w')
    /\ committed w' = working w'
    /\ settled (working w') id.
Proof.
  destruct w as [cm wk k ps hs].
  unfold executor_step, executor_try, executor_except, try_except, bind, modify,
    guard_site, generate_completion, commit, rollback, db_add_log, ret, raise.
  cbn [fst snd working committed calls prompts].
  assert (Hpend' : forall s l, settled (upd_logs l (upd_tasks (alter (set_t_status TPending) id) s)) id).
  { intros s l row. cbn. rewrite lookup_alter_eq.
    destruct (tasks s !! id); cbn; [|discriminate]. intros [= <-]. now left. }
  destruct (store_fault env (MarkRunning id)) as [e|]; cbn.
  { eexists _, _. split; [reflexivity|]. split; [reflexivity|]. apply Hpend'. }
  destruct (completion env k) as [content usage|e]; cbn.
  2:{ eexists _, _. split; [reflexivity|]. split; [reflexivity|]. apply Hpend'. }
  destruct (store_fault env (SaveOutput id)) as [e|]; cbn.
  { eexists _, _. split; [reflexivity|]. split; [reflexivity|]. apply Hpend'. }
  destruct (store_fault env (LogCost id)) as [e|]; cbn.
  { eexists _, _. split; [reflexivity|]. split; [reflexivity|]. apply Hpend'. }
  eexists _, _. split; [reflexivity|]. split; [reflexivity|].
  intros row. cbn. rewrite !lookup_alter_eq.
  destruct (tasks wk !! id); cbn; [|discriminate]. intros [= <-]. right. cbn. eauto.
Qed.

(** When no statement of the [except] block fails, [ExecutorAgent.run]
    returns normally from every session, for every list of tasks, every
    behaviour of the completion service and every failure of the commits of
    its [try] block, and every task of the list is then ["pending"], or
    ["done"] with its output set, in the session and in the committed
    store. *)
Lemma executor_run_returns_settled (env : Env) (project_title : string)
    (tasks : list (nat * Task)) (run_id : nat) (w : World) :
  exists w',
    ExecutorAgent_run env project_title tasks run_id w = (Ok tt, w')
    /\ Forall (fun task => settled (working w') (fst task)
                          /\ settled (committed w') (fst task)) tasks.
Proof.
  unfold ExecutorAgent_run. destruct tasks as [|[id0 t0] tasks].
  - exists w. split; [reflexivity | constructor].
  - cbn [executor_loop]. unfold bind.
    destruct (executor_step_total env project_title run_id id0 t0 EmptyString w)
      as (ctx' & w1 & Hstep & Hclean & Hset).
    rewrite Hstep, executor_loop_eq by exact Hclean.
    eexists. split; [reflexivity|].
    rewrite loop_world_clean by exact Hclean.
    apply Forall_forall. intros [id t] Hin.
    assert (settled (working (loop_world env project_title run_id tasks ctx' w1)) id);
      [|done].
    apply loop_world_settled.
    apply elem_of_cons in Hin as [[= -> ->]|Hin]; [now left|].
    right. apply (list_elem_of_fmap_2 fst) in Hin. exact Hin.
Qed.

(** ** The Executor: when the handler itself fails *)

(** The iteration with the sites of the handler is the iteration without
    them, unless a statement of the handler fails; the exception is then the
    one of that statement. *)
Lemma executor_step_with_cases env hf project_title run_id id t ctx w :
  executor_step_with env hf project_title run_id (id, t) ctx w
  = executor_step env project_title run_id (id, t) ctx w
  \/ exists e w',
       executor_step_with env hf project_title run_id (id, t) ctx w = (Raise e, w')
       /\ (hf (Rollback id) = Some e \/ hf (ResetPending id) = Some e
           \/ hf (LogError id) = Some e).
Proof.
  unfold executor_step_with, executor_step, try_except. cbn [fst snd].
  destruct (executor_try env project_title run_id id t ctx w) as [[ctx'|e0] w1];
    [now left|].
  unfold executor_except_with, executor_except, bind, guard_exec, raise, ret.
  destruct (hf (Rollback id)) as [e|] eqn:Hr; [right; eauto 6|].
  cbn. destruct (hf (ResetPending id)) as [e|] eqn:Hp; [right; eauto 6|].
  cbn. destruct (hf (LogError id)) as [e|] eqn:Hl; [right; eauto 7|].
  now left.
Qed.

Lemma executor_loop_with_cases env hf project_title run_id tasks ctx w :
  executor_loop_with env hf project_title run_id tasks ctx w
  = executor_loop env project_title run_id tasks ctx w
  \/ exists e w' id,
       executor_loop_with env hf project_title run_id tasks ctx w = (Raise e, w')
       /\ id ∈ tasks.*1
       /\ (hf (Rollback id) = Some e \/ hf (ResetPending id) = Some e
           \/ hf (LogError id) = Some e).
Proof.
  revert ctx w. induction tasks as [|[id t] tasks IH]; intros ctx w; [now left|].
  cbn [executor_loop_with executor_loop]. unfold bind.
  destruct (executor_step_with_cases env hf project_title run_id id t ctx w)
    as [->|(e & w' & -> & Hsite)].
  - destruct (executor_step env project_title run_id (id, t) ctx w) as [[ctx'|e] w1];
      [|now left].
    destruct (IH ctx' w1) as [->|(e & w' & id' & -> & Hin & Hsite)]; [now left|].
    right. exists e, w', id'. split; [reflexivity|]. split; [|exact Hsite].
    cbn. now apply elem_of_cons; right.
  - right. exists e, w', id. split; [reflexivity|]. split; [|exact Hsite].
    cbn. apply elem_of_cons; now left.
Qed.

(** An exception raised while a task is processed does propagate, when the
    handler that caught it fails in turn.  The completion call of the task
    fails; the handler rolls back and resets the status, and its commit
    finds the database locked: [run] ends with that exception, and the task
    is left ["running"] in the committed store, as line 24 stored it. *)
Lemma executor_handler_failure_propagates :
  let hf := fun site =>
              match site with
              | ResetPending 0 => Some Demo.database_locked
              | _ => None
              end in
  exists w',
    ExecutorAgent_run_with (Demo.env_of [Failure Demo.unavailable]) hf "Site"
      [(0%nat, Demo.task0); (1%nat, Demo.task1)] 0 (open_session Demo.store1)
    = (Raise Demo.database_locked, w')
    /\ t_status <$> tasks (committed w') !! 0%nat = Some TRunning
    /\ calls w' = 1%nat.
Proof.
  cbn zeta. eexists. split; [vm_compute; reflexivity|].
  split; vm_compute; reflexivity.
Qed.

(** C10.  [ExecutorAgent.run] catches every exception of the [try] block of
    an iteration: a failure of the completion call or of one of the three
    commits of the block never leaves [run].  The statements of the handler
    are covered by nothing: an exception that leaves [run] is one that
    [db.rollback()] or one of the two [db.commit()] of the handler raised
    for a task of the list.  When [run] returns, every task of the list is
    ["pending"], or ["done"] with its output set, in the session and in the
    committed store: none is left ["running"]. *)
Theorem executor_run_settled_or_handler_failed (env : Env) (hf : ExecSite -> option exn)
    (project_title : string) (tasks : list (nat * Task)) (run_id : nat) (w : World) :
  match ExecutorAgent_run_with env hf project_title tasks run_id w with
  | (Ok _, w') =>
      Forall (fun task => settled (working w') (fst task)
                          /\ settled (committed w') (fst task)) tasks
  | (Raise e, _) =>
      exists id,
        id ∈ tasks.*1
        /\ (hf (Rollback id) = Some e \/ hf (ResetPending id) = Some e
            \/ hf (LogError id) = Some e)
  end.
Proof.
  unfold ExecutorAgent_run_with.
  destruct (executor_loop_with_cases env hf project_title run_id tasks EmptyString w)
    as [->|(e & w' & id & -> & Hin & Hsite)].
  - destruct (executor_run_returns_settled env project_title tasks run_id w)
      as (w' & Hrun & Hsettled).
    unfold ExecutorAgent_run in Hrun. now rewrite Hrun.
  - now exists id.
Qed.

(** ** The Executor: failure of one task *)

Lemma task_fails_result env id k e :
  task_fails env id k e ->
  exists called, step_result env id k = StepFailed e called None.
Proof.
  intros [e' Hm Hc|content usage e' Hm Hc Hs]; unfold step_result;
    rewrite Hm, Hc; [|rewrite Hs]; eauto.
Qed.



(** ** The Executor: order and rolling context *)

Lemma append_nil_r (s : string) : (s ++ "")%string = s.
Proof.
  induction s as [|c s IH]; [reflexivity|].
  change (String c (s ++ "") = String c s). now f_equal.
Qed.

Lemma append_assoc (a b c : string) : ((a ++ b) ++ c)%string = (a ++ b ++ c)%string.
Proof.
  induction a as [|x a IH]; [reflexivity|].
  change (String x ((a ++ b) ++ c) = String x (a ++ b ++ c)). now f_equal.
Qed.

Lemma rolling_context_app s earlier task :
  rolling_context s (earlier ++ [task])%list = (rolling_context s earlier ++ done_entry s task)%string.
Proof.
  unfold rolling_context. induction earlier as [|x earlier IH]; cbn.
  - apply append_nil_r.
  - now rewrite IH, append_assoc.
Qed.

(** The rolling context only depends on the rows of the tasks it lists. *)
Lemma rolling_context_ext s s' earlier :
  (forall j, j ∈ earlier.*1 -> tasks s' !! j = tasks s !! j) ->
  rolling_context s' earlier = rolling_context s earlier.
Proof.
  unfold rolling_context. induction earlier as [|[id t] earlier IH]; intros H; cbn.
  - reflexivity.
  - rewrite IH by (intros j Hj; apply H; cbn; now apply list_elem_of_further).
    unfold done_entry. cbn. rewrite (H id) by (cbn; apply list_elem_of_here).
    reflexivity.
Qed.

(** The loop leaves the rows of the tasks it is not given as they are. *)
Lemma loop_world_frame env project_title run_id tasks0 ctx w j :
  j ∉ tasks0.*1 ->
  tasks (working (loop_world env project_title run_id tasks0 ctx w)) !! j
  = tasks (working w) !! j.
Proof.
  revert ctx w. induction tasks0 as [|[id t] tasks0 IH]; intros ctx w Hj; cbn.
  - reflexivity.
  - cbn in Hj. apply not_elem_of_cons in Hj as [Hne Hj].
    rewrite IH by exact Hj.
    rewrite working_world_after, tasks_store_after. now rewrite lookup_alter_ne.
Qed.

Lemma loop_world_runs env project_title run_id tasks0 ctx w :
  runs (working (loop_world env project_title run_id tasks0 ctx w)) = runs (working w)
  /\ projects (working (loop_world env project_title run_id tasks0 ctx w))
     = projects (working w).
Proof.
  revert ctx w. induction tasks0 as [|[id t] tasks0 IH]; intros ctx w; cbn.
  - done.
  - destruct (IH (context_after ctx t (step_result env id (calls w)))
                (world_after project_title run_id id t ctx
                   (step_result env id (calls w)) w)) as [-> ->].
    now rewrite working_world_after.
Qed.

Lemma was_called_fault env id k :
  was_called (step_result env id k)
  = match store_fault env (MarkRunning id) with Some _ => false | None => true end.
Proof.
  unfold step_result. destruct (store_fault env (MarkRunning id)); [reflexivity|].
  destruct (completion env k); [|reflexivity].
  destruct (store_fault env (SaveOutput id)); [reflexivity|].
  destruct (store_fault env (LogCost id)); reflexivity.
Qed.

(** What the task just processed contributes, read off the store it left. *)
Lemma done_entry_after run_id id t res s ctx :
  tasks s !! id = Some t ->
  (ctx ++ done_entry (store_after run_id id t res s) (id, t))%string
  = context_after ctx t res.
Proof.
  intros Hrow. unfold done_entry. cbn [fst].
  rewrite tasks_store_after, lookup_alter_eq, Hrow. cbn.
  destruct res as [content usage|e called [content|]]; cbn;
    rewrite ?append_nil_r; reflexivity.
Qed.

Lemma expected_level_after run_id id t res s :
  tasks s !! id = Some t ->
  expected_level (store_after run_id id t res s) (id, t) = l_level (log_after run_id t res).
Proof.
  intros Hrow. unfold expected_level. cbn [fst].
  rewrite tasks_store_after, lookup_alter_eq, Hrow. cbn.
  destruct res as [content usage|e called [content|]]; reflexivity.
Qed.

(** The invariant of the loop: [ctx] is the rolling context of the tasks
    already processed. *)
Lemma loop_world_prompts env project_title run_id later :
  forall earlier ctx w,
    NoDup ((earlier ++ later)%list).*1 ->
    Forall (fun task => tasks (working w) !! fst task = Some (snd task)) later ->
    ctx = rolling_context (working w) earlier ->
    let w' := loop_world env project_title run_id later ctx w in
    prompts w' =
      (prompts w ++ expected_prompts env project_title (working w') earlier later)%list
    /\ map l_level (logs (working w')) =
         (map l_level (logs (working w)) ++ map (expected_level (working w')) later)%list.
Proof.
  induction later as [|[id t] later IH]; intros earlier ctx w Hnd Hrows Hctx; cbn zeta.
  - cbn. now rewrite !app_nil_r.
  - cbn [loop_world].
    set (res := step_result env id (calls w)).
    set (w1 := world_after project_title run_id id t ctx res w).
    apply Forall_cons in Hrows as [Hrow Hrows]. cbn [fst snd] in Hrow.
    assert (Hnd' : NoDup (((earlier ++ [(id, t)]) ++ later)%list).*1)
      by now rewrite <- app_assoc.
    assert (Hid_earlier : id ∉ earlier.*1).
    { rewrite fmap_app in Hnd. apply NoDup_app in Hnd as (_ & Hdisj & _).
      intros Hin. apply (Hdisj id Hin). cbn. apply list_elem_of_here. }
    assert (Hid_later : id ∉ later.*1).
    { rewrite fmap_app in Hnd. apply NoDup_app in Hnd as (_ & _ & Hnd).
      cbn in Hnd. now apply NoDup_cons in Hnd as [? _]. }
    assert (Hw1 : working w1 = store_after run_id id t res (working w))
      by apply working_world_after.
    assert (Hearlier : forall j, j ∈ earlier.*1 ->
              tasks (working w1) !! j = tasks (working w) !! j).
    { intros j Hj. rewrite Hw1, tasks_store_after.
      apply lookup_alter_ne. intros ->. now apply Hid_earlier. }
    destruct (IH (earlier ++ [(id, t)])%list (context_after ctx t res) w1) as [IHp IHl].
    + exact Hnd'.
    + apply Forall_forall. intros [j tj] Hj. cbn [fst snd].
      rewrite Forall_forall in Hrows. specialize (Hrows _ Hj). cbn [fst snd] in Hrows.
      rewrite Hw1, tasks_store_after, lookup_alter_ne; [exact Hrows|].
      intros ->. apply Hid_later. now apply (list_elem_of_fmap_2 fst) in Hj.
    + rewrite rolling_context_app, (rolling_context_ext (working w)) by exact Hearlier.
      rewrite <- Hctx, Hw1. symmetry. now apply done_entry_after.
    + set (w' := loop_world env project_title run_id later (context_after ctx t res) w1)
        in *.
      assert (Hfinal : forall j, j ∉ later.*1 ->
                tasks (working w') !! j = tasks (working w1) !! j).
      { intros j Hj. now apply loop_world_frame. }
      split.
      * rewrite IHp. cbn [expected_prompts fst snd].
        rewrite (rolling_context_ext (working w) (working w') earlier).
        2:{ intros j Hj. rewrite Hfinal, Hearlier; [reflexivity | exact Hj |].
            rewrite fmap_app in Hnd. apply NoDup_app in Hnd as (_ & Hdisj & _).
            intros Hin. apply (Hdisj j Hj). cbn. now apply list_elem_of_further. }
        rewrite <- Hctx. unfold w1, world_after, res.
        rewrite (was_called_fault env id (calls w)).
        destruct (store_fault env (MarkRunning id)); cbn [prompts].
        -- reflexivity.
        -- now rewrite <- app_assoc.
      * rewrite IHl. cbn [map].
        assert (Hlvl : expected_level (working w') (id, t) = l_level (log_after run_id t res)).
        { rewrite <- (expected_level_after run_id id t res (working w)) by exact Hrow.
          unfold expected_level. cbn [fst]. now rewrite Hfinal, Hw1. }
        rewrite Hlvl, Hw1. cbn [store_after upd_logs logs].
        rewrite map_app, <- app_assoc. reflexivity.
Qed.

(** Rows with strictly increasing order indexes are distinct rows. *)
Lemma strictly_sorted_NoDup (s : Store) (tasks0 : list (nat * Task)) :
  Forall (fun task => tasks s !! fst task = Some (snd task)) tasks0 ->
  StronglySorted Z.lt (map (fun task => t_order_index (snd task)) tasks0) ->
  NoDup tasks0.*1.
Proof.
  induction tasks0 as [|[id t] tasks0 IH]; intros Hrows Hsorted; cbn.
  - constructor.
  - apply Forall_cons in Hrows as [Hrow Hrows]. cbn [fst snd] in Hrow.
    cbn [map] in Hsorted. apply StronglySorted_inv in Hsorted as [Hsorted Hlt].
    constructor; [|now apply IH].
    intros Hin. apply list_elem_of_fmap in Hin as ([j tj] & Hj & Hin). cbn in Hj. subst j.
    rewrite Forall_forall in Hrows. specialize (Hrows _ Hin). cbn [fst snd] in Hrows.
    rewrite Hrow in Hrows. injection Hrows as <-.
    rewrite Forall_forall in Hlt. specialize (Hlt (t_order_index t)).
    cbn [snd] in Hlt.
    assert (t_order_index t < t_order_index t)%Z; [|lia].
    apply Hlt. apply list_elem_of_fmap. exists (id, t). split; [reflexivity | exact Hin].
Qed.

(** C4.  The Executor is given rows of the store, sorted by strictly
    increasing [order_index], in a session without uncommitted changes.  It
    handles them one after the other in list order, so in strictly ascending
    order of [order_index]: it leaves one [Log] row per task, in that order
    (["cost"] for a task it completed, ["error"] for a task that failed), and
    it sends the prompts of the tasks in that order.  The prompt of each task
    is the text of [prompt_text]: the project title, then, as
    [PREVIOUS WORK], exactly the entries of the tasks before it in the list
    that this invocation completed, in list order, each entry being a line
    break, the separator line [---], the line [Task i Output:] and the
    output; then the sanitized input of the task.  A task that failed
    contributes nothing. *)
Theorem executor_order_and_context (env : Env) (project_title : string)
    (tasks0 : list (nat * Task)) (run_id : nat) (w : World) :
  committed w = working w ->
  Forall (fun task => tasks (working w) !! fst task = Some (snd task)) tasks0 ->
  StronglySorted Z.lt (map (fun task => t_order_index (snd task)) tasks0) ->
  exists w',
    ExecutorAgent_run env project_title tasks0 run_id w = (Ok tt, w')
    /\ prompts w' =
         (prompts w ++ expected_prompts env project_title (working w') [] tasks0)%list
    /\ map l_level (logs (working w')) =
         (map l_level (logs (working w)) ++ map (expected_level (working w')) tasks0)%list.
Proof.
  intros Hclean Hrows Hsorted. unfold ExecutorAgent_run.
  rewrite executor_loop_eq by exact Hclean.
  eexists. split; [reflexivity|].
  apply (loop_world_prompts env project_title run_id tasks0 [] EmptyString w).
  - cbn [app]. eapply strictly_sorted_NoDup; eassumption.
  - exact Hrows.
  - reflexivity.
Qed.

Lemma executor_order_and_context_witness :
  let nl := String "010"%char EmptyString in
  exists w',
    ExecutorAgent_run (Demo.env_of [Demo.says "schema.sql"; Failure Demo.unavailable])
      "Site" [(0%nat, Demo.task0); (1%nat, Demo.task1)] 0 (open_session Demo.store1)
      = (Ok tt, w')
    /\ prompts w' =
         [(nl ++ "You are an expert AI agent working on a project." ++ nl
           ++ nl
           ++ "PROJECT:" ++ nl
           ++ "Site" ++ nl
           ++ nl
           ++ "PREVIOUS WORK:" ++ nl
           ++ nl
           ++ nl
           ++ "CURRENT TASK:" ++ nl
           ++ "Design schema" ++ nl
           ++ nl
           ++ nl
           ++ "Continue the work carefully and clearly." ++ nl)%string;
          (nl ++ "You are an expert AI agent working on a project." ++ nl
           ++ nl
           ++ "PROJECT:" ++ nl
           ++ "Site" ++ nl
           ++ nl
           ++ "PREVIOUS WORK:" ++ nl
           ++ nl ++ "---" ++ nl
           ++ "Task 1 Output:" ++ nl
           ++ "schema.sql" ++ nl
           ++ nl
           ++ "CURRENT TASK:" ++ nl
           ++ "Write API" ++ nl
           ++ nl
           ++ nl
           ++ "Continue the work carefully and clearly." ++ nl)%string]
    /\ map l_level (logs (working w')) = [LCost; LError].
Proof.
  cbn zeta.
  destruct (executor_order_and_context
              (Demo.env_of [Demo.says "schema.sql"; Failure Demo.unavailable])
              "Site" [(0%nat, Demo.task0); (1%nat, Demo.task1)] 0
              (open_session Demo.store1))
    as (w' & Hrun & Hprompts & Hlogs).
  - reflexivity.
  - repeat constructor.
  - repeat constructor; cbn; lia.
  - exists w'. split; [exact Hrun|].
    pose proof Hrun as Heq. vm_compute in Heq. injection Heq as <-.
    split; [exact Hprompts | exact Hlogs].
Defined.

(** ** Execute: what the request leaves in the store *)

Lemma pending_tasks_elem (s : Store) (run_id : nat) (task : nat * Task) :
  task ∈ pending_tasks s run_id
  <-> tasks s !! fst task = Some (snd task) /\ is_pending_of run_id task.
Proof.
  unfold pending_tasks. rewrite merge_sort_Permutation, list_elem_of_filter.
  destruct task as [id t]. rewrite elem_of_map_to_list. cbn. tauto.
Qed.

#[local] Instance by_order_index_total : Total by_order_index.
Proof. intros a b. unfold by_order_index. lia. Qed.

#[local] Instance by_order_index_trans : Transitive by_order_index.
Proof. intros a b c. unfold by_order_index. lia. Qed.

Lemma pending_tasks_sorted (s : Store) (run_id : nat) :
  StronglySorted by_order_index (pending_tasks s run_id).
Proof. apply StronglySorted_merge_sort; apply _. Qed.

(** The rows an Execute request hands to the Executor are rows of the store,
    under distinct keys; and when the pending tasks of the run have distinct
    order indexes, as the data model asks, they come sorted by strictly
    increasing order index: the premises of [executor_order_and_context]. *)
Lemma pending_tasks_strictly_sorted (s : Store) (run_id : nat) :
  (forall i j ti tj,
     tasks s !! i = Some ti -> tasks s !! j = Some tj ->
     is_pending_of run_id (i, ti) -> is_pending_of run_id (j, tj) ->
     t_order_index ti = t_order_index tj -> i = j) ->
  Forall (fun task => tasks s !! fst task = Some (snd task)) (pending_tasks s run_id)
  /\ NoDup (pending_tasks s run_id).*1
  /\ StronglySorted Z.lt
       (map (fun task => t_order_index (snd task)) (pending_tasks s run_id)).
Proof.
  intros Hdistinct.
  assert (Hrows : Forall (fun task => tasks s !! fst task = Some (snd task)
                                      /\ is_pending_of run_id task)
                    (pending_tasks s run_id)).
  { apply Forall_forall. intros task Hin. now apply pending_tasks_elem in Hin. }
  assert (Hnd : NoDup (pending_tasks s run_id).*1).
  { unfold pending_tasks. rewrite merge_sort_Permutation.
    apply NoDup_fmap_fst.
    - intros i t1 t2 H1 H2.
      apply list_elem_of_filter in H1 as [_ H1]. apply list_elem_of_filter in H2 as [_ H2].
      apply elem_of_map_to_list in H1. apply elem_of_map_to_list in H2. congruence.
    - apply NoDup_filter, NoDup_map_to_list. }
  split; [eapply Forall_impl; [exact Hrows|]; intros task [H _]; exact H|].
  split; [exact Hnd|].
  pose proof (pending_tasks_sorted s run_id) as Hsorted.
  induction Hsorted as [|[i ti] l Hl IH Hhd]; [constructor|].
  apply Forall_cons in Hrows as [[Hi Hpi] Hrows]. cbn [fst snd] in Hi.
  cbn [fmap list_fmap] in Hnd. apply NoDup_cons in Hnd as [Hnotin Hnd].
  cbn [map]. constructor; [now apply IH|].
  apply Forall_forall. intros z Hz.
  apply list_elem_of_In, in_map_iff in Hz as ([j tj] & <- & Hin).
  apply list_elem_of_In in Hin.
  rewrite Forall_forall in Hhd, Hrows.
  specialize (Hhd _ Hin). destruct (Hrows _ Hin) as [Hj Hpj].
  unfold by_order_index in Hhd. cbn [fst snd] in *.
  destruct (decide (t_order_index ti = t_order_index tj)) as [Heq|Hne]; [|lia].
  exfalso. apply Hnotin.
  rewrite (Hdistinct i j ti tj Hi Hj Hpi Hpj Heq).
  now apply (list_elem_of_fmap_2 fst) in Hin.
Qed.

(** The handler in closed form, from a fresh session on [s]. *)
Lemma execute_run_eq (env : Env) (run_id user_id : nat) (s : Store) :
  execute_run env run_id user_id (open_session s) =
    match find_run s run_id user_id with
    | None => (Raise (HTTPException 404 "Run not found"), open_session s)
    | Some (r, p) =>
        if r_is_locked r
        then (Raise (HTTPException 409 "Run already executing"), open_session s)
        else
          let s1 := upd_runs (alter (set_r_is_locked true) run_id) s in
          match pending_tasks s run_id with
          | [] =>
              let s' := upd_runs (alter (set_r_is_locked false) run_id) s1 in
              (Raise (HTTPException 400 "No pending tasks"), mkWorld s' s' 0 [] [s1; s'])
          | _ :: _ =>
              let s2 := upd_runs (alter (set_r_status RRunning) run_id) s1 in
              let w := loop_world env (p_title p) run_id (pending_tasks s run_id)
                         EmptyString (mkWorld s2 s2 0 [] [s1; s2]) in
              let s3 := upd_runs (alter (set_r_status RCompleted) run_id) (working w) in
              let s' := upd_runs (alter (set_r_is_locked false) run_id) s3 in
              (Ok (run_id, r_status <$> runs s3 !! run_id),
               mkWorld s' s' (calls w) (prompts w) (history w ++ [s3; s']))
          end
    end.
Proof.
  unfold execute_run, open_session.
  unfold bind at 1. unfold read at 1. cbn [working].
  destruct (find_run s run_id user_id) as [[r p]|]; [|reflexivity].
  destruct (r_is_locked r); [reflexivity|].
  unfold try_finally, bind, modify, commit, read, raise, ret.
  cbn [working committed calls prompts].
  change (pending_tasks (upd_runs (alter (set_r_is_locked true) run_id) s) run_id)
    with (pending_tasks s run_id).
  destruct (pending_tasks s run_id) as [|task ts]; [reflexivity|].
  unfold ExecutorAgent_run. rewrite executor_loop_eq by reflexivity.
  cbn. rewrite <- app_assoc. reflexivity.
Qed.

(** The store the Execute request leaves, case by case. *)
Lemma serve_execute_cases (lib : Builtins) (env : Env) (run_id user_id : nat) (s : Store) :
  let s' := snd (serve lib env (Execute run_id user_id) s) in
  (s' = s
   /\ (find_run s run_id user_id = None
       \/ exists r p, find_run s run_id user_id = Some (r, p) /\ r_is_locked r = true))
  \/ exists r p,
       find_run s run_id user_id = Some (r, p) /\ r_is_locked r = false
       /\ ((pending_tasks s run_id = []
            /\ s' = upd_runs (alter (set_r_is_locked false) run_id)
                      (upd_runs (alter (set_r_is_locked true) run_id) s))
           \/ (pending_tasks s run_id <> []
               /\ exists w s1 s2,
                    s1 = upd_runs (alter (set_r_is_locked true) run_id) s
                    /\ s2 = upd_runs (alter (set_r_status RRunning) run_id) s1
                    /\ w = loop_world env (p_title p) run_id (pending_tasks s run_id)
                             EmptyString (mkWorld s2 s2 0 [] [s1; s2])
                    /\ s' = upd_runs (alter (set_r_is_locked false) run_id)
                              (upd_runs (alter (set_r_status RCompleted) run_id)
                                 (working w)))).
Proof.
  cbn zeta. unfold serve. rewrite execute_run_eq.
  destruct (find_run s run_id user_id) as [[r p]|] eqn:Hfind.
  2:{ left. split; [reflexivity | now left]. }
  destruct (r_is_locked r) eqn:Hlocked.
  { left. split; [reflexivity | right; exists r, p; split; [reflexivity | exact Hlocked]]. }
  right. exists r, p. split; [reflexivity|]. split; [exact Hlocked|].
  destruct (pending_tasks s run_id) as [|task ts] eqn:Hpending.
  { left. split; reflexivity. }
  right. split; [discriminate|].
  eexists _, _, _. split; [reflexivity|]. split; [reflexivity|]. split; reflexivity.
Qed.

(** The Executor calls the completion service at most once per task. *)
Lemma loop_world_calls env project_title run_id tasks0 ctx w :
  (calls (loop_world env project_title run_id tasks0 ctx w) <= calls w + length tasks0)%nat.
Proof.
  revert ctx w. induction tasks0 as [|[id t] tasks0 IH]; intros ctx w; cbn [loop_world length].
  - lia.
  - etransitivity; [apply IH|]. unfold world_after.
    destruct (was_called (step_result env id (calls w))); cbn [calls]; lia.
Qed.

(** C5.  An Execute request hands the Executor the rows of the run that are
    ["pending"], and no other row of the [tasks] table is changed by it: a
    task that is ["done"] before the request (or in any status other than
    ["pending"], or of another run) has the same row after it, status and
    output included, whatever the request's outcome; and the request makes
    at most one completion call per pending task. *)
Theorem execute_touches_pending_only (lib : Builtins) (env : Env)
    (run_id user_id : nat) (s : Store) (id : nat) (row : Task) :
  tasks s !! id = Some row ->
  t_status row <> TPending \/ t_run_id row <> run_id ->
  Forall (fun task => tasks s !! fst task = Some (snd task)
                      /\ t_status (snd task) = TPending
                      /\ t_run_id (snd task) = run_id)
    (pending_tasks s run_id)
  /\ (calls (snd (execute_run env run_id user_id (open_session s)))
      <= length (pending_tasks s run_id))%nat
  /\ tasks (snd (serve lib env (Execute run_id user_id) s)) !! id = Some row.
Proof.
  intros Hrow Hnot. split.
  { apply Forall_forall. intros task Hin. apply pending_tasks_elem in Hin.
    unfold is_pending_of in Hin. tauto. }
  split.
  { rewrite execute_run_eq.
    destruct (find_run s run_id user_id) as [[r p]|]; [|cbn; lia].
    destruct (r_is_locked r); [cbn; lia|].
    destruct (pending_tasks s run_id) as [|task ts] eqn:Hpending; [cbn; lia|].
    cbn [snd calls].
    etransitivity; [apply loop_world_calls|]. cbn [calls]. lia. }
  destruct (serve_execute_cases lib env run_id user_id s)
    as [[-> _]|(r & p & _ & _ & [[_ ->]|(_ & w & s1 & s2 & -> & -> & -> & ->)])].
  - exact Hrow.
  - exact Hrow.
  - cbn [upd_runs tasks]. rewrite loop_world_frame; [exact Hrow|].
    intros Hin. apply list_elem_of_fmap in Hin as ([j t] & Hj & Hin). cbn in Hj. subst j.
    apply pending_tasks_elem in Hin as [Hlook [Hrun Hpend]]. cbn [fst snd] in *.
    rewrite Hrow in Hlook. injection Hlook as <-. tauto.
Qed.

Lemma execute_touches_pending_only_witness :
  tasks Demo.store2 !! 0%nat = Some Demo.task0_done
  /\ tasks (snd (serve Fixture.lib (Demo.env_of [Demo.says "api.py"]) (Execute 0 7)
                   Demo.store2)) !! 0%nat
     = Some Demo.task0_done.
Proof.
  split; [vm_compute; reflexivity|].
  apply (execute_touches_pending_only Fixture.lib (Demo.env_of [Demo.says "api.py"])
           0 7 Demo.store2 0 Demo.task0_done).
  - vm_compute; reflexivity.
  - left. discriminate.
Defined.

(** ** The Planner *)

Lemma refine_frame env lib n current w :
  working (snd (refine env lib n current w)) = working w
  /\ committed (snd (refine env lib n current w)) = committed w
  /\ history (snd (refine env lib n current w)) = history w
  /\ (calls w <= calls (snd (refine env lib n current w)) <= calls w + n)%nat.
Proof.
  revert current w. induction n as [|n IH]; intros current w; cbn [refine].
  - cbn. repeat split; lia.
  - destruct (json_loads lib current); [cbn; repeat split; lia|].
    unfold bind, generate_completion.
    destruct (completion env (calls w)) as [content usage|e]; cbn [fst snd].
    + match goal with |- context [refine env lib n content ?w1] =>
        destruct (IH content w1) as (-> & -> & -> & Hc) end.
      cbn in *. repeat split; lia.
    + cbn. repeat split; lia.
Qed.

(** The loop over the elements only adds rows to the working [tasks] table. *)
Lemma create_tasks_frame lib run_id ts created w :
  let w' := snd (create_tasks lib run_id ts created w) in
  committed w' = committed w /\ history w' = history w /\ calls w' = calls w
  /\ projects (working w') = projects (working w)
  /\ runs (working w') = runs (working w)
  /\ logs (working w') = logs (working w).
Proof.
  cbn zeta. revert created w. induction ts as [|t ts IH]; intros created w.
  - cbn. done.
  - cbn [create_tasks]. unfold bind, lift.
    destruct (py_in "order_index" t) as [[|]|e]; cbn [negb]; [|apply IH|cbn; done].
    destruct (py_in "input" t) as [[|]|e]; cbn [negb]; [|apply IH|cbn; done].
    destruct (py_getitem "input" t) as [v_input|e]; [|cbn; done].
    destruct (py_getitem "order_index" t) as [v_index|e]; [|cbn; done].
    destruct (py_int lib v_index) as [n|e]; [|cbn; done].
    unfold db_add_task.
    match goal with |- context [create_tasks lib run_id ts ?c ?w1] =>
      destruct (IH c w1) as (-> & -> & -> & -> & -> & ->) end.
    cbn. done.
Qed.

(** [store_plan] changes the [runs] table by the status of the run alone, and
    only when it returns; it commits once, on return. *)
Lemma store_plan_frame lib run_id data w :
  let r := fst (store_plan lib run_id data w) in
  let w' := snd (store_plan lib run_id data w) in
  calls w' = calls w
  /\ projects (working w') = projects (working w)
  /\ logs (working w') = logs (working w)
  /\ match r with
     | Ok _ =>
         runs (working w') = alter (set_r_status RPlanned) run_id (runs (working w))
         /\ committed w' = working w' /\ history w' = (history w ++ [working w'])%list
     | Raise _ =>
         runs (working w') = runs (working w)
         /\ committed w' = committed w /\ history w' = history w
     end.
Proof.
  cbn zeta. unfold store_plan, bind, lift.
  destruct (py_get_tasks data) as [[[| | | | |[|t ts]|]|]|e]; try (cbn; done).
  pose proof (create_tasks_frame lib run_id (t :: ts) [] w) as Hframe. cbn zeta in Hframe.
  destruct (create_tasks lib run_id (t :: ts) [] w) as [[ids|e] w1];
    cbn [fst snd] in *; destruct Hframe as (Hc & Hh & Hk & Hp & Hr & Hl).
  - cbn. rewrite ?Hk, ?Hp, ?Hr, ?Hl, ?Hh. done.
  - done.
Qed.

Lemma plan_frame env lib run_id project_title project_description w r w' :
  PlannerAgent_plan env lib run_id project_title project_description w = (r, w') ->
  (calls w < calls w' <= calls w + 4)%nat
  /\ projects (working w') = projects (working w)
  /\ logs (working w') = logs (working w)
  /\ match r with
     | Ok _ =>
         runs (working w') = alter (set_r_status RPlanned) run_id (runs (working w))
         /\ committed w' = working w' /\ history w' = (history w ++ [working w'])%list
     | Raise _ =>
         runs (working w') = runs (working w)
         /\ committed w' = committed w /\ history w' = history w
     end.
Proof.
  unfold PlannerAgent_plan, bind, generate_completion.
  destruct (completion env (calls w)) as [content usage|e]; cbn [fst snd].
  2:{ intros [= <- <-]. cbn. repeat split; first [lia | reflexivity]. }
  match goal with |- context [refine env lib MAX_REFINES content ?w1] =>
    pose proof (refine_frame env lib MAX_REFINES content w1) as Href;
    destruct (refine env lib MAX_REFINES content w1) as [[current|e] w2] end;
    cbn [fst snd working committed history calls] in Href;
    destruct Href as (Hw & Hc & Hh & Hk); unfold MAX_REFINES in Hk.
  2:{ intros [= <- <-]. rewrite Hw, Hc, Hh. repeat split; first [lia | reflexivity]. }
  destruct (json_loads lib current) as [data|].
  2:{ intros [= <- <-]. rewrite Hw, Hc, Hh. repeat split; first [lia | reflexivity]. }
  intros Hplan.
  pose proof (store_plan_frame lib run_id data w2) as Hs. cbn zeta in Hs.
  rewrite Hplan in Hs. cbn [fst snd] in Hs.
  destruct Hs as (Hk3 & Hp3 & Hl3 & Hcase).
  rewrite Hk3, Hp3, Hl3, Hw. split; [lia|]. split; [done|]. split; [done|].
  destruct r; rewrite <- ?Hw, <- ?Hh, <- ?Hc; exact Hcase.
Qed.

(** ** Create-and-plan: what the request does *)

(** The handler from a fresh session on [s], case by case: not found or
    already locked; the archive statement fails; or the run is created and
    the Planner is called on it. *)
Lemma create_and_plan_cases (env : Env) (lib : Builtins) (project_id user_id : nat)
    (s : Store) (r : Result (nat * option Run)) (w' : World) :
  create_and_plan_run env lib project_id user_id (open_session s) = (r, w') ->
  let s1 := upd_projects (alter (set_p_is_locked true) project_id) s in
  let s2 := upd_runs (fmap (archive_run project_id)) s1 in
  let run_id := fresh (dom (runs s2)) in
  let s3 := upd_runs (insert run_id (mkRun project_id RCreated None false false)) s2 in
  (w' = open_session s
   /\ ((find_project s project_id user_id = None
        /\ r = Raise (HTTPException 404 "Project not found"))
       \/ (exists p, find_project s project_id user_id = Some p /\ p_is_locked p = true
                     /\ r = Raise (HTTPException 409 "Project already has a running job"))))
  \/ (exists p e,
        find_project s project_id user_id = Some p /\ p_is_locked p = false
        /\ store_fault env ArchivePriorRuns = Some e
        /\ r = Raise e /\ committed w' = s1 /\ history w' = [s1])
  \/ (exists p pr wp,
        find_project s project_id user_id = Some p /\ p_is_locked p = false
        /\ store_fault env ArchivePriorRuns = None
        /\ PlannerAgent_plan env lib run_id (p_title p) (p_description p)
             (mkWorld s3 s3 0 [] [s1; s2; s3]) = (pr, wp)
        /\ committed w' = upd_projects (alter (set_p_is_locked false) project_id) (working wp)
        /\ history w' = (history wp ++ [committed w'])%list
        /\ outcome r = outcome pr).
Proof.
  cbn zeta. unfold create_and_plan_run, open_session.
  unfold bind at 1. unfold read at 1. cbn [working].
  destruct (find_project s project_id user_id) as [p|] eqn:Hfind.
  2:{ intros [= <- <-]. left. split; [reflexivity|]. left. done. }
  destruct (p_is_locked p) eqn:Hlocked.
  { intros [= <- <-]. left. split; [reflexivity|]. right. exists p. done. }
  unfold archive_prior_runs, guard_site.
  destruct (store_fault env ArchivePriorRuns) as [e|] eqn:Hfault.
  { intros [= <- <-]. right. left. exists p, e. cbn. done. }
  unfold try_finally, bind, modify, commit, ret, db_add_run, run_to_dict, read.
  cbn [working committed calls prompts history fst snd app].
  match goal with |- context [PlannerAgent_plan env lib ?rid ?t ?d ?w0] =>
    destruct (PlannerAgent_plan env lib rid t d w0) as [pr wp] eqn:Hplan end.
  intros Hrun. right. right. exists p, pr, wp.
  split; [reflexivity|]. split; [exact Hlocked|]. split; [reflexivity|].
  split; [exact Hplan|].
  destruct pr as [ids|e]; cbn in Hrun; injection Hrun as <- <-; cbn; done.
Qed.

(** ** The lock flags *)

Lemma find_project_Some s project_id user_id p :
  find_project s project_id user_id = Some p -> projects s !! project_id = Some p.
Proof.
  unfold find_project. destruct (projects s !! project_id) as [p0|]; [|discriminate].
  destruct (p_owner_id p0 =? user_id)%nat; congruence.
Qed.

Lemma find_run_Some s run_id user_id r p :
  find_run s run_id user_id = Some (r, p) -> runs s !! run_id = Some r.
Proof.
  unfold find_run. destruct (runs s !! run_id) as [r0|]; [|discriminate].
  destruct (find_project s (r_project_id r0) user_id); congruence.
Qed.

(** An Execute request that takes the lock of the run gives it back, whether
    it returns or raises. *)
Lemma execute_releases_lock (lib : Builtins) (env : Env) (run_id user_id : nat) (s : Store)
    (r : Run) (p : Project) :
  find_run s run_id user_id = Some (r, p) ->
  r_is_locked r = false ->
  r_is_locked <$> runs (snd (serve lib env (Execute run_id user_id) s)) !! run_id
  = Some false.
Proof.
  intros Hfind Hlocked. pose proof (find_run_Some _ _ _ _ _ Hfind) as Hrow.
  destruct (serve_execute_cases lib env run_id user_id s)
    as [[_ [Hnone|(r0 & p0 & Hf & Hl)]]
       |(r0 & p0 & _ & _ & [[_ ->]|(_ & w & s1 & s2 & -> & -> & -> & ->)])].
  - congruence.
  - congruence.
  - cbn. rewrite !lookup_alter_eq, Hrow. reflexivity.
  - cbn. destruct (loop_world_runs env (p_title p0) run_id (pending_tasks s run_id)
                     EmptyString
                     (mkWorld
                        (upd_runs (alter (set_r_status RRunning) run_id)
                           (upd_runs (alter (set_r_is_locked true) run_id) s))
                        (upd_runs (alter (set_r_status RRunning) run_id)
                           (upd_runs (alter (set_r_is_locked true) run_id) s))
                        0 []
                        [upd_runs (alter (set_r_is_locked true) run_id) s;
                         upd_runs (alter (set_r_status RRunning) run_id)
                           (upd_runs (alter (set_r_is_locked true) run_id) s)]))
      as [-> _].
    cbn. rewrite !lookup_alter_eq, Hrow. reflexivity.
Qed.

(** A create-and-plan request that takes the lock of the project and whose
    archive statement succeeds gives the lock back, whether the Planner
    returns or raises. *)
Lemma create_and_plan_releases_lock (lib : Builtins) (env : Env)
    (project_id user_id : nat) (s : Store) (p : Project) :
  find_project s project_id user_id = Some p ->
  p_is_locked p = false ->
  store_fault env ArchivePriorRuns = None ->
  p_is_locked <$> projects (snd (serve lib env (CreateAndPlan project_id user_id) s))
                    !! project_id
  = Some false.
Proof.
  intros Hfind Hlocked Hfault. pose proof (find_project_Some _ _ _ _ Hfind) as Hrow.
  unfold serve.
  destruct (create_and_plan_run env lib project_id user_id (open_session s))
    as [r w'] eqn:Hrun.
  apply create_and_plan_cases in Hrun. cbn zeta in Hrun. cbn [snd].
  destruct Hrun as [[_ [[Hnone _]|(p0 & Hf & Hl & _)]]
                   |[(p0 & e & _ & _ & Hf & _)
                    |(p0 & pr & wp & _ & _ & _ & Hplan & -> & _)]]; try congruence.
  apply plan_frame in Hplan as (_ & Hprojects & _).
  cbn [upd_projects projects]. rewrite Hprojects. cbn.
  rewrite !lookup_alter_eq, Hrow. reflexivity.
Qed.

(** C2, the path that keeps the flag.  In [create_and_plan_run] the statement
    archiving the prior runs stands between the commit of
    [project.is_locked = True] and the [try] block: when the store raises
    there, the error propagates and [Project.is_locked] stays set in the
    committed store, and every later create-and-plan request on the project
    is refused with a conflict.  [execute_run] and every other path of
    [create_and_plan_run] clear the flag ([execute_releases_lock],
    [create_and_plan_releases_lock]). *)
Theorem create_and_plan_lock_stuck (lib : Builtins) (env : Env)
    (project_id user_id : nat) (s : Store) (p : Project) (e : exn) :
  find_project s project_id user_id = Some p ->
  p_is_locked p = false ->
  store_fault env ArchivePriorRuns = Some e ->
  fst (serve lib env (CreateAndPlan project_id user_id) s) = Some e
  /\ p_is_locked <$> projects (snd (serve lib env (CreateAndPlan project_id user_id) s))
                       !! project_id
     = Some true
  /\ forall env',
       fst (serve lib env' (CreateAndPlan project_id user_id)
              (snd (serve lib env (CreateAndPlan project_id user_id) s)))
       = Some (HTTPException 409 "Project already has a running job").
Proof.
  intros Hfind Hlocked Hfault. pose proof (find_project_Some _ _ _ _ Hfind) as Hrow.
  unfold serve.
  destruct (create_and_plan_run env lib project_id user_id (open_session s))
    as [r w'] eqn:Hrun.
  apply create_and_plan_cases in Hrun. cbn zeta in Hrun. cbn [fst snd].
  destruct Hrun as [[_ [[Hnone _]|(p0 & Hf & Hl & _)]]
                   |[(p0 & e0 & _ & _ & Hf & -> & -> & _)
                    |(p0 & pr & wp & _ & _ & Hf & _)]]; try congruence.
  split; [cbn; congruence|]. split.
  - cbn. rewrite lookup_alter_eq, Hrow. reflexivity.
  - intros env'. unfold create_and_plan_run, open_session, bind, read, find_project.
    cbn [working upd_projects projects]. rewrite lookup_alter_eq, Hrow. cbn.
    unfold find_project in Hfind. rewrite Hrow in Hfind.
    destruct (p_owner_id p =? user_id)%nat; [reflexivity | discriminate].
Qed.

Lemma create_and_plan_lock_stuck_witness :
  fst (serve Fixture.lib Demo.env_archive_fails (CreateAndPlan 1 7) Demo.store0)
    = Some Demo.database_locked
  /\ p_is_locked <$>
       projects (snd (serve Fixture.lib Demo.env_archive_fails (CreateAndPlan 1 7)
                        Demo.store0)) !! 1%nat
     = Some true.
Proof.
  destruct (create_and_plan_lock_stuck Fixture.lib Demo.env_archive_fails 1 7 Demo.store0
              (mkProject "Site" (Some "Build a site") 7 false) Demo.database_locked)
    as (Hraise & Hflag & _); [reflexivity | reflexivity | reflexivity |].
  split; [exact Hraise | exact Hflag].
Defined.

(** ** The stores a request commits *)

(** The iterations of the Executor commit stores that differ from the one
    they start on by the [tasks] and [logs] tables only. *)
Lemma loop_world_history env project_title run_id tasks0 ctx w :
  exists hs,
    history (loop_world env project_title run_id tasks0 ctx w) = (history w ++ hs)%list
    /\ Forall (fun st => runs st = runs (working w)) hs.
Proof.
  revert ctx w. induction tasks0 as [|[id t] tasks0 IH]; intros ctx w; cbn [loop_world].
  - exists []. split; [now rewrite app_nil_r | constructor].
  - set (res := step_result env id (calls w)).
    destruct (IH (context_after ctx t res)
                (world_after project_title run_id id t ctx res w)) as (hs & Hh & Hruns).
    exists (commits_after run_id id t res (working w) ++ hs)%list. split.
    + rewrite Hh. unfold world_after. destruct (was_called res); cbn [history];
        now rewrite app_assoc.
    + apply Forall_app. split.
      * unfold commits_after. destruct res as [content usage|e [|] [content|]];
          repeat constructor.
      * rewrite working_world_after in Hruns. exact Hruns.
Qed.

Lemma summarize_run_eq (run_id user_id : nat) (s : Store) :
  summarize_run run_id user_id (open_session s) =
    match find_run s run_id user_id with
    | None => (Raise (HTTPException 404 "Run not found"), open_session s)
    | Some (r, p) =>
        match run_tasks s run_id with
        | [] => (Raise (HTTPException 400 "No tasks to summarize"), open_session s)
        | _ :: _ =>
            let summary :=
              ReporterAgent_run (p_title p)
                (map (fun it => task_dict (snd it)) (run_tasks s run_id)) in
            let s' := upd_runs (alter (set_r_status RSummarized) run_id)
                        (upd_runs (alter (set_r_final_summary (Some summary)) run_id) s) in
            (Ok (run_id, RSummarized, summary), mkWorld s' s' 0 [] [s'])
        end
    end.
Proof.
  unfold summarize_run, open_session, bind, read. cbn [working].
  destruct (find_run s run_id user_id) as [[r p]|]; [|reflexivity].
  cbn [working]. destruct (run_tasks s run_id) as [|task ts]; reflexivity.
Qed.

Lemma last_app_two {A} (l : list A) (a b d : A) : List.last (l ++ [a; b]) d = b.
Proof.
  replace (l ++ [a; b])%list with ((l ++ [a]) ++ [b])%list by now rewrite <- app_assoc.
  apply last_last.
Qed.

(** A request leaves the last store it committed, or the store it found. *)
Lemma serve_last (lib : Builtins) (env : Env) (req : Request) (s : Store) :
  snd (serve lib env req s) = List.last (commits lib env req s) s.
Proof.
  destruct req as [project_id user_id|run_id user_id|run_id user_id];
    unfold serve, commits.
  - destruct (create_and_plan_run env lib project_id user_id (open_session s))
      as [r w'] eqn:Hrun.
    apply create_and_plan_cases in Hrun. cbn zeta in Hrun. cbn [snd].
    destruct Hrun as [[-> _]|[(p & e & _ & _ & _ & _ & -> & ->)
                             |(p & pr & wp & _ & _ & _ & _ & _ & -> & _)]].
    + reflexivity.
    + reflexivity.
    + now rewrite last_last.
  - rewrite execute_run_eq.
    destruct (find_run s run_id user_id) as [[r p]|]; [|reflexivity].
    destruct (r_is_locked r); [reflexivity|].
    destruct (pending_tasks s run_id); [reflexivity|].
    cbn [snd committed history].
    symmetry. apply last_app_two.
  - rewrite summarize_run_eq.
    destruct (find_run s run_id user_id) as [[r p]|]; [|reflexivity].
    destruct (run_tasks s run_id); reflexivity.
Qed.

(** ** The [runs] table along the commits of a request

    [R] relates each committed [runs] table to the next one, provided it
    holds of the steps the handlers make. *)
Section CommitChain.

Variable R : gmap nat Run -> gmap nat Run -> Prop.
Hypothesis R_refl : forall m, R m m.
Hypothesis R_flag : forall m run_id b, R m (alter (set_r_is_locked b) run_id m).
Hypothesis R_archive : forall m project_id, R m (archive_run project_id <$> m).
Hypothesis R_insert : forall m project_id,
  let m2 := archive_run project_id <$> m in
  R m2 (<[fresh (dom m2) := mkRun project_id RCreated None false false]> m2).
Hypothesis R_planned : forall m project_id,
  let m2 := archive_run project_id <$> m in
  let m3 := <[fresh (dom m2) := mkRun project_id RCreated None false false]> m2 in
  R m3 (alter (set_r_status RPlanned) (fresh (dom m2)) m3).
Hypothesis R_summarized : forall m run_id x,
  R m (alter (set_r_status RSummarized) run_id
         (alter (set_r_final_summary x) run_id m)).
Hypothesis R_completed : forall m run_id,
  R (alter (set_r_status RRunning) run_id m)
    (alter (set_r_status RCompleted) run_id (alter (set_r_status RRunning) run_id m)).

Lemma sorted_constant_run (b : gmap nat Run) (hs rest : list (gmap nat Run)) :
  Forall (fun m => m = b) hs ->
  Sorted R (b :: rest) ->
  Sorted R (b :: hs ++ rest).
Proof.
  induction hs as [|h hs IH]; intros Hall Hrest; cbn [app].
  - exact Hrest.
  - apply Forall_cons in Hall as [-> Hall].
    constructor; [now apply IH | constructor; apply R_refl].
Qed.

Lemma commits_chain (lib : Builtins) (env : Env) (req : Request) (s : Store) :
  (forall run_id user_id, req = Execute run_id user_id ->
     let m1 := alter (set_r_is_locked true) run_id (runs s) in
     R m1 (alter (set_r_status RRunning) run_id m1)) ->
  Sorted R (runs s :: map runs (commits lib env req s)).
Proof.
  intros Hrunning.
  destruct req as [project_id user_id|run_id user_id|run_id user_id]; unfold commits.
  - destruct (create_and_plan_run env lib project_id user_id (open_session s))
      as [r w'] eqn:Hrun.
    apply create_and_plan_cases in Hrun. cbn zeta in Hrun. cbn [snd].
    destruct Hrun as [[-> _]|[(p & e & _ & _ & _ & _ & _ & ->)
                             |(p & pr & wp & _ & _ & _ & Hplan & Hc & -> & _)]].
    + repeat constructor.
    + cbn. repeat constructor. apply R_refl.
    + apply plan_frame in Hplan as (_ & _ & _ & Hplan). rewrite Hc.
      destruct pr as [ids|e]; destruct Hplan as (Hruns & _ & ->);
        cbn [history]; rewrite ?map_app; cbn [map app upd_projects upd_runs runs];
        rewrite Hruns; cbn [runs upd_runs upd_projects];
        repeat (constructor; try apply R_refl; try apply R_archive;
                try apply R_insert; try apply R_planned).
  - rewrite execute_run_eq.
    destruct (find_run s run_id user_id) as [[r p]|]; [|repeat constructor].
    destruct (r_is_locked r); [repeat constructor|].
    destruct (pending_tasks s run_id) as [|task ts].
    { cbn. repeat (constructor; try apply R_flag). }
    cbn [snd history].
    match goal with |- context [loop_world env ?t run_id ?l ?c ?w0] =>
      destruct (loop_world_history env t run_id l c w0) as (hs & -> & Hhs);
      destruct (loop_world_runs env t run_id l c w0) as [Hruns _] end.
    cbn [history working] in *.
    rewrite !map_app. cbn [map app upd_runs runs]. rewrite Hruns. cbn [runs upd_runs].
    constructor; [|constructor; apply R_flag].
    constructor; [|constructor; now apply (Hrunning run_id user_id)].
    apply sorted_constant_run.
    + apply Forall_fmap. eapply Forall_impl; [exact Hhs|]. intros st Hst. exact Hst.
    + repeat (constructor; try apply R_flag; try apply R_completed).
  - rewrite summarize_run_eq.
    destruct (find_run s run_id user_id) as [[r p]|]; [|repeat constructor].
    destruct (run_tasks s run_id); [repeat constructor|].
    cbn. repeat constructor. apply R_summarized.
Qed.

End CommitChain.

(** ** At most one active run per project *)

Lemma one_active_alter (f : Run -> Run) (i : nat) (m : gmap nat Run) :
  (forall r, r_project_id (f r) = r_project_id r /\ r_is_archived (f r) = r_is_archived r) ->
  one_active_run m -> one_active_run (alter f i m).
Proof.
  intros Hf Hm a b ra rb Ha Hb Hp Haa Hab.
  assert (Hrow : forall k rk, alter f i m !! k = Some rk ->
            exists r, m !! k = Some r /\ r_project_id rk = r_project_id r
                      /\ r_is_archived rk = r_is_archived r).
  { intros k rk Hk. destruct (decide (i = k)) as [->|Hne].
    - rewrite lookup_alter_eq in Hk. destruct (m !! k) as [r|]; [|discriminate].
      injection Hk as <-. exists r. destruct (Hf r). done.
    - rewrite lookup_alter_ne in Hk by done. exists rk. done. }
  destruct (Hrow _ _ Ha) as (ra' & Ha' & Hpa & Hza).
  destruct (Hrow _ _ Hb) as (rb' & Hb' & Hpb & Hzb).
  apply (Hm a b ra' rb'); congruence.
Qed.

Lemma archive_run_spec project_id r :
  r_project_id (archive_run project_id r) = r_project_id r
  /\ (r_is_archived (archive_run project_id r) = false ->
      r_is_archived r = false /\ r_project_id r <> project_id)
  /\ (r_project_id r = project_id -> r_is_archived (archive_run project_id r) = true)
  /\ r_status (archive_run project_id r) = r_status r.
Proof.
  unfold archive_run.
  destruct (r_project_id r =? project_id)%nat eqn:Hp; destruct (r_is_archived r) eqn:Ha;
    cbn; rewrite ?Ha; repeat split; try congruence;
    try (apply Nat.eqb_neq in Hp); try (apply Nat.eqb_eq in Hp); intros; congruence.
Qed.

Lemma one_active_archive project_id (m : gmap nat Run) :
  one_active_run m -> one_active_run (archive_run project_id <$> m).
Proof.
  intros Hm a b ra rb Ha Hb Hp Haa Hab.
  rewrite lookup_fmap in Ha, Hb.
  destruct (m !! a) as [ra'|] eqn:Ha'; [|discriminate]. injection Ha as <-.
  destruct (m !! b) as [rb'|] eqn:Hb'; [|discriminate]. injection Hb as <-.
  destruct (archive_run_spec project_id ra') as (Hpa & Hza & _).
  destruct (archive_run_spec project_id rb') as (Hpb & Hzb & _).
  apply (Hm a b ra' rb'); try done; try congruence; tauto.
Qed.

Lemma one_active_insert project_id (m : gmap nat Run) (run_id : nat) (r : Run) :
  let m2 := archive_run project_id <$> m in
  r_project_id r = project_id ->
  one_active_run m2 -> one_active_run (<[run_id := r]> m2).
Proof.
  intros m2 Hr Hm a b ra rb Ha Hb Hp Haa Hab.
  assert (Hold : forall k rk, m2 !! k = Some rk -> r_is_archived rk = false ->
                   r_project_id rk <> project_id).
  { intros k rk Hk Hz. unfold m2 in Hk. rewrite lookup_fmap in Hk.
    destruct (m !! k) as [r0|]; [|discriminate]. injection Hk as <-.
    destruct (archive_run_spec project_id r0) as (Hp0 & Hz0 & _).
    rewrite Hp0. tauto. }
  destruct (decide (run_id = a)) as [->|Hna]; destruct (decide (a = b)) as [->|Hnb];
    try done.
  - rewrite lookup_insert_eq in Ha. injection Ha as <-.
    rewrite lookup_insert_ne in Hb by done.
    exfalso. apply (Hold _ _ Hb Hab). congruence.
  - rewrite lookup_insert_ne in Ha by done.
    destruct (decide (run_id = b)) as [->|Hne].
    + rewrite lookup_insert_eq in Hb. injection Hb as <-.
      exfalso. apply (Hold _ _ Ha Haa). congruence.
    + rewrite lookup_insert_ne in Hb by done. now apply (Hm a b ra rb).
Qed.

Lemma sorted_preserves (P : gmap nat Run -> Prop) (a : gmap nat Run)
    (l : list (gmap nat Run)) :
  Sorted (fun m m' => P m -> P m') (a :: l) -> P a -> Forall P l.
Proof.
  revert a. induction l as [|b l IH]; intros a Hs Ha; [constructor|].
  apply Sorted_inv in Hs as [Hs Hhd]. apply HdRel_inv in Hhd.
  constructor; [auto | apply (IH b); auto].
Qed.

(** One request keeps the invariant, at each of its commits. *)
Lemma commits_one_active (lib : Builtins) (env : Env) (req : Request) (s : Store) :
  at_most_one_active s ->
  Forall at_most_one_active (commits lib env req s)
  /\ at_most_one_active (snd (serve lib env req s)).
Proof.
  intros Hs.
  assert (Hall : Forall at_most_one_active (commits lib env req s)).
  { assert (H : Forall one_active_run (runs <$> commits lib env req s));
      [|apply Forall_forall; intros st Hin; rewrite Forall_forall in H;
        apply (H (runs st)); now apply list_elem_of_fmap_2].
    apply (sorted_preserves one_active_run (runs s)); [|exact Hs].
    apply commits_chain; intros.
    - done.
    - now apply one_active_alter.
    - now apply one_active_archive.
    - now apply one_active_insert.
    - now apply one_active_alter.
    - intros Hm. apply one_active_alter; [done|]. now apply one_active_alter.
    - now apply one_active_alter.
    - now apply one_active_alter. }
  split; [exact Hall|].
  rewrite serve_last.
  destruct (commits lib env req s) as [|c cs] eqn:Hcs using rev_ind; [exact Hs|].
  rewrite last_last. apply Forall_app in Hall as [_ Hall].
  now apply Forall_cons in Hall as [? _].
Qed.

Lemma timeline_one_active (lib : Builtins) (reqs : list (Request * Env)) (s : Store) :
  at_most_one_active s ->
  Forall at_most_one_active (timeline lib reqs s)
  /\ at_most_one_active (serve_all lib reqs s).
Proof.
  revert s. induction reqs as [|[req env] reqs IH]; intros s Hs; cbn [timeline serve_all].
  - split; [constructor | exact Hs].
  - destruct (commits_one_active lib env req s Hs) as [Hc Hnext].
    destruct (IH _ Hnext) as [Ht Hfinal].
    split; [apply Forall_app; split; assumption | exact Hfinal].
Qed.

Lemma all_archived_archive project_id (st : Store) (m : gmap nat Run) :
  runs st = archive_run project_id <$> m -> all_archived project_id st.
Proof.
  intros Hruns j r Hj Hp. rewrite Hruns, lookup_fmap in Hj.
  destruct (m !! j) as [r0|]; [|discriminate]. injection Hj as <-.
  destruct (archive_run_spec project_id r0) as (Hp0 & _ & Harch & _).
  apply Harch. congruence.
Qed.

Lemma only_active_insert project_id run_id (st : Store) (m : gmap nat Run) :
  runs st = <[run_id := mkRun project_id RCreated None false false]>
              (archive_run project_id <$> m) ->
  only_active project_id run_id st.
Proof.
  intros Hruns. split.
  - eexists. rewrite Hruns, lookup_insert_eq. done.
  - intros j r Hj Hp Ha. destruct (decide (run_id = j)) as [->|Hne]; [done|].
    rewrite Hruns, lookup_insert_ne, lookup_fmap in Hj by done.
    destruct (m !! j) as [r0|]; [|discriminate]. injection Hj as <-.
    destruct (archive_run_spec project_id r0) as (Hp0 & _ & Harch & _).
    rewrite Harch in Ha by congruence. discriminate.
Qed.

Lemma only_active_alter project_id run_id (f : Run -> Run) (st st' : Store) :
  (forall r, r_project_id (f r) = r_project_id r /\ r_is_archived (f r) = r_is_archived r) ->
  runs st' = alter f run_id (runs st) ->
  only_active project_id run_id st -> only_active project_id run_id st'.
Proof.
  intros Hf Hruns [(r & Hr & Hp & Ha) Honly]. split.
  - exists (f r). rewrite Hruns, lookup_alter_eq, Hr. destruct (Hf r) as [-> ->]. done.
  - intros j rj Hj Hpj Haj. destruct (decide (run_id = j)) as [->|Hne]; [done|].
    rewrite Hruns, lookup_alter_ne in Hj by done. now apply (Honly j rj).
Qed.

(** C1.  From a store with at most one non-archived run per project, every
    store committed while any sequence of requests is served, and the store
    the sequence leaves, has at most one non-archived run per project.  And a
    successful create-and-plan request on a project commits, in this order:
    the lock; then a store in which every run of the project is archived and
    the new run does not exist yet; then stores, the last being the one it
    leaves, in which the new run is the only non-archived run of the
    project. *)
Theorem one_active_run_at_any_time (lib : Builtins) (reqs : list (Request * Env))
    (s : Store) :
  (at_most_one_active s ->
   Forall at_most_one_active (timeline lib reqs s)
   /\ at_most_one_active (serve_all lib reqs s))
  /\ forall env project_id user_id,
       fst (serve lib env (CreateAndPlan project_id user_id) s) = None ->
       exists run_id locked archived rest,
         commits lib env (CreateAndPlan project_id user_id) s = locked :: archived :: rest
         /\ runs s !! run_id = None
         /\ runs archived !! run_id = None
         /\ all_archived project_id archived
         /\ rest <> []
         /\ Forall (only_active project_id run_id) rest
         /\ only_active project_id run_id
              (snd (serve lib env (CreateAndPlan project_id user_id) s)).
Proof.
  split; [apply timeline_one_active|].
  intros env project_id user_id Hok.
  assert (Hlast := serve_last lib env (CreateAndPlan project_id user_id) s).
  unfold serve, commits in *.
  destruct (create_and_plan_run env lib project_id user_id (open_session s))
    as [r w'] eqn:Hrun.
  apply create_and_plan_cases in Hrun. cbn zeta in Hrun. cbn [fst snd] in *.
  destruct Hrun as [[_ [[_ ->]|(p & _ & _ & ->)]]
                   |[(p & e & _ & _ & _ & -> & _)
                    |(p & pr & wp & _ & _ & _ & Hplan & Hc & Hh & Hout)]];
    try discriminate.
  rewrite Hok in Hout. destruct pr as [ids|e]; [|discriminate].
  apply plan_frame in Hplan as (_ & _ & _ & Hruns & _ & Hhp).
  cbn [working history runs upd_runs upd_projects] in Hruns, Hhp.
  set (m2 := archive_run project_id <$> runs s) in *.
  set (run_id := fresh (dom m2)) in *.
  assert (Hfresh : m2 !! run_id = None).
  { apply not_elem_of_dom. apply is_fresh. }
  pose (s3 := upd_runs (insert run_id (mkRun project_id RCreated None false false))
                (upd_runs (fmap (archive_run project_id))
                   (upd_projects (alter (set_p_is_locked true) project_id) s))).
  assert (H3 : only_active project_id run_id s3).
  { apply (only_active_insert _ _ _ (runs s)). reflexivity. }
  assert (H4 : only_active project_id run_id (working wp)).
  { apply (only_active_alter _ _ (set_r_status RPlanned) s3);
      [done | exact Hruns | exact H3]. }
  assert (H5 : only_active project_id run_id (committed w')).
  { rewrite Hc.
    apply (only_active_alter _ _ (fun r => r) (working wp)); [done| |exact H4].
    cbn. apply map_eq. intros j. destruct (decide (run_id = j)) as [->|Hne].
    - rewrite lookup_alter_eq. now destruct (runs (working wp) !! j).
    - now rewrite lookup_alter_ne. }
  exists run_id. eexists _, _, _.
  split; [rewrite Hh, Hhp; cbn [app]; reflexivity|].
  split.
  { unfold m2 in Hfresh. rewrite lookup_fmap in Hfresh.
    now destruct (runs s !! run_id). }
  split; [exact Hfresh|].
  split; [now apply (all_archived_archive _ _ (runs s))|].
  split; [discriminate|].
  split; [|exact H5].
  constructor; [exact H3|]. constructor; [exact H4|]. constructor; [exact H5|].
  constructor.
Qed.

Lemma one_active_run_at_any_time_witness :
  let reqs := [(CreateAndPlan 1 7, Demo.env_of [Demo.says Demo.plan_text]);
               (CreateAndPlan 1 7, Demo.env_of [Demo.says Demo.plan_text])] in
  (Forall at_most_one_active (timeline Fixture.lib reqs Demo.store0)
   /\ at_most_one_active (serve_all Fixture.lib reqs Demo.store0))
  /\ exists run_id,
       only_active 1 run_id
         (snd (serve Fixture.lib (Demo.env_of [Demo.says Demo.plan_text])
                 (CreateAndPlan 1 7) Demo.store0)).
Proof.
  cbn zeta.
  destruct (one_active_run_at_any_time Fixture.lib
              [(CreateAndPlan 1 7, Demo.env_of [Demo.says Demo.plan_text]);
               (CreateAndPlan 1 7, Demo.env_of [Demo.says Demo.plan_text])]
              Demo.store0) as [Hinv Hcreate].
  split.
  - apply Hinv. intros i j ri rj Hi.
    change (runs Demo.store0) with (∅ : gmap nat Run) in Hi.
    rewrite lookup_empty in Hi. discriminate.
  - destruct (Hcreate (Demo.env_of [Demo.says Demo.plan_text]) 1%nat 7%nat)
      as (run_id & locked & archived & rest & _ & _ & _ & _ & _ & _ & Honly).
    + vm_compute. reflexivity.
    + exists run_id. exact Honly.
Defined.

(** ** The status of a run along the commits *)

#[local] Instance forward_refl : Reflexive forward.
Proof. intros m run_id. lia. Qed.

#[local] Instance forward_trans : Transitive forward.
Proof. intros a b c Hab Hbc run_id. specialize (Hab run_id). specialize (Hbc run_id). lia. Qed.

Lemma status_rank_le (st : RunStatus) : (status_rank st <= status_rank RSummarized)%nat.
Proof. destruct st; cbn; lia. Qed.

Lemma forward_alter (f : Run -> Run) (i : nat) (m : gmap nat Run) :
  (forall r, m !! i = Some r ->
     (status_rank (r_status r) <= status_rank (r_status (f r)))%nat) ->
  forward m (alter f i m).
Proof.
  intros Hf j. unfold rank_of. destruct (decide (i = j)) as [->|Hne].
  - rewrite lookup_alter_eq. destruct (m !! j) as [r|] eqn:Hj; cbn; [now apply Hf | lia].
  - rewrite lookup_alter_ne by done. lia.
Qed.

Lemma forward_archive project_id (m : gmap nat Run) :
  forward m (archive_run project_id <$> m).
Proof.
  intros j. unfold rank_of. rewrite lookup_fmap. destruct (m !! j) as [r|]; cbn; [|lia].
  destruct (archive_run_spec project_id r) as (_ & _ & _ & ->). lia.
Qed.

Lemma forward_insert (i : nat) (r : Run) (m : gmap nat Run) :
  m !! i = None -> forward m (<[i := r]> m).
Proof.
  intros Hi j. unfold rank_of. destruct (decide (i = j)) as [->|Hne].
  - rewrite Hi. lia.
  - rewrite lookup_insert_ne by done. lia.
Qed.

Lemma last_cons_default {A} (b : A) (l : list A) (a c : A) :
  List.last (b :: l) a = List.last (b :: l) c.
Proof.
  revert b. induction l as [|x l IH]; intros b; [reflexivity|].
  change (List.last (x :: l) a = List.last (x :: l) c). apply IH.
Qed.

Lemma sorted_app_last {A} (R : A -> A -> Prop) (a : A) (l1 l2 : list A) :
  Sorted R (a :: l1) -> Sorted R (List.last l1 a :: l2) -> Sorted R (a :: l1 ++ l2).
Proof.
  revert a. induction l1 as [|b l1 IH]; intros a H1 H2; cbn [app].
  - exact H2.
  - apply Sorted_inv in H1 as [H1 Hhd]. apply HdRel_inv in Hhd.
    constructor; [|now constructor].
    apply IH; [exact H1|].
    destruct l1 as [|x l1]; [exact H2|].
    rewrite (last_cons_default x l1 b a). exact H2.
Qed.

Lemma last_fmap {A B} (f : A -> B) (l : list A) (a : A) :
  List.last (map f l) (f a) = f (List.last l a).
Proof.
  induction l as [|b l IH]; [reflexivity|].
  destruct l as [|c l]; [reflexivity|]. exact IH.
Qed.

(** One request moves no status back, commit after commit, when it is not
    the execution of a run already completed. *)
Lemma commits_forward (lib : Builtins) (env : Env) (req : Request) (s : Store) :
  first_execution s req ->
  Sorted forward (runs s :: map runs (commits lib env req s)).
Proof.
  intros Hfirst. apply commits_chain.
  - apply forward_refl.
  - intros m run_id b. apply forward_alter. intros r _. cbn. lia.
  - intros m project_id. apply forward_archive.
  - intros m project_id m2. apply forward_insert.
    apply not_elem_of_dom, is_fresh.
  - intros m project_id m2 m3. apply forward_alter. intros r Hr.
    unfold m3 in Hr. rewrite lookup_insert_eq in Hr. injection Hr as <-. cbn. lia.
  - intros m run_id x. intros j. unfold rank_of. destruct (decide (run_id = j)) as [->|Hne].
    + rewrite !lookup_alter_eq. destruct (m !! j) as [r|]; cbn; [|lia].
      apply (status_rank_le (r_status r)).
    + rewrite !lookup_alter_ne by done. lia.
  - intros m run_id. apply forward_alter. intros r Hr.
    rewrite lookup_alter_eq in Hr. destruct (m !! run_id); [|discriminate].
    injection Hr as <-. cbn. lia.
  - intros run_id user_id -> m1. apply forward_alter. intros r Hr.
    unfold m1 in Hr. rewrite lookup_alter_eq in Hr.
    cbn in Hfirst. unfold rank_of in Hfirst.
    destruct (runs s !! run_id) as [r0|]; [|discriminate].
    injection Hr as <-. cbn in *. lia.
Qed.

(** C7, amended.  Over every sequence of create-and-plan, execute and
    summarize requests in which no execute request names a run that is
    already ["completed"] or ["summarized"], the status of every run only
    moves forward through created, planned, running, completed, summarized:
    of any two stores committed while the sequence is served (the initial
    store included), the later one holds no run at an earlier status. *)
Theorem run_status_forward (lib : Builtins) (reqs : list (Request * Env)) (s : Store) :
  first_executions lib reqs s ->
  StronglySorted forward (map runs (s :: timeline lib reqs s)).
Proof.
  intros Hfirst. apply Sorted_StronglySorted; [apply forward_trans|].
  revert s Hfirst. induction reqs as [|[req env] reqs IH]; intros s Hfirst;
    cbn [timeline map].
  - repeat constructor.
  - destruct Hfirst as [Hreq Hrest]. rewrite map_app.
    apply sorted_app_last; [now apply commits_forward|].
    rewrite last_fmap, <- serve_last. apply (IH _ Hrest).
Qed.

Lemma run_status_forward_witness :
  StronglySorted forward
    (map runs
       (Demo.store0 ::
        timeline Fixture.lib
          [(CreateAndPlan 1 7, Demo.env_of [Demo.says Demo.plan_text]);
           (Execute 0 7, Demo.env_of [Demo.says "schema.sql"; Failure Demo.unavailable]);
           (Summarize 0 7, Demo.env_of [])]
          Demo.store0)).
Proof.
  apply (run_status_forward Fixture.lib
           [(CreateAndPlan 1 7, Demo.env_of [Demo.says Demo.plan_text]);
            (Execute 0 7, Demo.env_of [Demo.says "schema.sql"; Failure Demo.unavailable]);
            (Summarize 0 7, Demo.env_of [])]
           Demo.store0).
  vm_compute. repeat split. repeat constructor.
Defined.

(** C7 as stated fails: after a run was planned, executed with one task
    failing, and summarized, a further execute request resumes the pending
    task and leaves the run ["completed"], behind ["summarized"]. *)
Lemma run_status_moves_back :
  let s3 :=
    serve_all Fixture.lib
      [(CreateAndPlan 1 7, Demo.env_of [Demo.says Demo.plan_text]);
       (Execute 0 7, Demo.env_of [Demo.says "schema.sql"; Failure Demo.unavailable]);
       (Summarize 0 7, Demo.env_of [])]
      Demo.store0 in
  let s4 := snd (serve Fixture.lib (Demo.env_of [Demo.says "api.py"]) (Execute 0 7) s3) in
  r_status <$> runs s3 !! 0%nat = Some RSummarized
  /\ r_status <$> runs s4 !! 0%nat = Some RCompleted
  /\ ~ forward (runs s3) (runs s4).
Proof.
  cbn zeta. split; [vm_compute; reflexivity|]. split; [vm_compute; reflexivity|].
  intros H. specialize (H 0%nat). vm_compute in H.
  repeat match goal with H : (_ <= _)%nat |- _ => inversion H; clear H end.
Qed.

(** ** The Planner: the tasks it creates *)

Lemma add_rows_spec (rows : list Task) (m : gmap nat Task) :
  let ids := fst (add_rows rows m) in
  let m' := snd (add_rows rows m) in
  NoDup ids
  /\ Forall2 (fun id row => m' !! id = Some row /\ m !! id = None) ids rows
  /\ forall j, j ∉ ids -> m' !! j = m !! j.
Proof.
  cbn zeta. revert m. induction rows as [|row rows IH]; intros m; cbn [add_rows].
  - cbn. split; [apply NoDup_nil_2|]. split; [apply Forall2_nil_2|]. done.
  - set (id := fresh (dom m)).
    assert (Hfresh : m !! id = None) by apply not_elem_of_dom, is_fresh.
    specialize (IH (<[id := row]> m)).
    destruct (add_rows rows (<[id := row]> m)) as [ids m'] eqn:Hadd. cbn [fst snd] in *.
    destruct IH as (Hnd & Hrows & Hframe).
    assert (Hnotin : id ∉ ids).
    { intros Hin. apply list_elem_of_lookup in Hin as [k Hk].
      destruct (Forall2_lookup_l _ _ _ _ _ Hrows Hk) as (row' & _ & _ & Hnone).
      rewrite lookup_insert_eq in Hnone. discriminate. }
    split; [constructor; assumption|]. split.
    + constructor.
      * split; [|exact Hfresh]. rewrite Hframe by exact Hnotin. apply lookup_insert_eq.
      * eapply Forall2_impl; [exact Hrows|]. intros j rj [Hj Hnone]. split; [exact Hj|].
        destruct (decide (id = j)) as [->|Hne].
        -- rewrite lookup_insert_eq in Hnone. discriminate.
        -- now rewrite lookup_insert_ne in Hnone.
    + intros j Hj. apply not_elem_of_cons in Hj as [Hne Hj].
      rewrite Hframe by exact Hj. now rewrite lookup_insert_ne.
Qed.

Lemma planned_tasks_cons (lib : Builtins) (run_id : nat) (t : json) (ts : list json) :
  planned_tasks lib run_id (t :: ts) =
    match planned_task lib run_id t with
    | Some row => row :: planned_tasks lib run_id ts
    | None => planned_tasks lib run_id ts
    end.
Proof. reflexivity. Qed.

(** On accepted elements the loop returns, having added the planned rows. *)
Lemma create_tasks_ok (lib : Builtins) (run_id : nat) (ts : list json)
    (created : list nat) (w : World) :
  Forall (accepted lib) ts ->
  create_tasks lib run_id ts created w =
    (Ok (created ++ fst (add_rows (planned_tasks lib run_id ts) (tasks (working w))))%list,
     mkWorld (committed w)
       (upd_tasks (fun m => snd (add_rows (planned_tasks lib run_id ts) m)) (working w))
       (calls w) (prompts w) (history w)).
Proof.
  revert created w. induction ts as [|t ts IH]; intros created w Hts.
  - cbn. rewrite app_nil_r. destruct w as [cm [ps rs tk lg] k pr hs]. reflexivity.
  - apply Forall_cons in Hts as [(items & -> & Hint) Hts].
    rewrite planned_tasks_cons.
    cbn [create_tasks]. unfold bind, lift, py_in, py_getitem, planned_task.
    cbn [element_fields].
    destruct (dict_get "order_index" items) as [v_index|] eqn:Hidx; cbn [negb].
    2:{ now apply IH. }
    destruct (dict_get "input" items) as [v_input|] eqn:Hinp; cbn [negb].
    2:{ now apply IH. }
    destruct (Hint v_index eq_refl (mk_is_Some _ _ eq_refl)) as [n Hn]. rewrite Hn.
    unfold db_add_task. rewrite IH by exact Hts.
    cbn [working committed calls prompts history add_rows].
    unfold upd_tasks. cbn [projects runs tasks logs].
    destruct (add_rows (planned_tasks lib run_id ts)
                (<[fresh (dom (tasks (working w))):=
                     mkTask run_id "executor" TPending
                       (PyStr.take 4000 (py_str lib v_input)) None n]>
                   (tasks (working w)))) as [ids m'].
    cbn. rewrite <- app_assoc. reflexivity.
Qed.

Lemma store_plan_ok (lib : Builtins) (run_id : nat) (data : json) (elements : list json)
    (w : World) :
  py_get_tasks data = Ok (Some (JList elements)) ->
  elements <> [] ->
  Forall (accepted lib) elements ->
  store_plan lib run_id data w =
    (Ok (fst (add_rows (planned_tasks lib run_id elements) (tasks (working w)))),
     planned_world run_id (planned_tasks lib run_id elements) w).
Proof.
  intros Hget Hne Hacc. unfold store_plan, bind, lift. rewrite Hget.
  destruct elements as [|t ts]; [done|].
  rewrite create_tasks_ok by exact Hacc. reflexivity.
Qed.

Lemma take_length (n : nat) (s : string) : (String.length (PyStr.take n s) <= n)%nat.
Proof.
  unfold PyStr.take. revert n. induction s as [|c s IH]; intros n.
  - destruct n; cbn; lia.
  - destruct n as [|n]; [cbn; lia|].
    change (S (String.length (substring 0 n s)) <= S n)%nat.
    specialize (IH n). lia.
Qed.

(** The planned rows, element by element. *)
Lemma planned_tasks_spec (lib : Builtins) (run_id : nat) (ts : list json) :
  Forall (accepted lib) ts ->
  Forall2
    (fun (fields : json * json) row =>
       t_run_id row = run_id /\ t_agent_type row = "executor" /\ t_status row = TPending
       /\ t_output row = None
       /\ t_input row = PyStr.take 4000 (py_str lib (fst fields))
       /\ py_int lib (snd fields) = Ok (t_order_index row))
    (omap element_fields ts) (planned_tasks lib run_id ts).
Proof.
  induction ts as [|t ts IH]; intros Hts; [constructor|].
  apply Forall_cons in Hts as [(items & -> & Hint) Hts].
  rewrite planned_tasks_cons. unfold planned_task. cbn [omap list_omap element_fields].
  destruct (dict_get "order_index" items) as [v_index|] eqn:Hidx; [|now apply IH].
  destruct (dict_get "input" items) as [v_input|] eqn:Hinp; [|now apply IH].
  destruct (Hint v_index eq_refl (mk_is_Some _ _ eq_refl)) as [n Hn]. rewrite Hn.
  constructor; [cbn; done | now apply IH].
Qed.

(** With a first answer that decodes, the Planner goes straight to the tasks. *)
Lemma plan_first_answer env lib run_id project_title project_description w
    content usage data :
  completion env (calls w) = Reply content usage ->
  json_loads lib content = Some data ->
  PlannerAgent_plan env lib run_id project_title project_description w =
    store_plan lib run_id data
      (after_call (base_prompt project_title project_description) w).
Proof.
  intros Hc Hj. unfold PlannerAgent_plan, bind, generate_completion. rewrite Hc.
  cbn [fst refine MAX_REFINES]. rewrite Hj. unfold ret. rewrite Hj. reflexivity.
Qed.

(** C8, amended.  When the first answer of the completion service decodes to
    an object whose ["tasks"] is a non-empty list of objects, [int] accepts
    the ["order_index"] of every element that carries both keys, and the
    integers it gives fit the [Integer] column, the Planner returns normally,
    having added one row per element that carries both keys, in order and
    under fresh keys: status ["pending"], agent type ["executor"], no output,
    the input [str(t["input"])] cut at 4000 characters, the order index
    [int(t["order_index"])]; the elements lacking a key add nothing; no
    other row changes; the run is marked ["planned"] and all of it is
    committed.  And whenever the Planner raises, the status of the run is
    the one it found and nothing was committed. *)
Theorem planner_creates_tasks (env : Env) (lib : Builtins) (run_id : nat)
    (project_title : string) (project_description : option string) (w : World)
    (content : string) (usage : option Z) (data : json) (elements : list json) :
  (completion env (calls w) = Reply content usage ->
   json_loads lib content = Some data ->
   py_get_tasks data = Ok (Some (JList elements)) ->
   elements <> [] ->
   Forall (accepted lib) elements ->
   Forall (fun row => fits_integer_column (t_order_index row))
     (planned_tasks lib run_id elements) ->
   exists ids rows w',
     PlannerAgent_plan env lib run_id project_title project_description w = (Ok ids, w')
     /\ rows = planned_tasks lib run_id elements
     /\ NoDup ids
     /\ Forall2 (fun id row => tasks (working w') !! id = Some row
                               /\ tasks (working w) !! id = None) ids rows
     /\ (forall j, j ∉ ids -> tasks (working w') !! j = tasks (working w) !! j)
     /\ Forall2
          (fun (fields : json * json) row =>
             t_run_id row = run_id /\ t_agent_type row = "executor"
             /\ t_status row = TPending /\ t_output row = None
             /\ t_input row = PyStr.take 4000 (py_str lib (fst fields))
             /\ py_int lib (snd fields) = Ok (t_order_index row))
          (omap element_fields elements) rows
     /\ Forall (fun row => (String.length (t_input row) <= 4000)%nat) rows
     /\ runs (working w') = alter (set_r_status RPlanned) run_id (runs (working w))
     /\ committed w' = working w')
  /\ forall e w',
       PlannerAgent_plan env lib run_id project_title project_description w = (Raise e, w') ->
       runs (working w') = runs (working w) /\ committed w' = committed w
       /\ history w' = history w.
Proof.
  split.
  - intros Hc Hj Hget Hne Hacc _.
    rewrite (plan_first_answer _ _ _ _ _ _ _ _ _ Hc Hj).
    rewrite (store_plan_ok _ _ _ _ _ Hget Hne Hacc).
    set (rows := planned_tasks lib run_id elements).
    destruct (add_rows_spec rows (tasks (working w))) as (Hnd & Hrows & Hframe).
    eexists _, rows, _. split; [reflexivity|]. split; [reflexivity|].
    split; [exact Hnd|]. split; [exact Hrows|]. split; [exact Hframe|].
    pose proof (planned_tasks_spec lib run_id elements Hacc) as Hspec.
    split; [exact Hspec|]. split.
    + eapply Forall2_Forall_r; [exact Hspec|].
      apply Forall_forall. intros fields _ row (_ & _ & _ & _ & -> & _).
      apply take_length.
    + split; reflexivity.
  - intros e w' Hplan. apply plan_frame in Hplan as (_ & _ & _ & Hcase). exact Hcase.
Qed.

Lemma planner_creates_tasks_witness :
  exists ids w',
    PlannerAgent_plan (Demo.env_of [Demo.says Demo.plan_text]) Fixture.lib 0 "Site"
      (Some "Build a site") (open_session Demo.store_created) = (Ok ids, w')
    /\ Forall2 (fun id row => tasks (working w') !! id = Some row) ids
         [Demo.task0; Demo.task1]
    /\ r_status <$> runs (working w') !! 0%nat = Some RPlanned.
Proof.
  destruct (planner_creates_tasks (Demo.env_of [Demo.says Demo.plan_text]) Fixture.lib 0
              "Site" (Some "Build a site") (open_session Demo.store_created)
              Demo.plan_text (Some 120)
              (JDict [("tasks", JList Demo.plan_elements)]) Demo.plan_elements)
    as [Hok _].
  destruct Hok as (ids & rows & w' & Hplan & _ & _ & Hrows & _ & Hspec & _ & Hruns & _).
  - reflexivity.
  - vm_compute. reflexivity.
  - reflexivity.
  - discriminate.
  - repeat constructor;
      (eexists; split; [reflexivity|]; intros v Hv _; injection Hv as <-;
       eexists; reflexivity).
  - repeat constructor; vm_compute; intuition discriminate.
  - exists ids, w'. split; [exact Hplan|].
    pose proof Hplan as Heq. vm_compute in Heq. injection Heq as <- <-.
    split; [|vm_compute; reflexivity].
    repeat constructor.
Defined.

(** C8 as stated fails: a plan that decodes, with a non-empty ["tasks"] list
    whose element carries both keys, makes the Planner raise [TypeError] when
    the order index is [null]; so does a plan whose element is a number,
    which is not skipped.  No task is stored and the run stays ["created"]. *)
Lemma planner_rejects_decoded_plan :
  let outcome_of content :=
    serve Fixture.lib (Demo.env_of [Demo.says content]) (CreateAndPlan 1 7) Demo.store0 in
  Fixture.loads Demo.plan_null_index =
    Some (JDict [("tasks",
                  JList [JDict [("order_index", JNull); ("input", JStr "Design schema")]])])
  /\ fst (outcome_of Demo.plan_null_index) =
       Some (PyError TypeError
               "int() argument must be a string, a bytes-like object or a real number")
  /\ map_to_list (tasks (snd (outcome_of Demo.plan_null_index))) = []
  /\ r_status <$> runs (snd (outcome_of Demo.plan_null_index)) !! 0%nat = Some RCreated
  /\ Fixture.loads Demo.plan_number = Some (JDict [("tasks", JList [JInt 7])])
  /\ fst (outcome_of Demo.plan_number) = Some (PyError TypeError "argument is not iterable").
Proof. cbn zeta. repeat split; vm_compute; reflexivity. Qed.

(** ** The Planner: the correction loop *)

Lemma malformed_answers_S env lib first count :
  malformed_answers env lib first (S count) ->
  (exists content usage,
     completion env first = Reply content usage /\ json_loads lib content = None)
  /\ malformed_answers env lib (S first) count.
Proof.
  intros H. split.
  - destruct (H 0%nat) as (c & u & Hc & Hj); [lia|].
    rewrite Nat.add_0_r in Hc. eauto.
  - intros k Hk. destruct (H (S k)) as (c & u & Hc & Hj); [lia|].
    replace (first + S k)%nat with (S first + k)%nat in Hc by lia. eauto.
Qed.

Lemma refine_valid env lib n current w data :
  json_loads lib current = Some data ->
  refine env lib n current w = (Ok current, w).
Proof. intros H. destruct n; cbn [refine]; [reflexivity | now rewrite H]. Qed.

Lemma refine_step env lib n current w content usage :
  json_loads lib current = None ->
  completion env (calls w) = Reply content usage ->
  refine env lib (S n) current w =
    refine env lib n content (after_call (fix_prompt current) w).
Proof.
  intros Hj Hc. cbn [refine]. rewrite Hj. unfold bind, generate_completion.
  rewrite Hc. reflexivity.
Qed.

(** [n] malformed answers in a row exhaust the [n] corrections. *)
Lemma refine_all_malformed env lib n current w :
  json_loads lib current = None ->
  malformed_answers env lib (calls w) n ->
  exists last w',
    refine env lib n current w = (Ok last, w')
    /\ json_loads lib last = None
    /\ same_stores w w' /\ calls w' = (calls w + n)%nat.
Proof.
  revert current w. induction n as [|n IH]; intros current w Hj Hm.
  - exists current, w. cbn. unfold same_stores. repeat split; [done | lia].
  - apply malformed_answers_S in Hm as [(c & u & Hc & Hjc) Hm].
    rewrite (refine_step _ _ _ _ _ _ _ Hj Hc).
    destruct (IH c (after_call (fix_prompt current) w) Hjc Hm)
      as (last & w' & Href & Hl & (Hw & Hcm & Hh) & Hk).
    exists last, w'. split; [exact Href|]. split; [exact Hl|].
    cbn in *. unfold same_stores. repeat split; try done. lia.
Qed.

(** The first answer that decodes, if it comes within the [n] corrections, is
    the one the loop returns. *)
Lemma refine_valid_at env lib n j current w content usage data :
  (j < n)%nat ->
  json_loads lib current = None ->
  malformed_answers env lib (calls w) j ->
  completion env (calls w + j) = Reply content usage ->
  json_loads lib content = Some data ->
  exists w',
    refine env lib n current w = (Ok content, w')
    /\ same_stores w w' /\ calls w' = (calls w + S j)%nat.
Proof.
  revert j current w. induction n as [|n IH]; intros j current w Hlt Hj Hm Hc Hd; [lia|].
  destruct j as [|j].
  - rewrite Nat.add_0_r in Hc. rewrite (refine_step _ _ _ _ _ _ _ Hj Hc).
    rewrite (refine_valid _ _ _ _ _ _ Hd).
    eexists. split; [reflexivity|]. cbn. unfold same_stores. repeat split; try done. lia.
  - apply malformed_answers_S in Hm as [(c & u & Hcc & Hjc) Hm].
    rewrite (refine_step _ _ _ _ _ _ _ Hj Hcc).
    destruct (IH j c (after_call (fix_prompt current) w)) as (w' & Href & (Hw & Hcm & Hh) & Hk);
      [lia | exact Hjc | exact Hm | | exact Hd |].
    + cbn. rewrite <- Nat.add_succ_r. exact Hc.
    + exists w'. split; [exact Href|]. cbn in *. unfold same_stores.
      repeat split; try done. lia.
Qed.

(** C3, amended.  The Planner calls the completion service at most four
    times: once, and up to three corrections.  When the first four answers
    are all malformed JSON it fails with the structural error, having made
    exactly four calls, and the session is as it found it: no task is added
    or stored and the run keeps its status.  When one of the first four
    answers decodes, the fourth included, the first that does is the plan:
    the Planner goes on to create its tasks, and no structural error is
    raised. *)
Theorem planner_retry_bound (env : Env) (lib : Builtins) (run_id : nat)
    (project_title : string) (project_description : option string) (w : World) :
  (malformed_answers env lib (calls w) 4 ->
   exists w',
     PlannerAgent_plan env lib run_id project_title project_description w
       = (Raise StructuralError, w')
     /\ same_stores w w' /\ calls w' = (calls w + 4)%nat)
  /\ (forall j content usage data,
        (j < 4)%nat ->
        malformed_answers env lib (calls w) j ->
        completion env (calls w + j) = Reply content usage ->
        json_loads lib content = Some data ->
        exists w1,
          same_stores w w1 /\ calls w1 = (calls w + S j)%nat
          /\ PlannerAgent_plan env lib run_id project_title project_description w
             = store_plan lib run_id data w1)
  /\ (calls (snd (PlannerAgent_plan env lib run_id project_title project_description w))
      <= calls w + 4)%nat.
Proof.
  split; [|split].
  - intros Hm. apply malformed_answers_S in Hm as [(c & u & Hc & Hj) Hm].
    unfold PlannerAgent_plan, bind, generate_completion. rewrite Hc. cbn [fst].
    destruct (refine_all_malformed env lib MAX_REFINES c
                (after_call (base_prompt project_title project_description) w) Hj Hm)
      as (last & w' & Href & Hl & (Hw & Hcm & Hh) & Hk).
    unfold after_call in Href. rewrite Href, Hl.
    exists w'. split; [reflexivity|]. cbn in *. unfold same_stores, MAX_REFINES in *.
    repeat split; try done. lia.
  - intros j content usage data Hlt Hm Hc Hd. destruct j as [|j].
    + rewrite Nat.add_0_r in Hc.
      rewrite (plan_first_answer _ _ _ _ _ _ _ _ _ Hc Hd).
      eexists. split; [|split; [|reflexivity]].
      * cbn. unfold same_stores. done.
      * cbn. lia.
    + apply malformed_answers_S in Hm as [(c & u & Hcc & Hjc) Hm].
      unfold PlannerAgent_plan, bind, generate_completion. rewrite Hcc. cbn [fst].
      destruct (refine_valid_at env lib MAX_REFINES j c
                  (after_call (base_prompt project_title project_description) w)
                  content usage data)
        as (w1 & Href & (Hw & Hcm & Hh) & Hk);
        [unfold MAX_REFINES; lia | exact Hjc | exact Hm | | exact Hd |].
      * cbn. rewrite <- Nat.add_succ_r. exact Hc.
      * unfold after_call in Href. rewrite Href, Hd.
        exists w1. split; [|split; [|reflexivity]].
        -- cbn in *. unfold same_stores. done.
        -- cbn in *. lia.
  - destruct (PlannerAgent_plan env lib run_id project_title project_description w)
      as [r w'] eqn:Hplan.
    apply plan_frame in Hplan as (Hk & _). cbn. lia.
Qed.

Lemma planner_retry_bound_witness :
  (exists w',
     PlannerAgent_plan
       (Demo.env_of [Demo.says Demo.malformed; Demo.says Demo.malformed;
                     Demo.says Demo.malformed; Demo.says Demo.malformed;
                     Demo.says Demo.plan_text])
       Fixture.lib 0 "Site" (Some "Build a site") (open_session Demo.store_created)
     = (Raise StructuralError, w')
     /\ working w' = Demo.store_created /\ calls w' = 4%nat)
  /\ exists w1,
       PlannerAgent_plan
         (Demo.env_of [Demo.says Demo.malformed; Demo.says Demo.malformed;
                       Demo.says Demo.plan_text])
         Fixture.lib 0 "Site" (Some "Build a site") (open_session Demo.store_created)
       = store_plan Fixture.lib 0 (JDict [("tasks", JList Demo.plan_elements)]) w1
       /\ calls w1 = 3%nat.
Proof.
  split.
  - destruct (planner_retry_bound
                (Demo.env_of [Demo.says Demo.malformed; Demo.says Demo.malformed;
                              Demo.says Demo.malformed; Demo.says Demo.malformed;
                              Demo.says Demo.plan_text])
                Fixture.lib 0 "Site" (Some "Build a site")
                (open_session Demo.store_created)) as [Hfail _].
    destruct Hfail as (w' & Hplan & (Hw & _) & Hk).
    + intros k Hk. destruct k as [|[|[|[|k]]]]; [| | | |lia];
        (eexists _, _; split; [reflexivity | vm_compute; reflexivity]).
    + exists w'. split; [exact Hplan|]. split; [exact Hw | exact Hk].
  - destruct (planner_retry_bound
                (Demo.env_of [Demo.says Demo.malformed; Demo.says Demo.malformed;
                              Demo.says Demo.plan_text])
                Fixture.lib 0 "Site" (Some "Build a site")
                (open_session Demo.store_created)) as (_ & Hvalid & _).
    destruct (Hvalid 2%nat Demo.plan_text (Some 120)
                (JDict [("tasks", JList Demo.plan_elements)]))
      as (w1 & _ & Hk & Hplan).
    + lia.
    + intros k Hk. destruct k as [|[|k]]; [| |lia];
        (eexists _, _; split; [reflexivity | vm_compute; reflexivity]).
    + reflexivity.
    + vm_compute. reflexivity.
    + exists w1. split; [exact Hplan | exact Hk].
Defined.

(** C3 as stated fails: with malformed JSON on calls 1 to 3 and valid JSON on
    call 4 the Planner does not fail; the fourth answer is decoded after the
    loop, the tasks are stored and the run is ["planned"]. *)
Lemma planner_accepts_fourth_answer :
  let env := Demo.env_of [Demo.says Demo.malformed; Demo.says Demo.malformed;
                          Demo.says Demo.malformed; Demo.says Demo.plan_text] in
  let result := PlannerAgent_plan env Fixture.lib 0 "Site" (Some "Build a site")
                  (open_session Demo.store_created) in
  malformed_answers env Fixture.lib 0 3
  /\ completion env 3 = Demo.says Demo.plan_text
  /\ Fixture.loads Demo.plan_text = Some (JDict [("tasks", JList Demo.plan_elements)])
  /\ fst result = Ok [0%nat; 1%nat]
  /\ calls (snd result) = 4%nat
  /\ map_to_list (tasks (committed (snd result))) = [(1%nat, Demo.task1); (0%nat, Demo.task0)]
  /\ r_status <$> runs (committed (snd result)) !! 0%nat = Some RPlanned
  /\ fst (serve Fixture.lib env (CreateAndPlan 1 7) Demo.store0) = None.
Proof.
  cbn zeta. split.
  { intros k Hk. destruct k as [|[|[|k]]]; [| | |lia];
      (eexists _, _; split; [reflexivity | vm_compute; reflexivity]). }
  repeat split; vm_compute; reflexivity.
Qed.

(** ** Requests the handlers refuse *)

Lemma find_project_foreign s project_id user_id :
  (forall p, projects s !! project_id = Some p -> p_owner_id p <> user_id) ->
  find_project s project_id user_id = None.
Proof.
  intros H. unfold find_project.
  destruct (projects s !! project_id) as [p|]; [|reflexivity].
  destruct (Nat.eqb_spec (p_owner_id p) user_id) as [Heq|]; [|reflexivity].
  now destruct (H p eq_refl).
Qed.

Lemma find_run_foreign s run_id user_id :
  (forall p, request_project s (Execute run_id user_id) = Some p -> p_owner_id p <> user_id) ->
  find_run s run_id user_id = None.
Proof.
  cbn [request_project]. intros H. unfold find_run.
  destruct (runs s !! run_id) as [r|]; [|reflexivity].
  now rewrite find_project_foreign.
Qed.

(** X1.  Owner isolation.  A request whose project (the one it names, or the
    one of the run it names) does not exist or belongs to another user is
    answered [404]; the store is left as it was, nothing is committed and the
    completion service is not called. *)
Theorem foreign_request_not_found (lib : Builtins) (env : Env) (req : Request) (s : Store) :
  (forall p, request_project s req = Some p -> p_owner_id p <> request_user req) ->
  (exists detail, fst (serve lib env req s) = Some (HTTPException 404 detail))
  /\ snd (serve lib env req s) = s
  /\ commits lib env req s = []
  /\ completion_calls lib env req s = 0%nat.
Proof.
  intros Hforeign.
  destruct req as [project_id user_id|run_id user_id|run_id user_id];
    cbn [request_user] in Hforeign; unfold serve, commits, completion_calls.
  - apply find_project_foreign in Hforeign.
    unfold create_and_plan_run, open_session, bind, read. cbn [working].
    rewrite Hforeign. cbn. eauto.
  - apply find_run_foreign in Hforeign.
    rewrite execute_run_eq, Hforeign. cbn. eauto.
  - apply find_run_foreign in Hforeign.
    rewrite summarize_run_eq, Hforeign. cbn. eauto.
Qed.

Lemma foreign_request_not_found_witness :
  snd (serve Fixture.lib (Demo.env_of [Demo.says Demo.plan_text]) (Execute 0 8) Demo.store1)
  = Demo.store1.
Proof.
  apply (foreign_request_not_found Fixture.lib (Demo.env_of [Demo.says Demo.plan_text])
           (Execute 0 8) Demo.store1).
  intros p Hp. vm_compute in Hp. injection Hp as <-. cbn. lia.
Defined.

(** X2.  Conflict.  A create-and-plan request on a project whose
    [is_locked] flag is set, and an execute request on a run whose
    [is_locked] flag is set, are answered [409]; the store is left as it was,
    nothing is committed and the completion service is not called. *)
Theorem locked_request_conflict (lib : Builtins) (env : Env) (req : Request) (s : Store) :
  request_locked s req = true ->
  (exists detail, fst (serve lib env req s) = Some (HTTPException 409 detail))
  /\ snd (serve lib env req s) = s
  /\ commits lib env req s = []
  /\ completion_calls lib env req s = 0%nat.
Proof.
  destruct req as [project_id user_id|run_id user_id|run_id user_id];
    cbn [request_locked]; [| |discriminate]; intros Hlocked;
    unfold serve, commits, completion_calls.
  - unfold create_and_plan_run, open_session, bind, read. cbn [working].
    destruct (find_project s project_id user_id) as [p|]; [|discriminate].
    rewrite Hlocked. cbn. eauto.
  - rewrite execute_run_eq.
    destruct (find_run s run_id user_id) as [[r p]|]; [|discriminate].
    rewrite Hlocked. cbn. eauto.
Qed.

Lemma locked_request_conflict_witness :
  snd (serve Fixture.lib (Demo.env_of [])
         (CreateAndPlan 1 7)
         (upd_projects (alter (set_p_is_locked true) 1%nat) Demo.store0))
  = upd_projects (alter (set_p_is_locked true) 1%nat) Demo.store0.
Proof.
  apply (locked_request_conflict Fixture.lib (Demo.env_of []) (CreateAndPlan 1 7)
           (upd_projects (alter (set_p_is_locked true) 1%nat) Demo.store0)).
  vm_compute. reflexivity.
Defined.

(** ** Execute: the run after the request *)

Lemma alter_same {A} (f : A -> A) (m : gmap nat A) (i : nat) (x : A) :
  m !! i = Some x -> f x = x -> alter f i m = m.
Proof.
  intros Hi Hf. apply map_eq. intros j. destruct (decide (i = j)) as [<-|Hne].
  - now rewrite lookup_alter_eq, Hi; cbn; rewrite Hf.
  - now rewrite lookup_alter_ne.
Qed.

Lemma alter_insert_row {A} (f : A -> A) (m : gmap nat A) (i : nat) (x : A) :
  m !! i = Some x -> alter f i m = <[i := f x]> m.
Proof.
  intros Hi. apply map_eq. intros j. destruct (decide (i = j)) as [<-|Hne].
  - now rewrite lookup_alter_eq, lookup_insert_eq, Hi.
  - now rewrite lookup_alter_ne, lookup_insert_ne.
Qed.

Lemma lock_unlock_run (s : Store) (run_id : nat) (r : Run) :
  runs s !! run_id = Some r -> r_is_locked r = false ->
  upd_runs (alter (set_r_is_locked false) run_id)
    (upd_runs (alter (set_r_is_locked true) run_id) s) = s.
Proof.
  intros Hrow Hlocked. destruct s as [ps rs ts ls]. unfold upd_runs. cbn in *.
  f_equal. rewrite alter_alter. apply (alter_same _ _ _ r Hrow).
  destruct r; cbn in *. now subst.
Qed.

(** X3.  An execute request on a run with no ["pending"] task is answered
    [400]; the lock taken is given back, so that the store is left as it was
    (the status of the run included), and the completion service is not
    called. *)
Theorem execute_without_pending_tasks (lib : Builtins) (env : Env) (run_id user_id : nat)
    (s : Store) (r : Run) (p : Project) :
  find_run s run_id user_id = Some (r, p) ->
  r_is_locked r = false ->
  pending_tasks s run_id = [] ->
  serve lib env (Execute run_id user_id) s
  = (Some (HTTPException 400 "No pending tasks"), s)
  /\ commits lib env (Execute run_id user_id) s
     = [upd_runs (alter (set_r_is_locked true) run_id) s; s]
  /\ completion_calls lib env (Execute run_id user_id) s = 0%nat.
Proof.
  intros Hfind Hlocked Hpending.
  pose proof (lock_unlock_run s run_id r (find_run_Some _ _ _ _ _ Hfind) Hlocked) as Hs.
  unfold serve, commits, completion_calls.
  rewrite execute_run_eq, Hfind, Hlocked, Hpending. cbn. now rewrite Hs.
Qed.

Lemma execute_without_pending_tasks_witness :
  serve Fixture.lib (Demo.env_of []) (Execute 0 7) Demo.store_created
  = (Some (HTTPException 400 "No pending tasks"), Demo.store_created).
Proof.
  apply (execute_without_pending_tasks Fixture.lib (Demo.env_of []) 0 7 Demo.store_created
           (mkRun 1 RCreated None false false)
           (mkProject "Site" (Some "Build a site") 7 false)).
  - vm_compute. reflexivity.
  - reflexivity.
  - vm_compute. reflexivity.
Defined.

Lemma loop_world_logs env project_title run_id tasks0 ctx w :
  exists new,
    logs (working (loop_world env project_title run_id tasks0 ctx w))
    = (logs (working w) ++ new)%list
    /\ length new = length tasks0
    /\ Forall (fun l => l_run_id l = run_id) new.
Proof.
  revert ctx w. induction tasks0 as [|[id t] tasks0 IH]; intros ctx w; cbn [loop_world].
  - exists []. rewrite app_nil_r. repeat split. constructor.
  - set (res := step_result env id (calls w)).
    destruct (IH (context_after ctx t res)
                (world_after project_title run_id id t ctx res w))
      as (new & Hlogs & Hlen & Hrun).
    exists (log_after run_id t res :: new). split; [|split].
    + rewrite Hlogs, working_world_after. cbn. now rewrite <- app_assoc.
    + cbn. now rewrite Hlen.
    + constructor; [now destruct res | exact Hrun].
Qed.

Lemma loop_world_dom env project_title run_id tasks0 ctx w :
  dom (tasks (working (loop_world env project_title run_id tasks0 ctx w)))
  = dom (tasks (working w)).
Proof.
  revert ctx w. induction tasks0 as [|[id t] tasks0 IH]; intros ctx w; cbn [loop_world].
  - reflexivity.
  - rewrite IH, working_world_after, tasks_store_after. apply dom_alter_L.
Qed.

(** The [runs], [projects] and [logs] tables after an execute request that
    went through the list of pending tasks. *)
Lemma execute_store (lib : Builtins) (env : Env) (run_id user_id : nat)
    (s : Store) (r : Run) (p : Project) :
  find_run s run_id user_id = Some (r, p) ->
  r_is_locked r = false ->
  pending_tasks s run_id <> [] ->
  let s' := snd (serve lib env (Execute run_id user_id) s) in
  runs s' = <[run_id := set_r_status RCompleted r]> (runs s)
  /\ projects s' = projects s
  /\ exists new,
       logs s' = (logs s ++ new)%list
       /\ length new = length (pending_tasks s run_id)
       /\ Forall (fun l => l_run_id l = run_id) new.
Proof.
  intros Hfind Hlocked Hpending. cbn zeta.
  pose proof (find_run_Some _ _ _ _ _ Hfind) as Hrow.
  unfold serve. rewrite execute_run_eq, Hfind, Hlocked.
  destruct (pending_tasks s run_id) as [|task ts] eqn:Hp; [done|]. cbn zeta.
  set (s2 := upd_runs (alter (set_r_status RRunning) run_id)
               (upd_runs (alter (set_r_is_locked true) run_id) s)).
  set (w0 := mkWorld s2 s2 0 [] _).
  destruct (loop_world_runs env (p_title p) run_id (task :: ts) EmptyString w0)
    as [Hruns Hprojects].
  destruct (loop_world_logs env (p_title p) run_id (task :: ts) EmptyString w0)
    as (new & Hlogs & Hlen & Hrun).
  cbn [fst snd outcome committed upd_runs runs projects tasks logs].
  split; [|split].
  - rewrite Hruns. cbn. rewrite !alter_alter.
    rewrite (alter_insert_row _ _ _ r Hrow). f_equal.
    destruct r; cbn in *. now subst.
  - now rewrite Hprojects.
  - exists new. now rewrite Hlogs.
Qed.

(** With the sites of the handler and of its own commits, the handler is
    [execute_run] unless one of these statements fails, and then it
    raises. *)
Lemma execute_run_with_cases (env : Env) (hf : ExecSite -> option exn)
    (run_id user_id : nat) (w : World) :
  execute_run_with env hf run_id user_id w = execute_run env run_id user_id w
  \/ exists e w', execute_run_with env hf run_id user_id w = (Raise e, w').
Proof.
  unfold execute_run_with, execute_run, guard_exec, try_finally, bind, modify, commit,
    read, raise, ret.
  cbn [working committed calls prompts history].
  destruct (find_run (working w) run_id user_id) as [[r p]|]; [|now left].
  destruct (r_is_locked r); [now left|].
  destruct (hf LockRun); [right; eauto|].
  cbn [working committed calls prompts history].
  destruct (pending_tasks _ run_id) as [|task ts].
  { destruct (hf UnlockRun); [right; eauto | now left]. }
  destruct (hf StartRun); [destruct (hf UnlockRun); right; eauto|].
  cbn [working committed calls prompts history].
  unfold ExecutorAgent_run_with, ExecutorAgent_run.
  match goal with |- context [executor_loop_with env hf ?t ?rid ?l ?c ?w0] =>
    destruct (executor_loop_with_cases env hf t rid l c w0)
      as [->|(e & w1 & id & -> & _)] end.
  2:{ destruct (hf UnlockRun); right; eauto. }
  match goal with |- context [executor_loop env ?t ?rid ?l ?c ?w0] =>
    destruct (executor_loop env t rid l c w0) as [[[]|e] w1] end.
  2:{ destruct (hf UnlockRun); [right; eauto | now left]. }
  cbn [working committed calls prompts history].
  destruct (hf CompleteRun); [destruct (hf UnlockRun); right; eauto|].
  cbn [working committed calls prompts history].
  destruct (hf UnlockRun); [right; eauto | now left].
Qed.

(** X4.  An execute request on an unlocked run with at least one ["pending"]
    task, when it returns: none of the four commits of [execute_run] itself
    raised; it answers ["completed"], whatever the completion service and
    the store did to the tasks in the [try] blocks of the Executor; the run
    is left ["completed"] and unlocked, its other columns and every other
    run and project are as before, no task row is added or removed, and the
    log grows by exactly one row per pending task, each carrying the id of
    the run.  So ["completed"] says that the Executor went through the
    list, not that every task is ["done"]. *)
Theorem execute_marks_completed (env : Env) (hf : ExecSite -> option exn)
    (run_id user_id : nat) (s : Store) (r : Run) (p : Project)
    (v : nat * option RunStatus) (w' : World) :
  find_run s run_id user_id = Some (r, p) ->
  r_is_locked r = false ->
  pending_tasks s run_id <> [] ->
  execute_run_with env hf run_id user_id (open_session s) = (Ok v, w') ->
  let s' := committed w' in
  v = (run_id, Some RCompleted)
  /\ hf LockRun = None /\ hf StartRun = None /\ hf CompleteRun = None
  /\ hf UnlockRun = None
  /\ runs s' = <[run_id := mkRun (r_project_id r) RCompleted (r_final_summary r)
                             (r_is_archived r) false]> (runs s)
  /\ projects s' = projects s
  /\ dom (tasks s') = dom (tasks s)
  /\ exists new,
       logs s' = (logs s ++ new)%list
       /\ length new = length (pending_tasks s run_id)
       /\ Forall (fun l => l_run_id l = run_id) new.
Proof.
  intros Hfind Hlocked Hpending Hwith. cbn zeta.
  assert (Hrun : execute_run env run_id user_id (open_session s) = (Ok v, w')).
  { destruct (execute_run_with_cases env hf run_id user_id (open_session s))
      as [<-|(e & w1 & Hraise)]; [exact Hwith | congruence]. }
  assert (Hs' : committed w' = snd (serve Fixture.lib env (Execute run_id user_id) s)).
  { unfold serve. now rewrite Hrun. }
  destruct (execute_store Fixture.lib env run_id user_id s r p Hfind Hlocked Hpending)
    as (Hruns & Hprojects & Hlogs).
  rewrite <- Hs' in Hruns, Hprojects, Hlogs.
  assert (Hsites : hf LockRun = None /\ hf StartRun = None /\ hf CompleteRun = None
                   /\ hf UnlockRun = None).
  { clear Hrun Hs' Hruns Hprojects Hlogs. revert Hwith.
    unfold execute_run_with, open_session.
    unfold bind at 1. unfold read at 1. cbn [working]. rewrite Hfind, Hlocked.
    unfold guard_exec, try_finally, bind, modify, commit, read, raise, ret.
    cbn [working committed calls prompts history].
    destruct (hf LockRun); [discriminate|].
    cbn beta iota. cbn [working committed calls prompts history].
    destruct (pending_tasks _ run_id) as [|task ts].
    { destruct (hf UnlockRun); discriminate. }
    destruct (hf StartRun); [destruct (hf UnlockRun); discriminate|].
    cbn [working committed calls prompts history].
    match goal with |- context [ExecutorAgent_run_with env hf ?t ?l ?rid ?w0] =>
      destruct (ExecutorAgent_run_with env hf t l rid w0) as [[[]|e] w1] end.
    2:{ destruct (hf UnlockRun); discriminate. }
    cbn [working committed calls prompts history].
    destruct (hf CompleteRun); [destruct (hf UnlockRun); discriminate|].
    cbn [working committed calls prompts history].
    destruct (hf UnlockRun); [discriminate|]. now intros _. }
  destruct Hsites as (Hl & Hs & Hc & Hu).
  split; [|split; [exact Hl|split; [exact Hs|split; [exact Hc|split; [exact Hu|]]]]].
  - rewrite execute_run_eq, Hfind, Hlocked in Hrun. cbv zeta in Hrun.
    set (wl := loop_world env (p_title p) run_id (pending_tasks s run_id) _ _) in Hrun.
    assert (Hwl : runs (working wl)
                  = alter (set_r_status RRunning) run_id
                      (alter (set_r_is_locked true) run_id (runs s))).
    { unfold wl.
      match goal with |- context [loop_world env ?t ?rid ?l ?c ?w0] =>
        destruct (loop_world_runs env t rid l c w0) as [-> _] end.
      reflexivity. }
    clearbody wl.
    destruct (pending_tasks s run_id) as [|task ts]; [done|].
    injection Hrun as <- _. f_equal.
    cbn [upd_runs runs]. rewrite Hwl, !lookup_alter_eq.
    now rewrite (find_run_Some _ _ _ _ _ Hfind).
  - split; [|split; [exact Hprojects|split; [|exact Hlogs]]].
    + rewrite Hruns. f_equal. destruct r; cbn in *. now subst.
    + rewrite Hs'. unfold serve. rewrite execute_run_eq, Hfind, Hlocked.
      destruct (pending_tasks s run_id) as [|task ts] eqn:Hp; [done|].
      cbn [snd committed upd_runs tasks]. apply loop_world_dom.
Qed.

Lemma execute_marks_completed_witness :
  exists w',
    execute_run_with (Demo.env_of [Failure Demo.unavailable; Demo.says "api.py"])
      (fun _ => None) 0 7 (open_session Demo.store1)
    = (Ok (0%nat, Some RCompleted), w')
    /\ runs (committed w') = <[0%nat := mkRun 1 RCompleted None false false]> (runs Demo.store1)
    /\ (t_status <$> tasks (committed w') !! 0%nat) = Some TPending.
Proof.
  eexists. split; [vm_compute; reflexivity|].
  split.
  - refine (proj1 (proj2 (proj2 (proj2 (proj2 (proj2
       (execute_marks_completed
          (Demo.env_of [Failure Demo.unavailable; Demo.says "api.py"]) (fun _ => None)
          0 7 Demo.store1 (mkRun 1 RPlanned None false false)
          (mkProject "Site" (Some "Build a site") 7 false)
          (0%nat, Some RCompleted) _ _ _ _ _))))))).
    + vm_compute. reflexivity.
    + reflexivity.
    + vm_compute. discriminate.
    + vm_compute. reflexivity.
  - vm_compute. reflexivity.
Defined.

(** ** The rows of a run, in order *)

Lemma run_tasks_elem (s : Store) (run_id : nat) (task : nat * Task) :
  task ∈ run_tasks s run_id
  <-> tasks s !! fst task = Some (snd task) /\ t_run_id (snd task) = run_id.
Proof.
  unfold run_tasks. rewrite merge_sort_Permutation, list_elem_of_filter.
  destruct task as [id t]. rewrite elem_of_map_to_list. unfold is_task_of. cbn. tauto.
Qed.

Lemma run_tasks_NoDup (s : Store) (run_id : nat) : NoDup (run_tasks s run_id).*1.
Proof.
  unfold run_tasks. rewrite merge_sort_Permutation.
  apply NoDup_fmap_fst.
  - intros i t1 t2 H1 H2.
    apply list_elem_of_filter in H1 as [_ H1]. apply list_elem_of_filter in H2 as [_ H2].
    apply elem_of_map_to_list in H1. apply elem_of_map_to_list in H2. congruence.
  - apply NoDup_filter, NoDup_map_to_list.
Qed.

(** When the tasks of the run carry distinct order indexes, [run_tasks]
    lists them by strictly increasing order index: the order of the rows is
    then fixed by [ORDER BY order_index] alone. *)
Lemma run_tasks_strictly_sorted (s : Store) (run_id : nat) :
  distinct_order_index s run_id ->
  StronglySorted Z.lt (map (fun task => t_order_index (snd task)) (run_tasks s run_id)).
Proof.
  intros Hdistinct.
  assert (Hrows : Forall (fun task => tasks s !! fst task = Some (snd task)
                                      /\ t_run_id (snd task) = run_id)
                    (run_tasks s run_id)).
  { apply Forall_forall. intros task Hin. now apply run_tasks_elem in Hin. }
  pose proof (run_tasks_NoDup s run_id) as Hnd.
  assert (Hsorted : StronglySorted by_order_index (run_tasks s run_id)).
  { apply StronglySorted_merge_sort; apply _. }
  induction Hsorted as [|[i ti] l Hl IH Hhd]; [constructor|].
  apply Forall_cons in Hrows as [[Hi Hri] Hrows]. cbn [fst snd] in Hi, Hri.
  cbn [fmap list_fmap] in Hnd. apply NoDup_cons in Hnd as [Hnotin Hnd].
  cbn [map]. constructor; [now apply IH|].
  apply Forall_forall. intros z Hz.
  apply list_elem_of_In, in_map_iff in Hz as ([j tj] & <- & Hin).
  apply list_elem_of_In in Hin.
  rewrite Forall_forall in Hhd, Hrows.
  specialize (Hhd _ Hin). destruct (Hrows _ Hin) as [Hj Hrj].
  unfold by_order_index in Hhd. cbn [fst snd] in *.
  destruct (decide (t_order_index ti = t_order_index tj)) as [Heq|Hne]; [|lia].
  exfalso. apply Hnotin.
  rewrite (Hdistinct i j ti tj Hi Hj Hri Hrj Heq).
  now apply (list_elem_of_fmap_2 fst) in Hin.
Qed.

(** The same for the rows an execute request hands to the Executor. *)
Lemma pending_tasks_by_index (s : Store) (run_id : nat) :
  distinct_order_index s run_id ->
  StronglySorted Z.lt
    (map (fun task => t_order_index (snd task)) (pending_tasks s run_id)).
Proof.
  intros Hdistinct. apply pending_tasks_strictly_sorted.
  intros i j ti tj Hi Hj [Hri _] [Hrj _]. cbn [snd] in Hri, Hrj.
  now apply Hdistinct.
Qed.

Lemma strictly_sorted_inj {A} (f : A -> Z) (l : list A) (a b : A) :
  StronglySorted Z.lt (map f l) -> a ∈ l -> b ∈ l -> f a = f b -> a = b.
Proof.
  induction l as [|x l IH]; intros Hsorted Ha Hb Heq; [inversion Ha|].
  cbn [map] in Hsorted. apply StronglySorted_inv in Hsorted as [Hl Hx].
  rewrite Forall_forall in Hx.
  assert (Hlt : forall c, c ∈ l -> f x < f c).
  { intros c Hc. apply Hx, list_elem_of_In, in_map, list_elem_of_In, Hc. }
  apply elem_of_cons in Ha as [->|Ha]; apply elem_of_cons in Hb as [->|Hb].
  - reflexivity.
  - specialize (Hlt _ Hb). lia.
  - specialize (Hlt _ Ha). lia.
  - now apply IH.
Qed.

(** The hypothesis can be checked on the sorted rows. *)
Lemma distinct_order_index_check (s : Store) (run_id : nat) :
  StronglySorted Z.lt (map (fun task => t_order_index (snd task)) (run_tasks s run_id)) ->
  distinct_order_index s run_id.
Proof.
  intros Hsorted i j ti tj Hi Hj Hri Hrj Heq.
  assert (Hin : forall k tk, tasks s !! k = Some tk -> t_run_id tk = run_id ->
                  (k, tk) ∈ run_tasks s run_id).
  { intros k tk Hk Hrk. now apply run_tasks_elem. }
  pose proof (strictly_sorted_inj (fun task => t_order_index (snd task)) _
                (i, ti) (j, tj) Hsorted (Hin _ _ Hi Hri) (Hin _ _ Hj Hrj) Heq) as Hij.
  congruence.
Qed.

(** ** Summarize *)

Lemma find_run_project s run_id user_id r p :
  find_run s run_id user_id = Some (r, p) ->
  find_project s (r_project_id r) user_id = Some p.
Proof.
  unfold find_run. destruct (runs s !! run_id) as [r0|]; [|discriminate].
  destruct (find_project s (r_project_id r0) user_id) eqn:Hp; [|discriminate].
  now intros [= <- <-].
Qed.

(** X5.  A summarize request on a run of the user that has at least one
    task, the tasks of the run carrying distinct order indexes, succeeds
    whatever the status and the flags of the run are (it tests no lock and
    does not ask for the run to be ["completed"]).  It stores the report of
    the Reporter on the tasks of the run, each once, by strictly increasing
    [order_index], and the status ["summarized"], and changes nothing else:
    no task, log or project, no other run, no other column of the run.  It
    calls no completion service, and is idempotent: the same request on the
    store it leaves succeeds again and leaves that store. *)
Theorem summarize_idempotent (lib : Builtins) (env : Env) (run_id user_id : nat)
    (s : Store) (r : Run) (p : Project) :
  find_run s run_id user_id = Some (r, p) ->
  run_tasks s run_id <> [] ->
  distinct_order_index s run_id ->
  let rows := run_tasks s run_id in
  let summary := ReporterAgent_run (p_title p) (map (fun it => task_dict (snd it)) rows) in
  let s' := snd (serve lib env (Summarize run_id user_id) s) in
  StronglySorted Z.lt (map (fun task => t_order_index (snd task)) rows)
  /\ NoDup rows.*1
  /\ (forall id row,
        (id, row) ∈ rows <-> tasks s !! id = Some row /\ t_run_id row = run_id)
  /\ fst (serve lib env (Summarize run_id user_id) s) = None
  /\ s' = upd_runs
            (insert run_id
               (mkRun (r_project_id r) RSummarized (Some summary) (r_is_archived r)
                  (r_is_locked r)))
            s
  /\ completion_calls lib env (Summarize run_id user_id) s = 0%nat
  /\ serve lib env (Summarize run_id user_id) s' = (None, s').
Proof.
  intros Hfind Htasks Hdistinct. cbn zeta.
  split; [now apply run_tasks_strictly_sorted|].
  split; [apply run_tasks_NoDup|].
  split; [intros id row; apply (run_tasks_elem s run_id (id, row))|].
  replace (mkRun (r_project_id r) RSummarized
             (Some (ReporterAgent_run (p_title p)
                      (map (fun it => task_dict (snd it)) (run_tasks s run_id))))
             (r_is_archived r) (r_is_locked r))
    with (set_r_status RSummarized
            (set_r_final_summary
               (Some (ReporterAgent_run (p_title p)
                        (map (fun it => task_dict (snd it)) (run_tasks s run_id)))) r))
    by now destruct r.
  pose proof (find_run_Some _ _ _ _ _ Hfind) as Hrow.
  pose proof (find_run_project _ _ _ _ _ Hfind) as Hproject.
  assert (Hserve : snd (serve lib env (Summarize run_id user_id) s)
                   = upd_runs
                       (insert run_id
                          (set_r_status RSummarized
                             (set_r_final_summary
                                (Some (ReporterAgent_run (p_title p)
                                         (map (fun it => task_dict (snd it))
                                            (run_tasks s run_id)))) r))) s).
  { unfold serve. rewrite summarize_run_eq, Hfind.
    destruct (run_tasks s run_id) as [|task ts] eqn:Hts; [done|].
    cbn [snd committed]. destruct s as [ps rs ts0 ls]. unfold upd_runs.
    cbn [projects runs tasks logs] in *.
    f_equal. now rewrite alter_alter, (alter_insert_row _ _ _ r Hrow). }
  split; [|split; [exact Hserve|split]].
  - unfold serve. rewrite summarize_run_eq, Hfind.
    now destruct (run_tasks s run_id).
  - unfold completion_calls. rewrite summarize_run_eq, Hfind.
    now destruct (run_tasks s run_id).
  - rewrite Hserve.
    set (r' := set_r_status RSummarized (set_r_final_summary _ r)).
    set (s' := upd_runs (insert run_id r') s).
    assert (Hfind' : find_run s' run_id user_id = Some (r', p)).
    { unfold find_run, s'. cbn. rewrite lookup_insert_eq.
      change (find_project (upd_runs (insert run_id r') s) (r_project_id r') user_id)
        with (find_project s (r_project_id r) user_id).
      now rewrite Hproject. }
    unfold serve. rewrite summarize_run_eq, Hfind'.
    change (run_tasks s' run_id) with (run_tasks s run_id).
    destruct (run_tasks s run_id) as [|task ts] eqn:Hts; [done|].
    cbn [outcome snd committed]. f_equal.
    unfold s', upd_runs. cbn. f_equal.
    rewrite alter_alter. apply (alter_same _ _ _ r'); [apply lookup_insert_eq | reflexivity].
Qed.

Lemma summarize_idempotent_witness :
  fst (serve Fixture.lib (Demo.env_of []) (Summarize 0 7) Demo.store1) = None.
Proof.
  apply (summarize_idempotent Fixture.lib (Demo.env_of []) 0 7 Demo.store1
           (mkRun 1 RPlanned None false false)
           (mkProject "Site" (Some "Build a site") 7 false)).
  - vm_compute. reflexivity.
  - vm_compute. discriminate.
  - apply distinct_order_index_check. apply (bool_decide_unpack _). vm_compute. reflexivity.
Defined.

(** ** Create-and-plan: what the request leaves, whatever the Planner does *)

Lemma extends_with_plan_refl run_id m : extends_with_plan run_id m m.
Proof. split; eauto. Qed.

Lemma extends_with_plan_trans run_id m1 m2 m3 :
  extends_with_plan run_id m1 m2 -> extends_with_plan run_id m2 m3 ->
  extends_with_plan run_id m1 m3.
Proof.
  intros [H1 H1'] [H2 H2']. split; [eauto|].
  intros id row H3. destruct (H2' _ _ H3) as [H|H]; eauto.
Qed.

Lemma extends_with_plan_add run_id (m : gmap nat Task) (row : Task) :
  planner_row run_id row ->
  extends_with_plan run_id m (<[fresh (dom m) := row]> m).
Proof.
  intros Hrow.
  assert (Hfresh : m !! fresh (dom m) = None) by apply not_elem_of_dom, is_fresh.
  split; intros id row' Hid.
  - destruct (decide (fresh (dom m) = id)) as [<-|Hne]; [congruence|].
    now rewrite lookup_insert_ne.
  - destruct (decide (fresh (dom m) = id)) as [<-|Hne].
    + rewrite lookup_insert_eq in Hid. injection Hid as <-. now right.
    + rewrite lookup_insert_ne in Hid by done. now left.
Qed.

(** The loop of the Planner only adds rows of the run, also when it raises. *)
Lemma create_tasks_rows lib run_id ts created w :
  extends_with_plan run_id (tasks (working w))
    (tasks (working (snd (create_tasks lib run_id ts created w)))).
Proof.
  revert created w. induction ts as [|t ts IH]; intros created w.
  - apply extends_with_plan_refl.
  - cbn [create_tasks]. unfold bind, lift.
    destruct (py_in "order_index" t) as [[|]|e]; cbn [negb];
      [|apply IH|apply extends_with_plan_refl].
    destruct (py_in "input" t) as [[|]|e]; cbn [negb];
      [|apply IH|apply extends_with_plan_refl].
    destruct (py_getitem "input" t) as [v_input|e]; [|apply extends_with_plan_refl].
    destruct (py_getitem "order_index" t) as [v_index|e]; [|apply extends_with_plan_refl].
    destruct (py_int lib v_index) as [n|e]; [|apply extends_with_plan_refl].
    unfold db_add_task.
    eapply extends_with_plan_trans; [|apply IH].
    cbn [working upd_tasks tasks]. apply extends_with_plan_add.
    repeat split. apply take_length.
Qed.

Lemma store_plan_rows lib run_id data w :
  extends_with_plan run_id (tasks (working w))
    (tasks (working (snd (store_plan lib run_id data w)))).
Proof.
  unfold store_plan, bind, lift.
  destruct (py_get_tasks data) as [[[| | | | |[|t ts]|]|]|e];
    try apply extends_with_plan_refl.
  pose proof (create_tasks_rows lib run_id (t :: ts) [] w) as Hrows.
  destruct (create_tasks lib run_id (t :: ts) [] w) as [[ids|e] w1]; exact Hrows.
Qed.

Lemma plan_rows env lib run_id project_title project_description w :
  extends_with_plan run_id (tasks (working w))
    (tasks (working
              (snd (PlannerAgent_plan env lib run_id project_title project_description w)))).
Proof.
  unfold PlannerAgent_plan, bind, generate_completion.
  destruct (completion env (calls w)) as [content usage|e]; cbn [fst snd];
    [|apply extends_with_plan_refl].
  match goal with |- context [refine env lib MAX_REFINES content ?w1] =>
    pose proof (refine_frame env lib MAX_REFINES content w1) as Href;
    destruct (refine env lib MAX_REFINES content w1) as [[current|e] w2] end;
    cbn [fst snd working] in Href; destruct Href as (Hw & _).
  2:{ cbn [snd]. rewrite Hw. apply extends_with_plan_refl. }
  destruct (json_loads lib current) as [data|].
  2:{ unfold raise. cbn [snd]. rewrite Hw. apply extends_with_plan_refl. }
  rewrite <- Hw. apply store_plan_rows.
Qed.

Lemma lock_unlock_project (s : Store) (project_id : nat) (p : Project) :
  projects s !! project_id = Some p -> p_is_locked p = false ->
  alter (set_p_is_locked false) project_id
    (alter (set_p_is_locked true) project_id (projects s)) = projects s.
Proof.
  intros Hrow Hlocked. rewrite alter_alter. apply (alter_same _ _ _ p Hrow).
  destruct p; cbn in *. now subst.
Qed.

(** The handler makes the completion calls of the Planner and no other. *)
Lemma create_and_plan_calls (env : Env) (lib : Builtins) (project_id user_id : nat)
    (s : Store) (p : Project) :
  find_project s project_id user_id = Some p ->
  p_is_locked p = false ->
  store_fault env ArchivePriorRuns = None ->
  let s1 := upd_projects (alter (set_p_is_locked true) project_id) s in
  let s2 := upd_runs (fmap (archive_run project_id)) s1 in
  let run_id := fresh (dom (runs s2)) in
  let s3 := upd_runs (insert run_id (mkRun project_id RCreated None false false)) s2 in
  calls (snd (create_and_plan_run env lib project_id user_id (open_session s)))
  = calls (snd (PlannerAgent_plan env lib run_id (p_title p) (p_description p)
                  (mkWorld s3 s3 0 [] [s1; s2; s3]))).
Proof.
  intros Hfind Hlocked Hfault. cbn zeta.
  unfold create_and_plan_run, open_session.
  unfold bind at 1. unfold read at 1. cbn [working]. rewrite Hfind, Hlocked.
  unfold archive_prior_runs, guard_site. rewrite Hfault.
  unfold try_finally, bind, modify, commit, ret, db_add_run, run_to_dict, read.
  cbn [working committed calls prompts history fst snd app].
  match goal with |- context [PlannerAgent_plan env lib ?rid ?t ?d ?w0] =>
    destruct (PlannerAgent_plan env lib rid t d w0) as [[ids|e] wp] end; reflexivity.
Qed.

(** The [projects], [runs] and [logs] tables after a create-and-plan request
    that got past the lock test and the archive statement. *)
Lemma create_and_plan_store (lib : Builtins) (env : Env) (project_id user_id : nat)
    (s : Store) (p : Project) :
  find_project s project_id user_id = Some p ->
  p_is_locked p = false ->
  store_fault env ArchivePriorRuns = None ->
  let result := fst (serve lib env (CreateAndPlan project_id user_id) s) in
  let s' := snd (serve lib env (CreateAndPlan project_id user_id) s) in
  let run_id := fresh (dom (runs s)) in
  let status := match result with None => RPlanned | Some _ => RCreated end in
  projects s' = projects s
  /\ runs s' = <[run_id := mkRun project_id status None false false]>
                 (archive_run project_id <$> runs s)
  /\ runs s !! run_id = None
  /\ logs s' = logs s.
Proof.
  intros Hfind Hlocked Hfault. cbn zeta.
  pose proof (find_project_Some _ _ _ _ Hfind) as Hrow.
  unfold serve.
  destruct (create_and_plan_run env lib project_id user_id (open_session s))
    as [r w'] eqn:Hrun.
  apply create_and_plan_cases in Hrun. cbn zeta in Hrun. cbn [fst snd].
  destruct Hrun as [[_ [[Hnone _]|(p0 & Hf & Hl & _)]]
                   |[(p0 & e & _ & _ & Hf & _)
                    |(p0 & pr & wp & Hf & _ & _ & Hplan & Hcommitted & _ & Hout)]];
    try congruence.
  assert (p0 = p) as -> by congruence.
  rewrite Hcommitted, Hout.
  apply plan_frame in Hplan as (_ & Hprojects & Hlogs & Hcase).
  cbn [working calls upd_runs upd_projects projects runs tasks logs] in *.
  rewrite dom_fmap_L in *.
  assert (Hnew : runs s !! fresh (dom (runs s)) = None)
    by apply not_elem_of_dom, is_fresh.
  split; [|split; [|split; [exact Hnew|exact Hlogs]]].
  - rewrite Hprojects. now apply (lock_unlock_project s project_id p).
  - destruct pr as [ids|e]; cbn [outcome]; destruct Hcase as (-> & _).
    + rewrite (alter_insert_row _ _ _ (mkRun project_id RCreated None false false))
        by apply lookup_insert_eq.
      cbn. apply insert_insert_eq.
    + reflexivity.
Qed.

(** The [tasks] table after such a request. *)
Lemma create_and_plan_tasks (lib : Builtins) (env : Env) (project_id user_id : nat)
    (s : Store) (p : Project) :
  find_project s project_id user_id = Some p ->
  p_is_locked p = false ->
  store_fault env ArchivePriorRuns = None ->
  extends_with_plan (fresh (dom (runs s))) (tasks s)
    (tasks (snd (serve lib env (CreateAndPlan project_id user_id) s))).
Proof.
  intros Hfind Hlocked Hfault. unfold serve.
  destruct (create_and_plan_run env lib project_id user_id (open_session s))
    as [r w'] eqn:Hrun.
  apply create_and_plan_cases in Hrun. cbn zeta in Hrun. cbn [fst snd].
  destruct Hrun as [[_ [[Hnone _]|(p0 & Hf & Hl & _)]]
                   |[(p0 & e & _ & _ & Hf & _)
                    |(p0 & pr & wp & Hf & _ & _ & Hplan & Hcommitted & _ & Hout)]];
    try congruence.
  rewrite Hcommitted.
  pose proof (plan_rows env lib
                (fresh (dom (runs (upd_runs (fmap (archive_run project_id))
                                     (upd_projects (alter (set_p_is_locked true) project_id) s)))))
                (p_title p0) (p_description p0)) as Hrows.
  match type of Hplan with PlannerAgent_plan _ _ _ _ _ ?w0 = _ =>
    specialize (Hrows w0) end.
  rewrite Hplan in Hrows. cbn [snd working upd_runs upd_projects tasks runs] in Hrows.
  rewrite dom_fmap_L in Hrows. exact Hrows.
Qed.



(** ** What the requests keep *)

#[local] Instance keeps_refl : Reflexive keeps.
Proof.
  intros s. split; [exists []; now rewrite app_nil_r|].
  repeat split; intros id x Hx; exists x; (split; [exact Hx|]); repeat split; auto.
Qed.

#[local] Instance keeps_trans : Transitive keeps.
Proof.
  intros s1 s2 s3 ([n1 Hl1] & Ht1 & Hr1 & Hp1) ([n2 Hl2] & Ht2 & Hr2 & Hp2).
  split; [exists (n1 ++ n2)%list; now rewrite Hl2, Hl1, app_assoc|].
  split; [|split].
  - intros id row H1. destruct (Ht1 _ _ H1) as (row2 & H2 & E2 & E2' & E2'' & E2''').
    destruct (Ht2 _ _ H2) as (row3 & H3 & E3 & E3' & E3'' & E3''').
    exists row3. split; [exact H3|]. unfold same_task. repeat split; congruence.
  - intros id r H1. destruct (Hr1 _ _ H1) as (r2 & H2 & E2 & A2).
    destruct (Hr2 _ _ H2) as (r3 & H3 & E3 & A3).
    exists r3. split; [exact H3|]. split; [congruence | auto].
  - intros id p H1. destruct (Hp1 _ _ H1) as (p2 & H2 & E2 & E2' & E2'').
    destruct (Hp2 _ _ H2) as (p3 & H3 & E3 & E3' & E3'').
    exists p3. split; [exact H3|]. unfold same_project. repeat split; congruence.
Qed.

(** A change of the rows by functions that leave the kept columns alone. *)
Lemma keeps_intro (s s' : Store) (ft : nat -> Task -> Task) (fr : nat -> Run -> Run)
    (fp : nat -> Project -> Project) :
  (exists new, logs s' = (logs s ++ new)%list) ->
  (forall id row, tasks s !! id = Some row -> tasks s' !! id = Some (ft id row)) ->
  (forall id row, same_task row (ft id row)) ->
  (forall id r, runs s !! id = Some r -> runs s' !! id = Some (fr id r)) ->
  (forall id r, same_run r (fr id r)) ->
  (forall id p, projects s !! id = Some p -> projects s' !! id = Some (fp id p)) ->
  (forall id p, same_project p (fp id p)) ->
  keeps s s'.
Proof.
  intros Hl Ht Et Hr Er Hp Ep. split; [exact Hl|]. repeat split; eauto.
Qed.

Lemma same_task_row_after res row : same_task row (row_after res row).
Proof. destruct res as [content usage|e called [content|]]; repeat split. Qed.

Lemma keeps_store_after run_id id t res s : keeps s (store_after run_id id t res s).
Proof.
  split; [eexists; reflexivity|]. split; [|split].
  - intros j row Hj. rewrite tasks_store_after.
    destruct (decide (id = j)) as [->|Hne].
    + rewrite lookup_alter_eq, Hj. eexists. split; [reflexivity | apply same_task_row_after].
    + rewrite lookup_alter_ne by done. exists row. split; [exact Hj | repeat split].
  - intros j r Hj. exists r. split; [exact Hj | split; auto].
  - intros j p Hj. exists p. split; [exact Hj | repeat split].
Qed.

Lemma keeps_loop_world env project_title run_id tasks0 ctx w :
  keeps (working w) (working (loop_world env project_title run_id tasks0 ctx w)).
Proof.
  revert ctx w. induction tasks0 as [|[id t] tasks0 IH]; intros ctx w; cbn [loop_world].
  - reflexivity.
  - etransitivity; [|apply IH]. rewrite working_world_after. apply keeps_store_after.
Qed.

(** A change of the [runs] table alone, row by row, that keeps the project
    of each run and the archived ones archived. *)
Lemma keeps_upd_runs (s : Store) (m' : gmap nat Run) :
  (forall id r, runs s !! id = Some r -> exists r', m' !! id = Some r' /\ same_run r r') ->
  keeps s (upd_runs (fun _ => m') s).
Proof.
  intros H. split; [exists []; now rewrite app_nil_r|]. split; [|split].
  - intros id row Hid. exists row. split; [exact Hid | repeat split].
  - exact H.
  - intros id p Hid. exists p. split; [exact Hid | repeat split].
Qed.

Lemma keeps_alter_run (s : Store) (f : Run -> Run) (run_id : nat) :
  (forall r, same_run r (f r)) ->
  keeps s (upd_runs (alter f run_id) s).
Proof.
  intros Hf. apply (keeps_upd_runs s (alter f run_id (runs s))).
  intros id r Hid. destruct (decide (run_id = id)) as [->|Hne].
  - rewrite lookup_alter_eq, Hid. eexists. split; [reflexivity | apply Hf].
  - rewrite lookup_alter_ne by done. exists r. split; [exact Hid | split; auto].
Qed.

Lemma keeps_alter_project (s : Store) (b : bool) (project_id : nat) :
  keeps s (upd_projects (alter (set_p_is_locked b) project_id) s).
Proof.
  split; [exists []; now rewrite app_nil_r|]. split; [|split].
  - intros id row Hid. exists row. split; [exact Hid | repeat split].
  - intros id r Hid. exists r. split; [exact Hid | split; auto].
  - intros id p Hid. cbn. destruct (decide (project_id = id)) as [->|Hne].
    + rewrite lookup_alter_eq, Hid. eexists. split; [reflexivity | repeat split].
    + rewrite lookup_alter_ne by done. exists p. split; [exact Hid | repeat split].
Qed.

Lemma same_run_archive project_id r : same_run r (archive_run project_id r).
Proof.
  unfold archive_run.
  destruct ((r_project_id r =? project_id)%nat && negb (r_is_archived r)); split; auto.
Qed.

Lemma keeps_serve (lib : Builtins) (env : Env) (req : Request) (s : Store) :
  keeps s (snd (serve lib env req s)).
Proof.
  destruct req as [project_id user_id|run_id user_id|run_id user_id].
  - unfold serve.
    destruct (create_and_plan_run env lib project_id user_id (open_session s))
      as [r w'] eqn:Hrun.
    apply create_and_plan_cases in Hrun. cbn zeta in Hrun. cbn [snd].
    destruct Hrun as [[-> _]|[(p & e & _ & _ & _ & _ & -> & _)
                             |(p & pr & wp & _ & _ & _ & Hplan & -> & _)]].
    + reflexivity.
    + apply keeps_alter_project.
    + etransitivity; [|apply keeps_alter_project].
      pose proof (plan_rows env lib
                    (fresh (dom (runs (upd_runs (fmap (archive_run project_id))
                                         (upd_projects
                                            (alter (set_p_is_locked true) project_id) s)))))
                    (p_title p) (p_description p)) as Hrows.
      match type of Hplan with PlannerAgent_plan _ _ _ _ _ ?w0 = _ =>
        specialize (Hrows w0) end.
      rewrite Hplan in Hrows. cbn [snd working upd_runs upd_projects tasks runs] in Hrows.
      apply plan_frame in Hplan as (_ & Hprojects & Hlogs & Hcase).
      cbn [working upd_runs upd_projects projects runs tasks logs] in *.
      assert (Hnew : runs s !! fresh (dom (archive_run project_id <$> runs s)) = None).
      { rewrite dom_fmap_L. apply not_elem_of_dom, is_fresh. }
      split; [exists []; now rewrite app_nil_r|]. split; [|split].
      * intros id row Hid. exists row. split; [now apply Hrows | repeat split].
      * intros id r0 Hid.
        assert (Hne : fresh (dom (archive_run project_id <$> runs s)) <> id)
          by (intros <-; congruence).
        exists (archive_run project_id r0). split; [|apply same_run_archive].
        destruct pr as [ids|e]; destruct Hcase as (-> & _).
        -- rewrite lookup_alter_ne, lookup_insert_ne, lookup_fmap, Hid by done. reflexivity.
        -- rewrite lookup_insert_ne, lookup_fmap, Hid by done. reflexivity.
      * intros id p0 Hid. rewrite Hprojects.
        destruct (decide (project_id = id)) as [->|Hne].
        -- rewrite lookup_alter_eq, Hid. eexists. split; [reflexivity | repeat split].
        -- rewrite lookup_alter_ne by done. exists p0. split; [exact Hid | repeat split].
  - destruct (serve_execute_cases lib env run_id user_id s)
      as [[-> _]|(r & p & _ & _ & [[_ ->]|(_ & w & s1 & s2 & -> & -> & -> & ->)])].
    + reflexivity.
    + etransitivity; apply keeps_alter_run; intros r0; split; auto.
    + etransitivity; [|apply keeps_alter_run; intros r0; split; auto].
      etransitivity; [|apply keeps_alter_run; intros r0; split; auto].
      etransitivity; [|apply keeps_loop_world]. cbn [working].
      etransitivity; apply keeps_alter_run; intros r0; split; auto.
  - unfold serve. rewrite summarize_run_eq.
    destruct (find_run s run_id user_id) as [[r p]|]; [|reflexivity].
    destruct (run_tasks s run_id) as [|task ts]; [reflexivity|]. cbn [snd committed].
    etransitivity; apply keeps_alter_run; intros r0; split; auto.
Qed.

(** X7.  Whatever requests are served, in whatever environment, nothing is
    deleted and the log is append-only: the log of the store before is a
    prefix of the log after; every task is still there with its run, agent
    type, input and order index (the core writes only the status and the
    output of a task); every run is still there, in its project, and a run
    that was archived is archived; every project is still there with its
    title, description and owner. *)
Theorem requests_keep_rows (lib : Builtins) (reqs : list (Request * Env)) (s : Store) :
  keeps s (serve_all lib reqs s).
Proof.
  revert s. induction reqs as [|[req env] reqs IH]; intros s; cbn [serve_all].
  - reflexivity.
  - etransitivity; [apply keeps_serve | apply IH].
Qed.

(** ** The [projects] table *)

(** A request leaves the [projects] table as it found it, unless it is a
    create-and-plan request whose archive statement fails: then the lock flag
    of its project is left set. *)
Lemma serve_projects (lib : Builtins) (env : Env) (req : Request) (s : Store) :
  projects (snd (serve lib env req s)) = projects s
  \/ exists project_id user_id p e,
       req = CreateAndPlan project_id user_id
       /\ find_project s project_id user_id = Some p /\ p_is_locked p = false
       /\ store_fault env ArchivePriorRuns = Some e
       /\ projects (snd (serve lib env req s))
          = alter (set_p_is_locked true) project_id (projects s).
Proof.
  destruct req as [project_id user_id|run_id user_id|run_id user_id].
  - unfold serve.
    destruct (create_and_plan_run env lib project_id user_id (open_session s))
      as [r w'] eqn:Hrun.
    apply create_and_plan_cases in Hrun. cbn zeta in Hrun. cbn [snd].
    destruct Hrun as [[-> _]|[(p & e & Hfind & Hlocked & Hfault & _ & -> & _)
                             |(p & pr & wp & Hfind & Hlocked & _ & Hplan & -> & _)]].
    + now left.
    + right. exists project_id, user_id, p, e. done.
    + left. apply plan_frame in Hplan as (_ & Hprojects & _).
      cbn [upd_projects projects]. rewrite Hprojects. cbn [working upd_runs projects].
      apply (lock_unlock_project s project_id p); [|exact Hlocked].
      eapply find_project_Some, Hfind.
  - left.
    destruct (serve_execute_cases lib env run_id user_id s)
      as [[-> _]|(r & p & _ & _ & [[_ ->]|(_ & w & s1 & s2 & -> & -> & -> & ->)])];
      try reflexivity.
    cbn [upd_runs projects].
    now destruct (loop_world_runs env (p_title p) run_id (pending_tasks s run_id)
                    EmptyString
                    (mkWorld
                       (upd_runs (alter (set_r_status RRunning) run_id)
                          (upd_runs (alter (set_r_is_locked true) run_id) s))
                       (upd_runs (alter (set_r_status RRunning) run_id)
                          (upd_runs (alter (set_r_is_locked true) run_id) s))
                       0 []
                       [upd_runs (alter (set_r_is_locked true) run_id) s;
                        upd_runs (alter (set_r_status RRunning) run_id)
                          (upd_runs (alter (set_r_is_locked true) run_id) s)]))
      as [_ ->].
  - left. unfold serve. rewrite summarize_run_eq.
    destruct (find_run s run_id user_id) as [[r p]|]; [|reflexivity].
    now destruct (run_tasks s run_id).
Qed.

Lemma serve_keeps_locked (lib : Builtins) (env : Env) (req : Request) (s : Store)
    (project_id : nat) (p : Project) :
  projects s !! project_id = Some p -> p_is_locked p = true ->
  projects (snd (serve lib env req s)) !! project_id = Some p.
Proof.
  intros Hrow Hlocked.
  destruct (serve_projects lib env req s)
    as [->|(pid & uid & p0 & e & _ & Hfind & Hl & _ & ->)]; [exact Hrow|].
  destruct (decide (pid = project_id)) as [->|Hne].
  - apply find_project_Some in Hfind. congruence.
  - now rewrite lookup_alter_ne.
Qed.

(** X8.  No request sets a lock flag free that is set when no request is
    being served: a project that is locked in the store stays locked, with
    its row unchanged, through every sequence of create-and-plan, execute and
    summarize requests, and its owner's create-and-plan requests on it are
    refused with [409] ever after.  (The handlers clear the flag only in the
    [finally] block of the request that set it.) *)
Theorem locked_project_stays_locked (lib : Builtins) (reqs : list (Request * Env))
    (s : Store) (project_id : nat) (p : Project) (env : Env) :
  projects s !! project_id = Some p ->
  p_is_locked p = true ->
  projects (serve_all lib reqs s) !! project_id = Some p
  /\ fst (serve lib env (CreateAndPlan project_id (p_owner_id p)) (serve_all lib reqs s))
     = Some (HTTPException 409 "Project already has a running job").
Proof.
  intros Hrow Hlocked.
  assert (Hkept : projects (serve_all lib reqs s) !! project_id = Some p).
  { revert s Hrow. induction reqs as [|[req env0] reqs IH]; intros s Hrow; cbn [serve_all].
    - exact Hrow.
    - apply IH. now apply serve_keeps_locked. }
  split; [exact Hkept|].
  unfold serve, create_and_plan_run, open_session, bind, read. cbn [working].
  unfold find_project. rewrite Hkept, Nat.eqb_refl, Hlocked. reflexivity.
Qed.

Lemma locked_project_stays_locked_witness :
  p_is_locked
    <$> projects
          (serve_all Fixture.lib
             [(CreateAndPlan 1 7, Demo.env_archive_fails);
              (CreateAndPlan 1 7, Demo.env_of [Demo.says Demo.plan_text]);
              (Execute 0 7, Demo.env_of [])]
             Demo.store0) !! 1%nat
  = Some true.
Proof.
  change (serve_all Fixture.lib
            [(CreateAndPlan 1 7, Demo.env_archive_fails);
             (CreateAndPlan 1 7, Demo.env_of [Demo.says Demo.plan_text]);
             (Execute 0 7, Demo.env_of [])]
            Demo.store0)
    with (serve_all Fixture.lib
            [(CreateAndPlan 1 7, Demo.env_of [Demo.says Demo.plan_text]);
             (Execute 0 7, Demo.env_of [])]
            (snd (serve Fixture.lib Demo.env_archive_fails (CreateAndPlan 1 7) Demo.store0))).
  destruct (locked_project_stays_locked Fixture.lib
              [(CreateAndPlan 1 7, Demo.env_of [Demo.says Demo.plan_text]);
               (Execute 0 7, Demo.env_of [])]
              (snd (serve Fixture.lib Demo.env_archive_fails (CreateAndPlan 1 7) Demo.store0))
              1 (mkProject "Site" (Some "Build a site") 7 true) (Demo.env_of []))
    as [Hkept _].
  - vm_compute. reflexivity.
  - reflexivity.
  - now rewrite Hkept.
Defined.

(** ** [sanitize] leaves no blocked phrase *)

Lemma match_prefix_split (pat s rest : string) :
  PyStr.match_prefix_ci pat s = Some rest ->
  exists pre, s = (pre ++ rest)%string /\ String.length pre = String.length pat.
Proof.
  revert s. induction pat as [|a pat IH]; intros s; cbn.
  - intros [= <-]. now exists EmptyString.
  - destruct s as [|c s]; [discriminate|].
    destruct (Ascii.eqb a (PyStr.lower c)); [|discriminate].
    intros H. destruct (IH _ H) as (pre & -> & Hlen).
    exists (String c pre). split; [reflexivity | cbn; now rewrite Hlen].
Qed.

Lemma match_prefix_app (pat s rest tail : string) :
  PyStr.match_prefix_ci pat s = Some rest ->
  PyStr.match_prefix_ci pat (s ++ tail) = Some (rest ++ tail)%string.
Proof.
  revert s. induction pat as [|a pat IH]; intros s; cbn.
  - now intros [= <-].
  - destruct s as [|c s]; [discriminate|].
    change (String c s ++ tail)%string with (String c (s ++ tail)). cbn.
    destruct (Ascii.eqb a (PyStr.lower c)); [apply IH | discriminate].
Qed.

Lemma length_append (a b : string) :
  String.length (a ++ b) = (String.length a + String.length b)%nat.
Proof.
  induction a as [|c a IH]; [reflexivity|].
  change (String c a ++ b)%string with (String c (a ++ b)). cbn [String.length].
  now rewrite IH.
Qed.

Lemma first_match_Some (alts : list string) (s rest : string) :
  PyStr.first_match alts s = Some rest ->
  exists pat, In pat alts /\ PyStr.match_prefix_ci pat s = Some rest.
Proof.
  induction alts as [|p alts IH]; cbn; [discriminate|].
  destruct (PyStr.match_prefix_ci p s) as [r|] eqn:Hp.
  - intros [= <-]. exists p. split; [now left | exact Hp].
  - intros H. destruct (IH H) as (pat & Hin & Hpat). exists pat. split; [now right | exact Hpat].
Qed.

Lemma first_match_None (alts : list string) (s pat : string) :
  PyStr.first_match alts s = None -> In pat alts -> PyStr.match_prefix_ci pat s = None.
Proof.
  induction alts as [|p alts IH]; cbn; [contradiction|].
  destruct (PyStr.match_prefix_ci p s) as [r|] eqn:Hp; [discriminate|].
  intros H [<-|Hin]; [exact Hp | now apply IH].
Qed.

Lemma occurs_cons (pat : string) (c : ascii) (s : string) :
  occurs_ci pat (String c s) = false
  <-> PyStr.match_prefix_ci pat (String c s) = None /\ occurs_ci pat s = false.
Proof.
  change (occurs_ci pat (String c s))
    with (match PyStr.match_prefix_ci pat (String c s) with
          | Some _ => true
          | None => occurs_ci pat s
          end).
  destruct (PyStr.match_prefix_ci pat (String c s)); split;
    [discriminate | intros [[=] _] | now split | now intros [_ ?]].
Qed.

Lemma occurs_head (pat s : string) :
  occurs_ci pat s = false -> PyStr.match_prefix_ci pat s = None.
Proof.
  destruct s as [|c s]; [|now intros H%occurs_cons].
  cbn. now destruct (PyStr.match_prefix_ci pat "").
Qed.

Lemma occurs_suffix (pat pre s : string) :
  occurs_ci pat (pre ++ s) = false -> occurs_ci pat s = false.
Proof.
  induction pre as [|c pre IH]; [done|].
  change (String c pre ++ s)%string with (String c (pre ++ s)).
  intros [_ H]%occurs_cons. now apply IH.
Qed.

Lemma occurs_prefix (pat s tail : string) :
  occurs_ci pat (s ++ tail) = false -> occurs_ci pat s = false.
Proof.
  induction s as [|c s IH].
  - intros H%occurs_head. cbn in *.
    destruct (PyStr.match_prefix_ci pat "") as [r|] eqn:Hm; [|reflexivity].
    apply (match_prefix_app _ _ _ tail) in Hm. cbn in Hm. congruence.
  - change (String c s ++ tail)%string with (String c (s ++ tail)).
    intros [Hm H]%occurs_cons. apply occurs_cons. split; [|now apply IH].
    destruct (PyStr.match_prefix_ci pat (String c s)) as [r|] eqn:Hp; [|reflexivity].
    apply (match_prefix_app _ _ _ tail) in Hp.
    change (String c s ++ tail)%string with (String c (s ++ tail)) in Hp. congruence.
Qed.

Lemma clashes_no_match (pat r x : string) :
  clashes pat r = true -> PyStr.match_prefix_ci pat (r ++ x) = None.
Proof.
  revert r. induction pat as [|a pat IH]; intros r; [discriminate|].
  destruct r as [|b r]; [discriminate|].
  change (String b r ++ x)%string with (String b (r ++ x)). cbn.
  destruct (Ascii.eqb a (PyStr.lower b)); [apply IH | reflexivity].
Qed.

(** A match cannot begin inside the replacement text. *)
Lemma occurs_repl (pat repl x : string) :
  clashes_inside pat repl = true -> occurs_ci pat (repl ++ x) = occurs_ci pat x.
Proof.
  induction repl as [|b repl IH]; [reflexivity|].
  cbn [clashes_inside]. intros [Hc Hi]%andb_true_iff.
  change (String b repl ++ x)%string with (String b (repl ++ x)).
  change (occurs_ci pat (String b (repl ++ x)))
    with (match PyStr.match_prefix_ci pat (String b repl ++ x) with
          | Some _ => true
          | None => occurs_ci pat (repl ++ x)
          end).
  rewrite (clashes_no_match _ _ x Hc). now apply IH.
Qed.

(** Where the text had no match at its head, the text after the scan has
    none: a match there would run over kept characters only, or into the
    head of a replacement. *)
Lemma head_after_scan (alts : list string) (repl pat : string) :
  clashes_across pat repl = true -> pat <> EmptyString ->
  forall fuel s,
    PyStr.match_prefix_ci pat s = None ->
    PyStr.match_prefix_ci pat (PyStr.re_sub_ci fuel alts repl s) = None.
Proof.
  induction pat as [|a pat IH]; [done|].
  cbn [clashes_across]. intros [Hc Ha]%andb_true_iff _ fuel s Hs.
  destruct fuel as [|fuel]; [exact Hs|].
  destruct s as [|c s]; [reflexivity|]. cbn [PyStr.re_sub_ci].
  destruct (PyStr.first_match alts (String c s)) as [rest|].
  - now apply clashes_no_match.
  - cbn in *. destruct (Ascii.eqb a (PyStr.lower c)); [|reflexivity].
    apply IH; [exact Ha| |exact Hs].
    intros ->. discriminate.
Qed.

(** One [re.sub] keeps a phrase absent ... *)
Lemma pass_keeps_free (alts : list string) (repl pat : string) :
  avoids repl pat = true -> pat <> EmptyString ->
  forall fuel s,
    occurs_ci pat s = false ->
    occurs_ci pat (PyStr.re_sub_ci fuel alts repl s) = false.
Proof.
  intros [Hi Ha]%andb_true_iff Hne fuel.
  induction fuel as [|fuel IH]; intros s Hs; [exact Hs|].
  destruct s as [|c s]; [exact Hs|]. cbn [PyStr.re_sub_ci].
  destruct (PyStr.first_match alts (String c s)) as [rest|] eqn:Hfirst.
  - rewrite occurs_repl by exact Hi. apply IH.
    apply first_match_Some in Hfirst as (q & _ & Hq).
    apply match_prefix_split in Hq as (pre & Heq & _).
    rewrite Heq in Hs. now apply occurs_suffix in Hs.
  - apply occurs_cons in Hs as [Hm Hs]. apply occurs_cons. split; [|now apply IH].
    pose proof (head_after_scan alts repl pat Ha Hne (S fuel) (String c s) Hm) as H.
    cbn [PyStr.re_sub_ci] in H. now rewrite Hfirst in H.
Qed.

(** ... and removes the phrases it looks for. *)
Lemma pass_makes_free (alts : list string) (repl pat : string) :
  Forall (fun q => q <> EmptyString) alts -> In pat alts ->
  avoids repl pat = true ->
  forall fuel s,
    (String.length s <= fuel)%nat ->
    occurs_ci pat (PyStr.re_sub_ci fuel alts repl s) = false.
Proof.
  intros Halts Hin Havoid.
  assert (Hne : pat <> EmptyString).
  { rewrite Forall_forall in Halts. apply Halts. now apply list_elem_of_In. }
  pose proof Havoid as [Hi Ha]%andb_true_iff.
  induction fuel as [|fuel IH]; intros s Hlen.
  - destruct s as [|c s]; [|cbn in Hlen; lia]. cbn.
    destruct pat; [done | reflexivity].
  - destruct s as [|c s]; [cbn; destruct pat; [done | reflexivity]|].
    cbn [PyStr.re_sub_ci]. cbn in Hlen.
    destruct (PyStr.first_match alts (String c s)) as [rest|] eqn:Hfirst.
    + rewrite occurs_repl by exact Hi. apply IH.
      apply first_match_Some in Hfirst as (q & Hq & Hm).
      apply match_prefix_split in Hm as (pre & Heq & Hpre).
      assert (q <> EmptyString).
      { rewrite Forall_forall in Halts. apply Halts. now apply list_elem_of_In. }
      assert (String.length (String c s) = String.length (pre ++ rest)) as Hl
        by now rewrite Heq.
      rewrite length_append, Hpre in Hl. cbn in Hl.
      destruct q; [done|]. cbn in Hl. lia.
    + apply occurs_cons. split; [|apply IH; lia].
      pose proof (first_match_None _ _ _ Hfirst Hin) as Hm.
      pose proof (head_after_scan alts repl pat Ha Hne (S fuel) (String c s) Hm) as H.
      cbn [PyStr.re_sub_ci] in H. now rewrite Hfirst in H.
Qed.

(** The loop over the patterns: the phrases of the patterns gone through are
    absent, and stay so. *)
Lemma passes_make_free (repl : string) (patterns : list (list string)) :
  Forall (Forall (fun pat => pat <> EmptyString /\ avoids repl pat = true)) patterns ->
  forall (text : string) (done : list string),
    Forall (fun pat => pat <> EmptyString /\ avoids repl pat = true
                       /\ occurs_ci pat text = false) done ->
    Forall (fun pat =>
              occurs_ci pat
                (fold_left
                   (fun text pattern =>
                      PyStr.re_sub_ci (S (String.length text)) pattern repl text)
                   patterns text) = false)
      (done ++ List.concat patterns).
Proof.
  induction patterns as [|alts patterns IH]; intros Hpats text done Hdone.
  - cbn. rewrite app_nil_r. eapply Forall_impl; [exact Hdone|]. now intros pat (_ & _ & H).
  - apply Forall_cons in Hpats as [Halts Hpats].
    cbn [fold_left List.concat]. rewrite app_assoc. apply IH; [exact Hpats|].
    apply Forall_app. split.
    + eapply Forall_impl; [exact Hdone|]. intros pat (Hne & Hav & Hfree).
      split; [exact Hne|]. split; [exact Hav|]. now apply pass_keeps_free.
    + apply Forall_forall. intros pat Hin.
      rewrite Forall_forall in Halts. destruct (Halts _ Hin) as [Hne Hav].
      split; [exact Hne|]. split; [exact Hav|].
      apply pass_makes_free; [| |exact Hav|lia].
      * apply Forall_forall. intros q Hq. now destruct (Halts _ Hq).
      * now apply list_elem_of_In.
Qed.

(** [strip] *)

Lemma lstrip_suffix (s : string) : exists pre, s = (pre ++ PyStr.lstrip s)%string.
Proof.
  induction s as [|c s [pre IH]]; [now exists EmptyString|]. cbn.
  destruct (PyStr.is_space c).
  - exists (String c pre).
    change (String c s = String c (pre ++ PyStr.lstrip s)). now f_equal.
  - now exists EmptyString.
Qed.

Lemma rstrip_prefix (s : string) : exists tail, s = (PyStr.rstrip s ++ tail)%string.
Proof.
  induction s as [|c s [tail IH]]; [now exists EmptyString|]. cbn.
  destruct (PyStr.rstrip s) as [|d r] eqn:Hr.
  - destruct (PyStr.is_space c).
    + now exists (String c s).
    + exists s. reflexivity.
  - exists tail.
    change (String c s = String c (String d r ++ tail)). now f_equal.
Qed.

Lemma occurs_strip (pat s : string) :
  occurs_ci pat s = false -> occurs_ci pat (PyStr.strip s) = false.
Proof.
  intros H. unfold PyStr.strip.
  destruct (lstrip_suffix s) as [pre Hpre]. rewrite Hpre in H. apply occurs_suffix in H.
  destruct (rstrip_prefix (PyStr.lstrip s)) as [tail Htail]. rewrite Htail in H.
  now apply occurs_prefix in H.
Qed.

Lemma lstrip_head (s : string) :
  match PyStr.lstrip s with
  | EmptyString => True
  | String c _ => PyStr.is_space c = false
  end.
Proof.
  induction s as [|c s IH]; [exact I|]. cbn.
  destruct (PyStr.is_space c) eqn:Hc; [exact IH | exact Hc].
Qed.

Lemma rstrip_rstrip (s : string) : PyStr.rstrip (PyStr.rstrip s) = PyStr.rstrip s.
Proof.
  induction s as [|c s IH]; [reflexivity|]. cbn.
  destruct (PyStr.rstrip s) as [|d r] eqn:Hr.
  - destruct (PyStr.is_space c) eqn:Hc; [reflexivity|]. cbn. now rewrite Hc.
  - change (PyStr.rstrip (String c (String d r)))
      with (match PyStr.rstrip (String d r) with
            | EmptyString => if PyStr.is_space c then EmptyString else String c EmptyString
            | String e r' => String c (String e r')
            end).
    now rewrite IH.
Qed.

Lemma strip_strip (s : string) : PyStr.strip (PyStr.strip s) = PyStr.strip s.
Proof.
  unfold PyStr.strip. pose proof (lstrip_head s) as Hhead.
  destruct (PyStr.lstrip s) as [|c u]; [reflexivity|].
  assert (Hl : PyStr.lstrip (PyStr.rstrip (String c u)) = PyStr.rstrip (String c u)).
  { cbn. destruct (PyStr.rstrip u); [rewrite Hhead|]; cbn; now rewrite Hhead. }
  now rewrite Hl, rstrip_rstrip.
Qed.

Lemma block_patterns_avoid :
  Forall (Forall (fun pat => pat <> EmptyString /\ avoids "[filtered]" pat = true))
    BLOCK_PATTERNS.
Proof. repeat constructor; discriminate. Qed.

Lemma sanitize_free (text : string) :
  Forall (fun pat => occurs_ci pat (sanitize text) = false) blocked_phrases.
Proof.
  unfold sanitize. destruct (PyStr.is_empty text).
  - unfold blocked_phrases. cbn. repeat constructor.
  - eapply Forall_impl.
    + apply (passes_make_free "[filtered]" BLOCK_PATTERNS block_patterns_avoid
               (PyStr.take 3000 text) []). constructor.
    + intros pat H. now apply occurs_strip.
Qed.

(** X9.  The text [sanitize] returns contains none of the phrases of
    [BLOCK_PATTERNS], in any mix of upper and lower case, at any position:
    the replacement of one phrase neither leaves nor creates a match of
    another (the brackets of [[filtered]] keep the texts around it apart),
    and the final [strip] cannot bring one about.  The text has no leading
    or trailing white space, and [sanitize] of the empty string is the
    empty string. *)
Theorem sanitize_redacts (text : string) :
  Forall (fun pat => occurs_ci pat (sanitize text) = false) blocked_phrases
  /\ PyStr.strip (sanitize text) = sanitize text
  /\ sanitize EmptyString = EmptyString.
Proof.
  split; [apply sanitize_free|]. split; [|reflexivity].
  unfold sanitize. destruct (PyStr.is_empty text); [reflexivity | apply strip_strip].
Qed.

(** ** [sanitize] on a text without blocked phrase *)

Lemma first_match_none_intro (alts : list string) (s : string) :
  Forall (fun pat => PyStr.match_prefix_ci pat s = None) alts ->
  PyStr.first_match alts s = None.
Proof.
  induction 1 as [|p alts Hp _ IH]; [reflexivity|]. cbn. now rewrite Hp.
Qed.

Lemma pass_id (alts : list string) (repl : string) (fuel : nat) (s : string) :
  Forall (fun pat => occurs_ci pat s = false) alts ->
  PyStr.re_sub_ci fuel alts repl s = s.
Proof.
  revert s. induction fuel as [|fuel IH]; intros s Hfree; [reflexivity|].
  destruct s as [|c s]; [reflexivity|]. cbn [PyStr.re_sub_ci].
  rewrite first_match_none_intro.
  - f_equal. apply IH. eapply Forall_impl; [exact Hfree|].
    now intros pat [_ H]%occurs_cons.
  - eapply Forall_impl; [exact Hfree|]. now intros pat [H _]%occurs_cons.
Qed.

Lemma passes_id (repl : string) (patterns : list (list string)) (text : string) :
  Forall (fun pat => occurs_ci pat text = false) (List.concat patterns) ->
  fold_left
    (fun text pattern => PyStr.re_sub_ci (S (String.length text)) pattern repl text)
    patterns text = text.
Proof.
  induction patterns as [|alts patterns IH]; [reflexivity|].
  cbn [List.concat fold_left]. intros [Halts Hrest]%Forall_app.
  rewrite pass_id by exact Halts. now apply IH.
Qed.

(** X10.  [sanitize] changes a text that holds no blocked phrase in its first
    3000 characters by the cut and the [strip] alone: it returns those
    characters without the white space around them. *)
Theorem sanitize_clean_text (text : string) :
  Forall (fun pat => occurs_ci pat (PyStr.take 3000 text) = false) blocked_phrases ->
  sanitize text = PyStr.strip (PyStr.take 3000 text).
Proof.
  intros Hfree. unfold sanitize.
  destruct text as [|c text]; [reflexivity|]. cbn [PyStr.is_empty].
  now rewrite passes_id.
Qed.

Lemma sanitize_clean_text_witness : sanitize "  Design the schema " = "Design the schema".
Proof.
  rewrite (sanitize_clean_text "  Design the schema ").
  - vm_compute. reflexivity.
  - unfold blocked_phrases, BLOCK_PATTERNS. cbn [List.concat app].
    repeat (apply Forall_cons; split; [vm_compute; reflexivity|]). apply Forall_nil_2.
Defined.

(** ** The client of the completion service *)

(** X11.  What a normal return of [generate_completion] guarantees: the API
    key is set, the service answered with status 200 and a JSON object, the
    [usage] returned is an object (the one of the answer, or the empty one)
    whose [total_tokens], when an integer, is at most 8000, and the content
    is the text under [choices[0].message.content] of the answer, stripped:
    it has no white space at either end. *)
Theorem generate_completion_returns (cfg : LlmClient.Settings)
    (post : LlmClient.Payload -> LlmClient.Outcome LlmClient.Response)
    (prompt : string) (model : option string) (temperature : Q)
    (content : string) (usage : json) :
  LlmClient.generate_completion cfg post prompt model temperature
    = LlmClient.Returns (content, usage) ->
  exists api_key response data items raw,
    LlmClient.OPENROUTER_API_KEY cfg = Some api_key /\ api_key <> EmptyString
    /\ post (LlmClient.payload cfg api_key prompt model temperature)
       = LlmClient.Returns response
    /\ LlmClient.status_code response = 200%nat
    /\ LlmClient.body response = Some data
    /\ LlmClient.get "usage" (JDict []) data = LlmClient.Returns usage
    /\ usage = JDict items
    /\ (forall n, dict_get "total_tokens" items = Some (JInt n) -> n <= 8000)
    /\ LlmClient.content_of data = LlmClient.Returns (JStr raw)
    /\ content = PyStr.strip raw
    /\ PyStr.strip content = content.
Proof.
  unfold LlmClient.generate_completion.
  destruct (LlmClient.OPENROUTER_API_KEY cfg) as [[|c key]|] eqn:Hkey; try discriminate.
  set (api_key := String c key).
  destruct (post (LlmClient.payload cfg api_key prompt model temperature))
    as [response|cls msg] eqn:Hpost; [|discriminate].
  cbn [LlmClient.bind].
  destruct (Nat.eqb_spec (LlmClient.status_code response) 200) as [Hstatus|];
    [|discriminate].
  cbn [negb].
  destruct (LlmClient.body response) as [data|] eqn:Hbody; [|discriminate].
  cbn [LlmClient.bind].
  destruct (LlmClient.get "choices" JNull data) as [choices|cls msg]; [|discriminate].
  cbn [LlmClient.bind].
  destruct (LlmClient.truthy choices); [|discriminate]. cbn [negb].
  destruct (LlmClient.get "usage" (JDict []) data) as [usage0|cls msg] eqn:Husage;
    [|discriminate].
  cbn [LlmClient.bind].
  destruct usage0 as [| | | | | |items]; try discriminate.
  cbn [LlmClient.get LlmClient.bind].
  destruct (LlmClient.gt _ 8000) as [[|]|cls msg] eqn:Hover; try discriminate.
  cbn [LlmClient.bind].
  intros Hret.
  assert (Hcontent :
            exists raw, LlmClient.content_of data = LlmClient.Returns (JStr raw)
                        /\ content = PyStr.strip raw /\ usage = JDict items).
  { unfold LlmClient.content_of.
    destruct (LlmClient.getitem "choices" data) as [v1|? ?]; [|discriminate].
    cbn [LlmClient.bind] in *.
    destruct (LlmClient.first v1) as [v2|? ?]; [|discriminate].
    cbn [LlmClient.bind] in *.
    destruct (LlmClient.getitem "message" v2) as [v3|? ?]; [|discriminate].
    cbn [LlmClient.bind] in *.
    destruct (LlmClient.getitem "content" v3) as [v4|? ?]; [|discriminate].
    cbn [LlmClient.bind] in *.
    destruct v4 as [| | | |raw| |]; try discriminate.
    cbn in Hret. injection Hret as <- <-. now exists raw. }
  destruct Hcontent as (raw & Hraw & -> & ->).
  exists api_key, response, data, items, raw.
  repeat (split; [first [reflexivity | assumption | discriminate]|]).
  split.
  - intros n Hn. rewrite Hn in Hover. cbn in Hover. injection Hover as Hover.
    apply Z.ltb_ge in Hover. exact Hover.
  - repeat split; [exact Hraw | apply strip_strip].
Qed.

Lemma generate_completion_returns_witness :
  exists raw,
    LlmClient.content_of
      (JDict [("choices",
               JList [JDict [("message", JDict [("content", JStr " schema.sql ")])]]);
              ("usage", JDict [("total_tokens", JInt 120)])])
    = LlmClient.Returns (JStr raw)
    /\ "schema.sql" = PyStr.strip raw.
Proof.
  destruct (generate_completion_returns
              (LlmClient.mkSettings (Some "sk-or-1") "deepseek/deepseek-chat")
              (fun _ =>
                 LlmClient.Returns
                   (LlmClient.mkResponse 200 ""
                      (Some (JDict [("choices",
                                     JList [JDict [("message",
                                                    JDict [("content",
                                                            JStr " schema.sql ")])]]);
                                    ("usage", JDict [("total_tokens", JInt 120)])]))))
              "Design the schema" None (4 # 10)
              "schema.sql" (JDict [("total_tokens", JInt 120)]))
    as (api_key & response & data & items & raw & _ & _ & Hpost & _ & Hbody & _ & _ & _
        & Hraw & Hcontent & _).
  - vm_compute. reflexivity.
  - injection Hpost as <-. cbn in Hbody. injection Hbody as <-.
    exists raw. split; [exact Hraw | exact Hcontent].
Defined.

(** X12.  The safety cap.  When the service answers with status 200 and a
    JSON object that has a non-empty [choices] and a [usage] object whose
    [total_tokens] is an integer above 8000, [generate_completion] raises
    [RuntimeError("Token limit exceeded for safety")] and returns no text,
    whatever the answer holds besides. *)
Theorem generate_completion_token_cap (cfg : LlmClient.Settings)
    (post : LlmClient.Payload -> LlmClient.Outcome LlmClient.Response)
    (prompt : string) (model : option string) (temperature : Q)
    (api_key : string) (response : LlmClient.Response)
    (items usage : list (string * json)) (choices : json) (n : Z) :
  LlmClient.OPENROUTER_API_KEY cfg = Some api_key ->
  api_key <> EmptyString ->
  post (LlmClient.payload cfg api_key prompt model temperature) = LlmClient.Returns response ->
  LlmClient.status_code response = 200%nat ->
  LlmClient.body response = Some (JDict items) ->
  dict_get "choices" items = Some choices ->
  LlmClient.truthy choices = true ->
  dict_get "usage" items = Some (JDict usage) ->
  dict_get "total_tokens" usage = Some (JInt n) ->
  8000 < n ->
  LlmClient.generate_completion cfg post prompt model temperature
  = LlmClient.Raises "RuntimeError" "Token limit exceeded for safety".
Proof.
  intros Hkey Hne Hpost Hstatus Hbody Hchoices Htruthy Husage Htotal Hn.
  unfold LlmClient.generate_completion. rewrite Hkey.
  destruct api_key as [|c key]; [done|].
  rewrite Hpost. cbn [LlmClient.bind]. rewrite Hstatus, Hbody. cbn [Nat.eqb negb].
  cbn [LlmClient.bind LlmClient.get]. rewrite Hchoices, Htruthy. cbn [negb].
  rewrite Husage. cbn [LlmClient.bind LlmClient.get]. rewrite Htotal.
  cbn [LlmClient.bind LlmClient.gt].
  apply Z.ltb_lt in Hn. now rewrite Hn.
Qed.

Lemma generate_completion_token_cap_witness :
  LlmClient.generate_completion
    (LlmClient.mkSettings (Some "sk-or-1") "deepseek/deepseek-chat")
    (fun _ =>
       LlmClient.Returns
         (LlmClient.mkResponse 200 ""
            (Some (JDict [("choices",
                           JList [JDict [("message", JDict [("content", JStr "text")])]]);
                          ("usage", JDict [("total_tokens", JInt 8001)])]))))
    "Design the schema" None (4 # 10)
  = LlmClient.Raises "RuntimeError" "Token limit exceeded for safety".
Proof.
  eapply (generate_completion_token_cap _ _ _ _ _ "sk-or-1" _ _ _ _ 8001).
  - reflexivity.
  - discriminate.
  - reflexivity.
  - reflexivity.
  - reflexivity.
  - vm_compute. reflexivity.
  - reflexivity.
  - vm_compute. reflexivity.
  - vm_compute. reflexivity.
  - lia.
Defined.

(** ** The handlers that read *)

(** X13.  For a run of the user whose tasks carry distinct order indexes,
    [list_run_tasks] returns the tasks of the run, each once, by strictly
    increasing [order_index], which fixes the list; they are the rows that
    [summarize_run] hands to the Reporter, in the same order, since the join
    on the owner filters nothing once the run was found.  The handler
    changes and commits nothing. *)
Theorem list_run_tasks_shows_run_tasks (run_id user_id : nat) (s : Store)
    (r : Run) (p : Project) :
  find_run s run_id user_id = Some (r, p) ->
  distinct_order_index s run_id ->
  exists rows,
    run_request (list_run_tasks run_id user_id) s = (Ok rows, s)
    /\ history (snd (list_run_tasks run_id user_id (open_session s))) = []
    /\ StronglySorted Z.lt (map (fun task => t_order_index (snd task)) rows)
    /\ NoDup rows.*1
    /\ (forall id row,
          (id, row) ∈ rows <-> tasks s !! id = Some row /\ t_run_id row = run_id)
    /\ rows = run_tasks s run_id.
Proof.
  intros Hfind Hdistinct.
  assert (Hfilter : filter (is_owned_task_of s run_id user_id) (map_to_list (tasks s))
                    = filter (is_task_of run_id) (map_to_list (tasks s))).
  { apply list_filter_iff. intros [id row]. unfold is_owned_task_of, is_task_of. cbn.
    split; [tauto|]. intros ->. rewrite Hfind. split; [reflexivity | eauto]. }
  exists (run_tasks s run_id).
  split; [|split; [|split; [|split; [|split]]]].
  - unfold run_request, list_run_tasks, open_session, bind, read. cbn [working].
    rewrite Hfind. cbn [working committed]. unfold run_tasks. now rewrite Hfilter.
  - unfold list_run_tasks, open_session, bind, read. cbn [working]. now rewrite Hfind.
  - now apply run_tasks_strictly_sorted.
  - apply run_tasks_NoDup.
  - intros id row. apply (run_tasks_elem s run_id (id, row)).
  - reflexivity.
Qed.

Lemma list_run_tasks_shows_run_tasks_witness :
  run_request (list_run_tasks 0 7) Demo.store1
  = (Ok [(0%nat, Demo.task0); (1%nat, Demo.task1)], Demo.store1).
Proof.
  destruct (list_run_tasks_shows_run_tasks 0 7 Demo.store1
              (mkRun 1 RPlanned None false false)
              (mkProject "Site" (Some "Build a site") 7 false))
    as (rows & Hrun & _ & _ & _ & _ & Hrows).
  - vm_compute. reflexivity.
  - apply distinct_order_index_check. apply (bool_decide_unpack _). vm_compute. reflexivity.
  - rewrite Hrun, Hrows. vm_compute. reflexivity.
Defined.

(** ** Reading after writing *)

Lemma keeps_find_run (s s' : Store) (run_id user_id : nat) :
  keeps s s' ->
  is_Some (find_run s run_id user_id) -> is_Some (find_run s' run_id user_id).
Proof.
  intros (_ & _ & Hruns & Hprojects) [[r p] Hfind].
  pose proof (find_run_Some _ _ _ _ _ Hfind) as Hr.
  pose proof (find_project_Some _ _ _ _ (find_run_project _ _ _ _ _ Hfind)) as Hp.
  assert (Howner : p_owner_id p = user_id).
  { apply find_run_project in Hfind. unfold find_project in Hfind. rewrite Hp in Hfind.
    destruct (Nat.eqb_spec (p_owner_id p) user_id); [done | discriminate]. }
  destruct (Hruns _ _ Hr) as (r' & Hr' & Hproject & _).
  destruct (Hprojects _ _ Hp) as (p' & Hp' & _ & _ & Howner').
  unfold find_run, find_project. rewrite Hr', Hproject, Hp', Howner', Howner, Nat.eqb_refl.
  eauto.
Qed.

Lemma list_run_logs_eq (run_id user_id : nat) (s : Store) :
  is_Some (find_run s run_id user_id) ->
  run_request (list_run_logs run_id user_id) s
  = (Ok (filter (fun l => l_run_id l = run_id) (logs s)), s).
Proof.
  intros [[r p] Hfind].
  unfold run_request, list_run_logs, open_session, bind, read. cbn [working].
  rewrite Hfind. cbn [working committed]. do 2 f_equal.
  apply list_filter_iff. intros l. unfold is_owned_log_of.
  split; [tauto|]. intros Hl. split; [exact Hl|]. rewrite Hl, Hfind. eauto.
Qed.

(** X14.  What the owner reads with [list_run_logs] before and after an
    execute request on the run: the rows read before, in the same order,
    followed by one new row per task that was pending.  The rows of the
    other runs are never shown, and reading changes nothing. *)
Theorem execute_then_list_run_logs (lib : Builtins) (env : Env) (run_id user_id : nat)
    (s : Store) (r : Run) (p : Project) :
  find_run s run_id user_id = Some (r, p) ->
  r_is_locked r = false ->
  pending_tasks s run_id <> [] ->
  let s' := snd (serve lib env (Execute run_id user_id) s) in
  exists before new,
    run_request (list_run_logs run_id user_id) s = (Ok before, s)
    /\ run_request (list_run_logs run_id user_id) s' = (Ok (before ++ new)%list, s')
    /\ length new = length (pending_tasks s run_id)
    /\ Forall (fun l => l_run_id l = run_id) (before ++ new)%list.
Proof.
  intros Hfind Hlocked Hpending. cbn zeta.
  destruct (execute_store lib env run_id user_id s r p Hfind Hlocked Hpending)
    as (_ & _ & new & Hlogs & Hlen & Hrun).
  assert (Hsome : is_Some (find_run s run_id user_id)) by (rewrite Hfind; eauto).
  pose proof (keeps_find_run _ _ run_id user_id
                (keeps_serve lib env (Execute run_id user_id) s) Hsome) as Hsome'.
  exists (filter (fun l => l_run_id l = run_id) (logs s)), new.
  split; [now apply list_run_logs_eq|]. split; [|split; [exact Hlen|]].
  - rewrite list_run_logs_eq by exact Hsome'. rewrite Hlogs, filter_app. do 3 f_equal.
    clear -Hrun. induction Hrun as [|l new Hl _ IH]; [reflexivity|].
    rewrite filter_cons_True by exact Hl. now rewrite IH.
  - apply Forall_app. split; [|exact Hrun].
    apply Forall_forall. now intros l [Hl _]%list_elem_of_filter.
Qed.

Lemma execute_then_list_run_logs_witness :
  exists before new,
    run_request (list_run_logs 0 7)
      (snd (serve Fixture.lib (Demo.env_of [Demo.says "schema.sql"]) (Execute 0 7)
              Demo.store1))
    = (Ok (before ++ new)%list,
       snd (serve Fixture.lib (Demo.env_of [Demo.says "schema.sql"]) (Execute 0 7)
              Demo.store1))
    /\ length new = 2%nat.
Proof.
  destruct (execute_then_list_run_logs Fixture.lib (Demo.env_of [Demo.says "schema.sql"])
              0 7 Demo.store1 (mkRun 1 RPlanned None false false)
              (mkProject "Site" (Some "Build a site") 7 false))
    as (before & new & _ & Hafter & Hlen & _).
  - vm_compute. reflexivity.
  - reflexivity.
  - vm_compute. discriminate.
  - exists before, new. split; [exact Hafter | exact Hlen].
Defined.

(** X15.  [list_runs] selects the archived runs, so the run a create-and-plan
    request has just made is not in its answer, whether the Planner returned
    or raised, while every run the project had before is, archived; the new
    run shows up only once a later create-and-plan request has archived it.
    No run of another user is ever in the answer. *)
Theorem list_runs_hides_active_run (lib : Builtins) (env : Env)
    (project_id user_id : nat) (s : Store) (p : Project) :
  find_project s project_id user_id = Some p ->
  p_is_locked p = false ->
  store_fault env ArchivePriorRuns = None ->
  let s' := snd (serve lib env (CreateAndPlan project_id user_id) s) in
  let run_id := fresh (dom (runs s)) in
  exists listed,
    run_request (list_runs user_id) s' = (Ok listed, s')
    /\ is_Some (runs s' !! run_id)
    /\ listed !! run_id = None
    /\ (forall id r, runs s !! id = Some r -> r_project_id r = project_id ->
          listed !! id = Some (set_r_is_archived true r))
    /\ (forall id r, listed !! id = Some r ->
          r_is_archived r = true
          /\ exists q, projects s' !! r_project_id r = Some q /\ p_owner_id q = user_id).
Proof.
  intros Hfind Hlocked Hfault. cbn zeta.
  destruct (create_and_plan_store lib env project_id user_id s p Hfind Hlocked Hfault)
    as (Hprojects & Hruns & Hnew & _).
  set (s' := snd (serve lib env (CreateAndPlan project_id user_id) s)) in *.
  assert (Hproject : forall pid, find_project s' pid user_id = find_project s pid user_id).
  { intros pid. unfold find_project. now rewrite Hprojects. }
  exists (filter (is_listed_run s' user_id) (runs s')).
  split; [reflexivity|]. split; [|split; [|split]].
  - rewrite Hruns, lookup_insert_eq. eauto.
  - apply map_lookup_filter_None. right. intros r Hr [_ Harchived].
    rewrite Hruns, lookup_insert_eq in Hr. injection Hr as <-. discriminate.
  - intros id r Hid Hpid.
    assert (Hne : fresh (dom (runs s)) <> id) by (intros <-; congruence).
    apply map_lookup_filter_Some. split.
    + rewrite Hruns, lookup_insert_ne, lookup_fmap, Hid by done. cbn. f_equal.
      unfold archive_run. rewrite Hpid, Nat.eqb_refl.
      destruct r as [pid st fs [|] lk]; reflexivity.
    + split; [|reflexivity]. cbn. rewrite Hproject, Hpid, Hfind. eauto.
  - intros id r [Hid [[q Hq] Harchived]]%map_lookup_filter_Some. cbn in *.
    split; [exact Harchived|]. exists q. split; [now apply find_project_Some in Hq|].
    unfold find_project in Hq. destruct (projects s' !! r_project_id r) as [q0|]; [|done].
    destruct (Nat.eqb_spec (p_owner_id q0) user_id); [congruence | discriminate].
Qed.

Lemma list_runs_hides_active_run_witness :
  exists listed,
    run_request (list_runs 7)
      (snd (serve Fixture.lib (Demo.env_of [Demo.says Demo.plan_text]) (CreateAndPlan 1 7)
              Demo.store0))
    = (Ok listed,
       snd (serve Fixture.lib (Demo.env_of [Demo.says Demo.plan_text]) (CreateAndPlan 1 7)
              Demo.store0))
    /\ listed !! 0%nat = None.
Proof.
  destruct (list_runs_hides_active_run Fixture.lib (Demo.env_of [Demo.says Demo.plan_text])
              1 7 Demo.store0 (mkProject "Site" (Some "Build a site") 7 false))
    as (listed & Hlist & _ & Hnew & _).
  - vm_compute. reflexivity.
  - reflexivity.
  - reflexivity.
  - exists listed. split; [exact Hlist | exact Hnew].
Defined.

(** ** Referential integrity *)

Lemma keeps_run_exists (s s' : Store) (run_id : nat) :
  keeps s s' -> is_Some (runs s !! run_id) -> is_Some (runs s' !! run_id).
Proof. intros (_ & _ & Hruns & _) [r Hr]. destruct (Hruns _ _ Hr) as (r' & -> & _). eauto. Qed.

Lemma keeps_project_exists (s s' : Store) (project_id : nat) :
  keeps s s' -> is_Some (projects s !! project_id) -> is_Some (projects s' !! project_id).
Proof.
  intros (_ & _ & _ & Hprojects) [p Hp]. destruct (Hprojects _ _ Hp) as (p' & -> & _). eauto.
Qed.

Lemma referential_step (s s' : Store) :
  keeps s s' -> new_rows_point s s' -> referential s -> referential s'.
Proof.
  intros Hkeeps (Htasks & (new & Hlogs & Hnew) & Hruns) (Rtasks & Rlogs & Rruns).
  split; [|split].
  - intros id row' Hid. destruct (Htasks _ _ Hid) as [(row & Hrow & ->)|H]; [|exact H].
    eapply keeps_run_exists; [exact Hkeeps|]. exact (Rtasks _ _ Hrow).
  - rewrite Hlogs. apply Forall_app. split; [|exact Hnew].
    eapply Forall_impl; [exact Rlogs|]. intros l. now apply keeps_run_exists.
  - intros id r' Hid. destruct (Hruns _ _ Hid) as [(r & Hr & ->)|H]; [|exact H].
    eapply keeps_project_exists; [exact Hkeeps|]. exact (Rruns _ _ Hr).
Qed.

Lemma new_rows_point_refl (s : Store) : new_rows_point s s.
Proof.
  split; [|split].
  - intros id row Hid. left. eauto.
  - exists []. split; [now rewrite app_nil_r | constructor].
  - intros id r Hid. left. eauto.
Qed.

(** Tables over the same keys bring no new row. *)
Lemma old_tasks (s s' : Store) :
  keeps s s' -> dom (tasks s') = dom (tasks s) ->
  forall id row', tasks s' !! id = Some row' ->
    exists row, tasks s !! id = Some row /\ t_run_id row' = t_run_id row.
Proof.
  intros (_ & Htasks & _) Hdom id row' Hid.
  assert (Hin : id ∈ dom (tasks s)) by (rewrite <- Hdom; apply elem_of_dom; eauto).
  apply elem_of_dom in Hin as [row Hrow]. exists row. split; [exact Hrow|].
  destruct (Htasks _ _ Hrow) as (row'' & Hid' & Hsame & _). congruence.
Qed.

Lemma old_runs (s s' : Store) :
  keeps s s' -> dom (runs s') = dom (runs s) ->
  forall id r', runs s' !! id = Some r' ->
    exists r, runs s !! id = Some r /\ r_project_id r' = r_project_id r.
Proof.
  intros (_ & _ & Hruns & _) Hdom id r' Hid.
  assert (Hin : id ∈ dom (runs s)) by (rewrite <- Hdom; apply elem_of_dom; eauto).
  apply elem_of_dom in Hin as [r Hr]. exists r. split; [exact Hr|].
  destruct (Hruns _ _ Hr) as (r'' & Hid' & Hsame & _). congruence.
Qed.

Lemma new_rows_point_serve (lib : Builtins) (env : Env) (req : Request) (s : Store) :
  new_rows_point s (snd (serve lib env req s)).
Proof.
  pose proof (keeps_serve lib env req s) as Hkeeps.
  destruct req as [project_id user_id|run_id user_id|run_id user_id].
  - destruct (find_project s project_id user_id) as [p|] eqn:Hfind.
    2:{ unfold serve, create_and_plan_run, open_session, bind, read. cbn [working].
        rewrite Hfind. apply new_rows_point_refl. }
    destruct (p_is_locked p) eqn:Hlocked.
    { unfold serve, create_and_plan_run, open_session, bind, read. cbn [working].
      rewrite Hfind, Hlocked. apply new_rows_point_refl. }
    destruct (store_fault env ArchivePriorRuns) as [e|] eqn:Hfault.
    { unfold serve, create_and_plan_run, open_session, bind, read. cbn [working].
      rewrite Hfind, Hlocked. unfold archive_prior_runs, guard_site, bind, modify, commit.
      rewrite Hfault. cbn. split; [|split].
      - intros id row Hid. left. eauto.
      - exists []. split; [now rewrite app_nil_r | constructor].
      - intros id r Hid. left. eauto. }
    destruct (create_and_plan_store lib env project_id user_id s p Hfind Hlocked Hfault)
      as (Hprojects & Hruns & Hnew & Hlogs).
    destruct (create_and_plan_tasks lib env project_id user_id s p Hfind Hlocked Hfault)
      as [_ Htasks].
    set (s' := snd (serve lib env (CreateAndPlan project_id user_id) s)) in *.
    split; [|split].
    + intros id row' Hid. destruct (Htasks _ _ Hid) as [Hrow|(Hrun & _)].
      * left. eauto.
      * right. rewrite Hrun, Hruns, lookup_insert_eq. eauto.
    + exists []. split; [now rewrite app_nil_r, Hlogs | constructor].
    + intros id r' Hid. rewrite Hruns in Hid.
      destruct (decide (fresh (dom (runs s)) = id)) as [<-|Hne].
      * right. rewrite lookup_insert_eq in Hid. injection Hid as <-. cbn.
        rewrite Hprojects. apply find_project_Some in Hfind. eauto.
      * left. rewrite lookup_insert_ne, lookup_fmap in Hid by done.
        destruct (runs s !! id) as [r|]; [|discriminate]. injection Hid as <-.
        exists r. split; [reflexivity|]. apply same_run_archive.
  - destruct (find_run s run_id user_id) as [[r p]|] eqn:Hfind.
    2:{ unfold serve. rewrite execute_run_eq, Hfind. apply new_rows_point_refl. }
    destruct (r_is_locked r) eqn:Hlocked.
    { unfold serve. rewrite execute_run_eq, Hfind, Hlocked. apply new_rows_point_refl. }
    destruct (pending_tasks s run_id) as [|task ts] eqn:Hpending.
    { unfold serve. rewrite execute_run_eq, Hfind, Hlocked, Hpending. cbn [snd committed].
      rewrite (lock_unlock_run s run_id r (find_run_Some _ _ _ _ _ Hfind) Hlocked).
      apply new_rows_point_refl. }
    assert (Hne : pending_tasks s run_id <> []) by (rewrite Hpending; discriminate).
    destruct (execute_store lib env run_id user_id s r p Hfind Hlocked Hne)
      as (Hruns & Hprojects & new & Hlogs & _ & Hnew).
    assert (Hdom : dom (tasks (snd (serve lib env (Execute run_id user_id) s)))
                   = dom (tasks s)).
    { unfold serve. rewrite execute_run_eq, Hfind, Hlocked, Hpending.
      cbn [snd committed upd_runs tasks]. apply loop_world_dom. }
    set (s' := snd (serve lib env (Execute run_id user_id) s)) in *.
    split; [|split].
    + intros id row' Hid. left. now apply (old_tasks s s').
    + exists new. split; [exact Hlogs|].
      eapply Forall_impl; [exact Hnew|]. intros l ->.
      rewrite Hruns, lookup_insert_eq. eauto.
    + intros id r' Hid. left. apply (old_runs s s'); [exact Hkeeps| |exact Hid].
      rewrite Hruns. apply dom_insert_lookup_L. apply find_run_Some in Hfind. eauto.
  - unfold serve in *. rewrite summarize_run_eq in *.
    destruct (find_run s run_id user_id) as [[r p]|]; [|apply new_rows_point_refl].
    destruct (run_tasks s run_id) as [|task ts]; [apply new_rows_point_refl|].
    cbn [snd committed] in *. split; [|split].
    + intros id row Hid. left. eauto.
    + exists []. split; [now rewrite app_nil_r | constructor].
    + intros id r' Hid. left. apply (old_runs _ _ Hkeeps); [|exact Hid].
      cbn. now rewrite !dom_alter_L.
Qed.

(** X16.  Referential integrity.  If every task and every log of the store
    belongs to a run of the store, and every run to a project of the store,
    then the same holds after any sequence of requests, in any environment,
    whatever their outcomes: the handlers never leave a row without its
    parent. *)
Theorem referential_integrity (lib : Builtins) (reqs : list (Request * Env)) (s : Store) :
  referential s -> referential (serve_all lib reqs s).
Proof.
  revert s. induction reqs as [|[req env] reqs IH]; intros s Hs; cbn [serve_all].
  - exact Hs.
  - apply IH. eapply referential_step; [apply keeps_serve | apply new_rows_point_serve | exact Hs].
Qed.

Lemma referential_integrity_witness :
  referential
    (serve_all Fixture.lib
       [(Execute 0 7, Demo.env_of [Demo.says "schema.sql"]);
        (CreateAndPlan 1 7, Demo.env_of [Demo.says Demo.plan_text])]
       Demo.store1).
Proof.
  apply (referential_integrity Fixture.lib
           [(Execute 0 7, Demo.env_of [Demo.says "schema.sql"]);
            (CreateAndPlan 1 7, Demo.env_of [Demo.says Demo.plan_text])]
           Demo.store1).
  apply (bool_decide_unpack _). vm_compute. reflexivity.
Defined.

(** ** [delete_run] *)

(** X17.  [delete_run] on a run of the user removes the run together with its
    tasks and its logs, and nothing else: the other runs with their tasks
    and logs, and the projects, are as before, the log keeps its order, and
    referential integrity is kept.  Afterwards the run is not found: every
    [get_run] on it is answered [404]. *)
Theorem delete_run_cascades (run_id user_id : nat) (s : Store) (r : Run) (p : Project) :
  find_run s run_id user_id = Some (r, p) ->
  let s' := snd (run_request (delete_run run_id user_id) s) in
  fst (run_request (delete_run run_id user_id) s) = Ok tt
  /\ projects s' = projects s
  /\ runs s' = delete run_id (runs s)
  /\ (forall id row,
        tasks s' !! id = Some row <-> tasks s !! id = Some row /\ t_run_id row <> run_id)
  /\ logs s' = filter (fun l => l_run_id l <> run_id) (logs s)
  /\ (referential s -> referential s')
  /\ forall user,
       run_request (get_run run_id user) s' = (Raise (HTTPException 404 "Run not found"), s').
Proof.
  intros Hfind. cbn zeta.
  assert (Hrun : run_request (delete_run run_id user_id) s = (Ok tt, db_delete_run run_id s)).
  { unfold run_request, delete_run, open_session, bind, read, modify, commit.
    cbn [working]. now rewrite Hfind. }
  rewrite Hrun. cbn [fst snd db_delete_run projects runs tasks logs].
  split; [reflexivity|]. split; [reflexivity|]. split; [reflexivity|].
  split; [|split; [reflexivity|split]].
  - intros id row. rewrite map_lookup_filter_Some. cbn. tauto.
  - intros (Rtasks & Rlogs & Rruns). split; [|split]; cbn.
    + intros id row [Hid Hne]%map_lookup_filter_Some. cbn in *.
      rewrite lookup_delete_ne by done. exact (Rtasks _ _ Hid).
    + apply Forall_forall. intros l [Hne Hl]%list_elem_of_filter.
      rewrite lookup_delete_ne by done.
      rewrite Forall_forall in Rlogs. now apply Rlogs.
    + intros id r0 Hid. apply lookup_delete_Some in Hid as [_ Hid]. exact (Rruns _ _ Hid).
  - intros user. unfold run_request, get_run, open_session, bind, read. cbn [working].
    unfold find_run. cbn [runs db_delete_run]. now rewrite lookup_delete_eq.
Qed.

Lemma delete_run_cascades_witness :
  tasks (snd (run_request (delete_run 0 7) Demo.store1)) = ∅.
Proof.
  destruct (delete_run_cascades 0 7 Demo.store1 (mkRun 1 RPlanned None false false)
              (mkProject "Site" (Some "Build a site") 7 false))
    as (_ & _ & _ & Htasks & _).
  - vm_compute. reflexivity.
  - apply map_empty. intros id.
    destruct (tasks (snd (run_request (delete_run 0 7) Demo.store1)) !! id) as [row|] eqn:Hid;
      [|reflexivity].
    apply Htasks in Hid as [Hid Hne]. exfalso.
    change (tasks Demo.store1) with (<[1%nat := Demo.task1]> {[0%nat := Demo.task0]} : gmap nat Task)
      in Hid.
    apply lookup_insert_Some in Hid as [[_ <-]|[_ Hid]]; [now apply Hne|].
    apply lookup_singleton_Some in Hid as [_ <-]. now apply Hne.
Defined.

(** ** The exceptions of the Planner *)

Lemma refine_raises env lib n current w e w' :
  refine env lib n current w = (Raise e, w') ->
  exists k, (k < n)%nat /\ completion env (calls w + k) = Failure e.
Proof.
  revert current w. induction n as [|n IH]; intros current w; cbn [refine].
  - discriminate.
  - destruct (json_loads lib current); [discriminate|].
    unfold bind, generate_completion.
    destruct (completion env (calls w)) as [content usage|e0] eqn:Hc; cbn [fst snd].
    + intros H. apply IH in H as (k & Hk & Hfail). cbn [calls] in Hfail.
      exists (S k). split; [lia|]. now rewrite Nat.add_succ_r.
    + intros [= <- <-]. exists 0%nat. split; [lia|]. now rewrite Nat.add_0_r.
Qed.

Lemma py_in_getitem key t :
  py_in key t = Ok true ->
  (exists v, py_getitem key t = Ok v)
  \/ exists msg, py_getitem key t = Raise (PyError TypeError msg).
Proof.
  destruct t as [| | | | | |items]; cbn; try discriminate; eauto.
  destruct (dict_get key items); [eauto | discriminate].
Qed.

Lemma create_tasks_raises lib run_id ts created w e w' :
  create_tasks lib run_id ts created w = (Raise e, w') ->
  exists cls msg,
    e = PyError cls msg /\ (cls = TypeError \/ cls = ValueError \/ cls = OverflowError).
Proof.
  revert created w. induction ts as [|t ts IH]; intros created w; cbn [create_tasks].
  - discriminate.
  - unfold bind, lift.
    destruct (py_in "order_index" t) as [[|]|e0] eqn:Hidx; cbn [negb].
    3:{ intros [= <- <-]. destruct t; cbn in Hidx; try discriminate;
          injection Hidx as <-; eauto. }
    2:{ apply IH. }
    destruct (py_in "input" t) as [[|]|e0] eqn:Hinp; cbn [negb].
    3:{ intros [= <- <-]. destruct t; cbn in Hinp; try discriminate;
          injection Hinp as <-; eauto. }
    2:{ apply IH. }
    destruct (py_in_getitem _ _ Hinp) as [[v_input ->]|[msg ->]].
    2:{ intros [= <- <-]. eauto. }
    destruct (py_in_getitem _ _ Hidx) as [[v_index ->]|[msg ->]].
    2:{ intros [= <- <-]. eauto. }
    destruct (py_int lib v_index) as [n|e0] eqn:Hint.
    2:{ intros [= <- <-]. unfold py_int in Hint.
        destruct v_index as [| | |[q| |]|s| |]; try discriminate;
          try (injection Hint as <-; eauto 6).
        destruct (int_of_str lib s); [discriminate|]. injection Hint as <-. eauto 6. }
    unfold db_add_task. apply IH.
Qed.



(** ** The Executor: a failure after the output was committed *)



(** ** Execute when all goes well *)

Lemma pending_tasks_NoDup (s : Store) (run_id : nat) : NoDup (pending_tasks s run_id).*1.
Proof.
  unfold pending_tasks. rewrite merge_sort_Permutation.
  apply NoDup_fmap_fst.
  - intros i t1 t2 H1 H2.
    apply list_elem_of_filter in H1 as [_ H1]. apply list_elem_of_filter in H2 as [_ H2].
    apply elem_of_map_to_list in H1. apply elem_of_map_to_list in H2. congruence.
  - apply NoDup_filter, NoDup_map_to_list.
Qed.

Lemma loop_world_all_done env project_title run_id tasks0 ctx w :
  (forall site, store_fault env site = None) ->
  (forall k, (k < length tasks0)%nat ->
     exists content usage, completion env (calls w + k) = Reply content usage) ->
  NoDup tasks0.*1 ->
  Forall (fun task => tasks (working w) !! fst task = Some (snd task)) tasks0 ->
  calls (loop_world env project_title run_id tasks0 ctx w) = (calls w + length tasks0)%nat
  /\ forall k task, tasks0 !! k = Some task ->
       exists content,
         answer env (calls w + k) = Some content
         /\ tasks (working (loop_world env project_title run_id tasks0 ctx w)) !! fst task
            = Some (set_t_status TDone (set_t_output (Some content) (snd task))).
Proof.
  intros Hfault. revert ctx w.
  induction tasks0 as [|[id t] tasks0 IH]; intros ctx w Hreply Hnd Hrows; cbn [loop_world].
  - split; [cbn; lia|]. intros k task Hk. discriminate.
  - cbn [fmap list_fmap fst] in Hnd. apply NoDup_cons in Hnd as [Hnotin Hnd].
    apply Forall_cons in Hrows as [Hrow Hrows]. cbn [fst snd] in Hrow.
    destruct (Hreply 0%nat) as (content & usage & Hc); [cbn; lia|].
    rewrite Nat.add_0_r in Hc.
    assert (Hres : step_result env id (calls w) = StepDone content usage).
    { unfold step_result. now rewrite !Hfault, Hc. }
    rewrite Hres. cbn [context_after].
    set (w1 := world_after project_title run_id id t ctx (StepDone content usage) w).
    assert (Hcalls : calls w1 = S (calls w)) by reflexivity.
    assert (Hw1 : working w1 = store_after run_id id t (StepDone content usage) (working w))
      by apply working_world_after.
    destruct (IH (ctx ++ context_entry (t_order_index t) content)%string w1) as [Hk Hdone].
    + intros k Hlt. rewrite Hcalls. replace (S (calls w) + k)%nat with (calls w + S k)%nat by lia.
      apply Hreply. cbn. lia.
    + exact Hnd.
    + apply Forall_forall. intros [j tj] Hin. cbn [fst snd].
      rewrite Hw1, tasks_store_after, lookup_alter_ne.
      * rewrite Forall_forall in Hrows. exact (Hrows _ Hin).
      * intros ->. apply Hnotin. now apply (list_elem_of_fmap_2 fst) in Hin.
    + split; [rewrite Hk, Hcalls; cbn; lia|].
      intros [|k] task Htask.
      * injection Htask as <-. exists content. cbn [fst snd]. split.
        -- unfold answer. now rewrite Nat.add_0_r, Hc.
        -- rewrite loop_world_frame by exact Hnotin.
           rewrite Hw1, tasks_store_after, lookup_alter_eq, Hrow. reflexivity.
      * cbn in Htask. destruct (Hdone k task Htask) as (content' & Ha & Hrow').
        exists content'. split; [|exact Hrow'].
        rewrite Hcalls in Ha. now replace (calls w + S k)%nat with (S (calls w) + k)%nat by lia.
Qed.

Lemma find_run_after_execute (lib : Builtins) (env : Env) (run_id user_id : nat)
    (s : Store) (r : Run) (p : Project) :
  find_run s run_id user_id = Some (r, p) ->
  r_is_locked r = false ->
  pending_tasks s run_id <> [] ->
  find_run (snd (serve lib env (Execute run_id user_id) s)) run_id user_id
  = Some (set_r_status RCompleted r, p).
Proof.
  intros Hfind Hlocked Hpending.
  destruct (execute_store lib env run_id user_id s r p Hfind Hlocked Hpending)
    as (Hruns & Hprojects & _).
  unfold find_run. rewrite Hruns, lookup_insert_eq. cbn [set_r_status r_project_id].
  unfold find_project. rewrite Hprojects.
  apply find_run_project in Hfind. unfold find_project in Hfind.
  destruct (projects s !! r_project_id r) as [p0|]; [|discriminate].
  destruct (p_owner_id p0 =? user_id)%nat; [|discriminate]. now injection Hfind as ->.
Qed.

(** The rows of the pending tasks after an execute request in which all
    goes well, and the calls made. *)
Lemma execute_done_rows (lib : Builtins) (env : Env) (run_id user_id : nat)
    (s : Store) (r : Run) (p : Project) :
  find_run s run_id user_id = Some (r, p) ->
  r_is_locked r = false ->
  pending_tasks s run_id <> [] ->
  all_goes_well env (length (pending_tasks s run_id)) ->
  let s' := snd (serve lib env (Execute run_id user_id) s) in
  (forall k task, pending_tasks s run_id !! k = Some task ->
     exists content,
       answer env k = Some content
       /\ tasks s' !! fst task
          = Some (set_t_status TDone (set_t_output (Some content) (snd task))))
  /\ completion_calls lib env (Execute run_id user_id) s = length (pending_tasks s run_id)
  /\ forall id, id ∉ (pending_tasks s run_id).*1 -> tasks s' !! id = tasks s !! id.
Proof.
  intros Hfind Hlocked Hpending [Hfault Hreply]. cbn zeta.
  set (s2 := upd_runs (alter (set_r_status RRunning) run_id)
               (upd_runs (alter (set_r_is_locked true) run_id) s)).
  set (w0 := mkWorld s2 s2 0 []
               [upd_runs (alter (set_r_is_locked true) run_id) s; s2]).
  set (wl := loop_world env (p_title p) run_id (pending_tasks s run_id) EmptyString w0).
  assert (Htasks : tasks (snd (serve lib env (Execute run_id user_id) s)) = tasks (working wl)).
  { unfold serve. rewrite execute_run_eq, Hfind, Hlocked.
    destruct (pending_tasks s run_id) eqn:Hp; [done|]. reflexivity. }
  assert (Hcalls : completion_calls lib env (Execute run_id user_id) s = calls wl).
  { unfold completion_calls. rewrite execute_run_eq, Hfind, Hlocked.
    destruct (pending_tasks s run_id) eqn:Hp; [done|]. reflexivity. }
  destruct (loop_world_all_done env (p_title p) run_id (pending_tasks s run_id)
              EmptyString w0 Hfault) as [Hk Hdone].
  { intros k Hlt. cbn [calls w0 Nat.add]. now apply Hreply. }
  { apply pending_tasks_NoDup. }
  { apply Forall_forall. intros task Hin. now apply pending_tasks_elem in Hin as [Hin _]. }
  fold wl in Hk, Hdone. cbn [calls w0 Nat.add] in Hk, Hdone.
  rewrite Htasks, Hcalls. split; [exact Hdone|]. split; [exact Hk|].
  intros id Hnew. unfold wl. now rewrite loop_world_frame by exact Hnew.
Qed.

(** X20.  When the completion service answers every call and the store takes
    every statement, an execute request on an unlocked run whose tasks carry
    distinct order indexes completes all its pending tasks: they are taken
    by strictly increasing [order_index], the k-th of them ends ["done"]
    with the text of the k-th answer as output, one completion call is made
    per task, and no task of the run is left ["pending"], so that a second
    execute request on the run is answered [400 No pending tasks] and
    changes nothing. *)
Theorem execute_all_succeed (lib : Builtins) (env : Env) (run_id user_id : nat)
    (s : Store) (r : Run) (p : Project) :
  find_run s run_id user_id = Some (r, p) ->
  r_is_locked r = false ->
  pending_tasks s run_id <> [] ->
  distinct_order_index s run_id ->
  all_goes_well env (length (pending_tasks s run_id)) ->
  let rows := pending_tasks s run_id in
  let s' := snd (serve lib env (Execute run_id user_id) s) in
  StronglySorted Z.lt (map (fun task => t_order_index (snd task)) rows)
  /\ NoDup rows.*1
  /\ (forall id row,
        (id, row) ∈ rows
        <-> tasks s !! id = Some row /\ t_run_id row = run_id /\ t_status row = TPending)
  /\ (forall k task, rows !! k = Some task ->
        exists content,
          answer env k = Some content
          /\ tasks s' !! fst task
             = Some (mkTask (t_run_id (snd task)) (t_agent_type (snd task)) TDone
                       (t_input (snd task)) (Some content) (t_order_index (snd task))))
  /\ completion_calls lib env (Execute run_id user_id) s = length rows
  /\ pending_tasks s' run_id = []
  /\ forall env',
       serve lib env' (Execute run_id user_id) s'
       = (Some (HTTPException 400 "No pending tasks"), s').
Proof.
  intros Hfind Hlocked Hpending Hdistinct Hwell. cbn zeta.
  destruct (execute_done_rows lib env run_id user_id s r p Hfind Hlocked Hpending Hwell)
    as (Hdone & Hcalls & Hframe).
  pose proof (find_run_after_execute lib env run_id user_id s r p Hfind Hlocked Hpending)
    as Hfind'.
  set (s' := snd (serve lib env (Execute run_id user_id) s)) in *.
  assert (Hnone : pending_tasks s' run_id = []).
  { destruct (pending_tasks s' run_id) as [|[id row] rest] eqn:Hp'; [reflexivity|]. exfalso.
    assert (Hin : (id, row) ∈ pending_tasks s' run_id) by (rewrite Hp'; left).
    apply pending_tasks_elem in Hin as [Hrow [Hrun Hstatus]]. cbn [fst snd] in *.
    destruct (decide (id ∈ (pending_tasks s run_id).*1)) as [Hold|Hnew].
    - apply list_elem_of_fmap in Hold as ([id0 t0] & -> & Hold).
      apply list_elem_of_lookup in Hold as [k Hold].
      destruct (Hdone k _ Hold) as (content & _ & Hrow'). cbn [fst snd] in *.
      rewrite Hrow' in Hrow. injection Hrow as <-. discriminate.
    - rewrite Hframe in Hrow by exact Hnew.
      apply Hnew. apply list_elem_of_fmap. exists (id, row). split; [reflexivity|].
      apply pending_tasks_elem. now split. }
  split; [now apply pending_tasks_by_index|].
  split; [apply pending_tasks_NoDup|].
  split; [intros id row; apply (pending_tasks_elem s run_id (id, row))|].
  split.
  { intros k task Htask. destruct (Hdone k task Htask) as (content & Ha & Hrow).
    exists content. split; [exact Ha|]. rewrite Hrow. now destruct (snd task). }
  split; [exact Hcalls|]. split; [exact Hnone|].
  intros env'.
  unfold serve. rewrite execute_run_eq, Hfind'. cbn [set_r_status r_is_locked].
  rewrite Hlocked, Hnone. cbn [outcome snd committed]. f_equal.
  apply (lock_unlock_run s' run_id (set_r_status RCompleted r)).
  - now apply find_run_Some in Hfind'.
  - exact Hlocked.
Qed.

Lemma execute_all_succeed_witness :
  pending_tasks
    (snd (serve Fixture.lib (Demo.env_of [Demo.says "schema.sql"; Demo.says "api.py"])
            (Execute 0 7) Demo.store1)) 0
  = [].
Proof.
  apply (execute_all_succeed Fixture.lib
           (Demo.env_of [Demo.says "schema.sql"; Demo.says "api.py"]) 0 7 Demo.store1
           (mkRun 1 RPlanned None false false)
           (mkProject "Site" (Some "Build a site") 7 false)).
  - vm_compute. reflexivity.
  - reflexivity.
  - vm_compute. discriminate.
  - apply distinct_order_index_check. apply (bool_decide_unpack _). vm_compute. reflexivity.
  - split; [reflexivity|].
    assert (Hlen : length (pending_tasks Demo.store1 0) = 2%nat) by (vm_compute; reflexivity).
    rewrite Hlen. intros [|[|k]] Hk; [cbn; eauto | cbn; eauto | lia].
Defined.

(** ** What the prompts can hold *)

Lemma match_before_separator (pat a b : string) (c : ascii) (r : string) :
  has_char (PyStr.lower c) pat = false -> pat <> EmptyString ->
  PyStr.match_prefix_ci pat (a ++ String c b) = Some r ->
  exists r', PyStr.match_prefix_ci pat a = Some r'.
Proof.
  revert a. induction pat as [|p pat IH]; intros a Hc Hne; [done|].
  cbn [has_char] in Hc. apply orb_false_iff in Hc as [Hp Hc].
  destruct a as [|x a].
  - change (EmptyString ++ String c b)%string with (String c b).
    cbn [PyStr.match_prefix_ci]. rewrite Ascii.eqb_sym, Hp. discriminate.
  - change (String x a ++ String c b)%string with (String x (a ++ String c b)). cbn.
    destruct (Ascii.eqb p (PyStr.lower x)); [|discriminate].
    destruct pat as [|q pat]; [cbn; eauto|].
    intros H. apply (IH a Hc); [discriminate | exact H].
Qed.

Lemma occurs_empty (pat : string) : pat <> EmptyString -> occurs_ci pat EmptyString = false.
Proof. destruct pat; [done | reflexivity]. Qed.

Lemma occurs_separator (pat a b : string) (c : ascii) :
  has_char (PyStr.lower c) pat = false -> pat <> EmptyString ->
  occurs_ci pat (a ++ String c b) = occurs_ci pat a || occurs_ci pat b.
Proof.
  intros Hc Hne. induction a as [|x a IH].
  - rewrite occurs_empty by exact Hne.
    change (EmptyString ++ String c b)%string with (String c b).
    change (occurs_ci pat (String c b))
      with (match PyStr.match_prefix_ci pat (String c b) with
            | Some _ => true
            | None => occurs_ci pat b
            end).
    destruct (PyStr.match_prefix_ci pat (String c b)) as [r|] eqn:Hm; [|reflexivity].
    destruct (match_before_separator pat EmptyString b c r Hc Hne Hm) as [r' Hr'].
    destruct pat; [done | discriminate].
  - change (String x a ++ String c b)%string with (String x (a ++ String c b)).
    change (occurs_ci pat (String x (a ++ String c b)))
      with (match PyStr.match_prefix_ci pat (String x a ++ String c b) with
            | Some _ => true
            | None => occurs_ci pat (a ++ String c b)
            end).
    change (occurs_ci pat (String x a))
      with (match PyStr.match_prefix_ci pat (String x a) with
            | Some _ => true
            | None => occurs_ci pat a
            end).
    destruct (PyStr.match_prefix_ci pat (String x a ++ String c b)) as [r|] eqn:Hm.
    + destruct (match_before_separator pat (String x a) b c r Hc Hne Hm) as [r' ->].
      reflexivity.
    + destruct (PyStr.match_prefix_ci pat (String x a)) as [r'|] eqn:Hm'; [|exact IH].
      apply (match_prefix_app _ _ _ (String c b)) in Hm'. congruence.
Qed.

(** A phrase without line feed occurs in the joined lines when it occurs in
    one of them. *)
Lemma occurs_join (pat : string) (lines : list string) :
  has_char "010"%char pat = false -> pat <> EmptyString ->
  occurs_ci pat (PyStr.join PyStr.nl lines) = existsb (occurs_ci pat) lines.
Proof.
  intros Hc Hne. unfold PyStr.join.
  induction lines as [|l lines IH]; [now apply occurs_empty|].
  destruct lines as [|l' lines].
  - cbn. now rewrite orb_false_r.
  - change (String.concat PyStr.nl (l :: l' :: lines))
      with (l ++ String "010"%char (String.concat PyStr.nl (l' :: lines)))%string.
    rewrite (occurs_separator pat l _ "010"%char Hc Hne), IH. reflexivity.
Qed.

Lemma sanitize_free_phrase (text pat : string) :
  In pat blocked_phrases -> occurs_ci pat (sanitize text) = false.
Proof.
  intros Hin. pose proof (sanitize_free text) as H.
  rewrite Forall_forall in H. apply H. now apply list_elem_of_In.
Qed.

Ltac phrase_by_phrase tac :=
  unfold blocked_phrases, BLOCK_PATTERNS; cbn [List.concat app];
  repeat (apply Forall_cons; split; [tac|]); apply Forall_nil_2.

(** X21.  The prompt the Executor sends holds a blocked phrase only if the
    project title or the outputs of the earlier tasks hold it: the task
    input is embedded sanitized, the fixed lines of the prompt hold none,
    and no phrase runs over a line break.  The title and the earlier outputs
    are embedded as they are. *)
Theorem executor_prompt_guard (project_title previous_context task_input : string) :
  Forall (fun pat =>
            occurs_ci pat
              (executor_prompt project_title previous_context (sanitize task_input))
            = occurs_ci pat project_title || occurs_ci pat previous_context)
    blocked_phrases.
Proof.
  phrase_by_phrase
    ltac:(unfold executor_prompt;
          rewrite occurs_join by (vm_compute; first [reflexivity | discriminate]);
          cbn [existsb];
          rewrite sanitize_free_phrase by (vm_compute; tauto);
          match goal with
          | |- context [occurs_ci ?pat project_title] =>
              generalize (occurs_ci pat project_title), (occurs_ci pat previous_context)
          end;
          intros b1 b2; destruct b1, b2; vm_compute; reflexivity).
Qed.

(** X22.  The first prompt of the Planner holds no blocked phrase, whatever
    the title and the description of the project are: both are embedded
    sanitized, the fixed lines hold none, and no phrase runs over a line
    break. *)
Theorem planner_prompt_free (project_title : string) (project_description : option string) :
  Forall (fun pat => occurs_ci pat (base_prompt project_title project_description) = false)
    blocked_phrases.
Proof.
  phrase_by_phrase
    ltac:(unfold base_prompt;
          rewrite occurs_join by (vm_compute; first [reflexivity | discriminate]);
          cbn [existsb];
          rewrite !sanitize_free_phrase by (vm_compute; tauto);
          vm_compute; reflexivity).
Qed.

(** ** [delete_project] *)

(** X24.  [delete_project] on a project of the user removes the project with
    its runs, and the tasks and logs of those runs, and nothing else; the
    store keeps its referential integrity, and afterwards the project is
    not found by anyone. *)
Theorem delete_project_cascades (project_id user_id : nat) (s : Store) (p : Project) :
  find_project s project_id user_id = Some p ->
  let s' := snd (run_request (delete_project project_id user_id) s) in
  fst (run_request (delete_project project_id user_id) s) = Ok tt
  /\ projects s' = delete project_id (projects s)
  /\ (forall id r, runs s' !! id = Some r
                   <-> runs s !! id = Some r /\ r_project_id r <> project_id)
  /\ (forall id row, tasks s' !! id = Some row
                     <-> tasks s !! id = Some row
                         /\ ~ run_of_project s project_id (t_run_id row))
  /\ logs s' = filter (fun l => ~ run_of_project s project_id (l_run_id l)) (logs s)
  /\ (referential s -> referential s')
  /\ forall user, find_project s' project_id user = None.
Proof.
  intros Hfind. cbn zeta.
  assert (Hrun : run_request (delete_project project_id user_id) s
                 = (Ok tt, db_delete_project project_id s)).
  { unfold run_request, delete_project, open_session, bind, read, modify, commit.
    cbn [working]. now rewrite Hfind. }
  rewrite Hrun. cbn [fst snd db_delete_project projects runs tasks logs].
  split; [reflexivity|]. split; [reflexivity|]. split; [|split; [|split; [reflexivity|split]]].
  - intros id r. rewrite map_lookup_filter_Some. cbn. tauto.
  - intros id row. rewrite map_lookup_filter_Some. cbn. tauto.
  - intros (Rtasks & Rlogs & Rruns).
    assert (Hkept : forall run_id,
              is_Some (runs s !! run_id) -> ~ run_of_project s project_id run_id ->
              is_Some (filter (fun run : nat * Run => r_project_id (snd run) <> project_id)
                         (runs s) !! run_id)).
    { intros run_id [r Hr] Hnot. exists r. apply map_lookup_filter_Some. split; [exact Hr|].
      cbn. intros Heq. apply Hnot. unfold run_of_project. now rewrite Hr. }
    split; [|split]; cbn.
    + intros id row [Hid Hnot]%map_lookup_filter_Some. cbn in *.
      apply Hkept; [exact (Rtasks _ _ Hid) | exact Hnot].
    + apply Forall_forall. intros l [Hnot Hl]%list_elem_of_filter.
      rewrite Forall_forall in Rlogs. apply Hkept; [now apply Rlogs | exact Hnot].
    + intros id r [Hid Hne]%map_lookup_filter_Some. cbn in *.
      rewrite lookup_delete_ne by done. exact (Rruns _ _ Hid).
  - intros user. unfold find_project. cbn [projects db_delete_project].
    now rewrite lookup_delete_eq.
Qed.

Lemma delete_project_cascades_witness :
  runs (snd (run_request (delete_project 1 7) Demo.store1)) !! 0%nat = None.
Proof.
  destruct (delete_project_cascades 1 7 Demo.store1
              (mkProject "Site" (Some "Build a site") 7 false))
    as (_ & _ & Hruns & _).
  - vm_compute. reflexivity.
  - destruct (runs (snd (run_request (delete_project 1 7) Demo.store1)) !! 0%nat)
      as [r|] eqn:Hr; [|reflexivity].
    apply Hruns in Hr as [Hr Hne]. vm_compute in Hr. injection Hr as <-. now destruct Hne.
Defined.

(** ** From the answers of the service to the report *)

Lemma block_in_report (project_title : string) (dicts : list TaskDict) (t : TaskDict) :
  In t dicts ->
  exists before after,
    reporter_lines project_title dicts = (before ++ step_block t ++ after)%list.
Proof.
  intros Hin. apply in_split in Hin as (l1 & l2 & ->).
  unfold reporter_lines. rewrite reporter_fold.
  rewrite map_app, concat_app. cbn [map concat app].
  eexists (_ :: _ :: _ :: concat (map step_block l1))%list, _.
  rewrite <- !app_assoc. cbn [app]. reflexivity.
Qed.

(** The block of a task row with an output, line by line. *)
Lemma step_block_done (row : Task) (content : string) :
  t_output row = Some content ->
  step_block (task_dict row)
  = ([EmptyString;
      ("Step " ++ PyStr.string_of_Z (t_order_index row) ++ " ("
       ++ match t_agent_type row with
          | EmptyString => "executor"
          | String c a => String c a
          end ++ "):")%string]
     ++ match PyStr.strip (t_input row) with
        | EmptyString => []
        | String _ _ => [("- Instruction: " ++ PyStr.strip (t_input row))%string]
        end
     ++ [match PyStr.strip content with
         | EmptyString => "- Result: (no output recorded)"%string
         | String _ _ => ("- Result: " ++ PyStr.strip content)%string
         end])%list.
Proof.
  intros Hout.
  assert (Hin : input_text (task_dict row) = PyStr.strip (t_input row)).
  { unfold input_text, task_dict, get_or. cbn [td_input]. now destruct (t_input row). }
  assert (Htext : output_text (task_dict row) = PyStr.strip content).
  { unfold output_text, task_dict. cbn [td_output]. rewrite Hout. cbn [get_or].
    now destruct content. }
  assert (Hstep : step_line (task_dict row)
                  = ("Step " ++ PyStr.string_of_Z (t_order_index row) ++ " ("
                     ++ match t_agent_type row with
                        | EmptyString => "executor"
                        | String c a => String c a
                        end ++ "):")%string).
  { unfold step_line, task_dict, idx_text, get_or. cbn [td_order_index td_agent_type].
    now destruct (t_agent_type row). }
  unfold step_block, reporter_step, instruction_line, result_line, no_output_line.
  rewrite Hstep, Hin, Htext.
  destruct (PyStr.strip (t_input row)), (PyStr.strip content); reflexivity.
Qed.



(** ** The critical sections *)

(** X26.  Mutual exclusion.  Every store a create-and-plan request commits,
    but the last, has the lock flag of its project set, and every store an
    execute request commits, but the last, has the lock flag of its run set:
    from the commit that takes the lock to the commit of the [finally]
    block, a second request on the same project or run finds the flag set
    and is refused. *)
Theorem lock_held_while_served (lib : Builtins) (env : Env) (s : Store) :
  (forall project_id user_id,
     Forall (fun st => p_is_locked <$> projects st !! project_id = Some true)
       (removelast (commits lib env (CreateAndPlan project_id user_id) s)))
  /\ (forall run_id user_id,
        Forall (fun st => r_is_locked <$> runs st !! run_id = Some true)
          (removelast (commits lib env (Execute run_id user_id) s))).
Proof.
  split.
  - intros project_id user_id. unfold commits.
    destruct (create_and_plan_run env lib project_id user_id (open_session s))
      as [r w'] eqn:Hrun.
    apply create_and_plan_cases in Hrun. cbn zeta in Hrun. cbn [snd].
    destruct Hrun as [[-> _]|[(p & e & _ & _ & _ & _ & _ & ->)
                             |(p & pr & wp & Hfind & _ & _ & Hplan & _ & -> & _)]].
    + constructor.
    + constructor.
    + rewrite removelast_last. apply find_project_Some in Hfind.
      assert (Hlocked : forall st : Store,
                projects st = alter (set_p_is_locked true) project_id (projects s) ->
                p_is_locked <$> projects st !! project_id = Some true).
      { intros st ->. now rewrite lookup_alter_eq, Hfind. }
      apply plan_frame in Hplan as (_ & Hprojects & _ & Hcase).
      cbn [working history upd_runs upd_projects projects] in *.
      destruct pr as [ids|e0]; destruct Hcase as (_ & _ & ->);
        repeat (apply Forall_cons; split; [apply Hlocked; reflexivity|]).
      * apply Forall_cons. split; [now apply Hlocked | constructor].
      * constructor.
  - intros run_id user_id. unfold commits. rewrite execute_run_eq.
    destruct (find_run s run_id user_id) as [[r p]|] eqn:Hfind; [|constructor].
    apply find_run_Some in Hfind.
    destruct (r_is_locked r); [constructor|].
    destruct (pending_tasks s run_id) as [|task ts].
    + cbn zeta. cbn [snd history removelast]. apply Forall_cons. split; [|constructor].
      cbn [upd_runs runs]. now rewrite lookup_alter_eq, Hfind.
    + cbn zeta. cbn [snd history].
      set (s1 := upd_runs (alter (set_r_is_locked true) run_id) s).
      set (s2 := upd_runs (alter (set_r_status RRunning) run_id) s1).
      set (w0 := mkWorld s2 s2 0 [] [s1; s2]).
      destruct (loop_world_history env (p_title p) run_id (task :: ts) EmptyString w0)
        as (hs & Hh & Hruns).
      destruct (loop_world_runs env (p_title p) run_id (task :: ts) EmptyString w0)
        as [Hsame _].
      rewrite Hh. cbn [history w0 working] in *.
      match goal with |- Forall _ (removelast (?l ++ [?a; ?b])) =>
        replace (l ++ [a; b])%list with ((l ++ [a]) ++ [b])%list
          by now rewrite <- app_assoc end.
      rewrite removelast_last.
      assert (H2 : r_is_locked <$> runs s2 !! run_id = Some true).
      { unfold s2, s1. cbn. now rewrite !lookup_alter_eq, Hfind. }
      apply Forall_app. split; [apply Forall_app; split|].
      * apply Forall_cons. split; [|apply Forall_cons; split; [exact H2 | constructor]].
        unfold s1. cbn. now rewrite lookup_alter_eq, Hfind.
      * eapply Forall_impl; [exact Hruns|]. intros st Hst. now rewrite Hst.
      * apply Forall_cons. split; [|constructor].
        cbn [upd_runs runs]. rewrite Hsame. cbn [working w0].
        rewrite lookup_alter_eq. unfold s2, s1. cbn [upd_runs runs].
        now rewrite !lookup_alter_eq, Hfind.
Qed.
